(** * gohfc: block-event subscription and transaction decoding

    A shallow embedding of [event.go] (package [gohfc]): the event hub
    ([connect], [register], [disconnect], [newEventListener], [readBlock])
    and the decoder [DecodeEventBlock], followed by the properties of the
    specification that concern them; with it, [GetRandomBytes] of
    [bccsp/gm/sm4.go] and the [main] of the command line.

    Conventions.
    - Go byte slices are [list byte]; a nil slice and an empty slice are both
      [[]].  Go strings are [string].
    - [uint64], [int] and [int32] values are [Z]; the program performs no
      arithmetic on them, only the conversion [int32(uint8)], which is exact.
    - A Go pointer that may be nil is an [option].  What a caller hands
      over to the hub (the hub itself, the peer, the identity with its
      certificate, the crypto suite) is taken to be there and is no
      [option]: the properties are about such calls, and say nothing of a
      call with a nil argument, which panics.
    - A run-time panic (nil dereference, index out of range) is an explicit
      result, never hidden.
    - What a run does to the outside (dialling, signing, sending on the
      stream or on the response channel, starting the reader) is recorded
      in order as a list of effects; a send on the response channel is
      taken to complete, that is, the consumer keeps receiving. *)

From Stdlib Require Import Strings.String Strings.Byte.
From Stdlib Require Import List ZArith NArith Bool Lia.
From Stdlib Require DecimalString.
Import ListNotations.
Local Open Scope Z_scope.

Definition bytes := list byte.

(** ** Errors, panics and control flow *)

(** Go [error] values.  [io_EOF] is the sentinel that [readBlock] compares
    against; every other error is opaque to the program. *)
Inductive error : Type :=
| io_EOF
| io_ErrUnexpectedEOF
| errors_New (msg : string).

Definition error_eqb (a b : error) : bool :=
  match a, b with
  | io_EOF, io_EOF => true
  | io_ErrUnexpectedEOF, io_ErrUnexpectedEOF => true
  | errors_New m, errors_New n => String.eqb m n
  | _, _ => false
  end.

Inductive panic : Type :=
| nil_dereference
| index_out_of_range (index : Z) (len : nat).

(** What a call of a Go function ends in. *)
Inductive outcome (A : Type) : Type :=
| Return (a : A)
| Panic (p : panic).
Arguments Return {A} a.
Arguments Panic {A} p.

(** A statement sequence inside a function whose result type is [R]: it
    falls through to the next statement with a value, executes [return],
    or panics. *)
Inductive flow (R A : Type) : Type :=
| Next (a : A)
| Returns (r : R)
| Panics (p : panic).
Arguments Next {R A} a.
Arguments Returns {R A} r.
Arguments Panics {R A} p.

Definition bind {R A B : Type} (c : flow R A) (k : A -> flow R B) : flow R B :=
  match c with
  | Next a => k a
  | Returns r => Returns r
  | Panics p => Panics p
  end.

Declare Scope flow_scope.
Delimit Scope flow_scope with flow.
Notation "x <- c ;; k" := (bind c (fun x => k))
  (at level 61, c at next level, right associativity) : flow_scope.
Notation "' p <- c ;; k" := (bind c (fun x => let 'p := x in k))
  (at level 61, p pattern, c at next level, right associativity) : flow_scope.

(** The function body ends: falling off the end with [r] returns [r]. *)
Definition body {R : Type} (c : flow R R) : outcome R :=
  match c with
  | Next r => Return r
  | Returns r => Return r
  | Panics p => Panic p
  end.

(** [l[i]] with Go's bounds check. *)
Definition index {A : Type} (l : list A) (i : Z) : outcome A :=
  if i <? 0 then Panic (index_out_of_range i (length l))
  else match nth_error l (Z.to_nat i) with
       | Some x => Return x
       | None => Panic (index_out_of_range i (length l))
       end.

Definition eval {R A : Type} (o : outcome A) : flow R A :=
  match o with
  | Return a => Next a
  | Panic p => Panics p
  end.

(** [p.f] through a pointer [p]. *)
Definition deref {R A : Type} (p : option A) : flow R A :=
  match p with
  | Some a => Next a
  | None => Panics nil_dereference
  end.

(** ** Protocol messages *)

(** Modelled from the spec: the message types of the vendored packages
    [fabric/protos/common], [fabric/protos/peer] and [fabric/protos/msp] are
    not among the sources; the records of the modules [common], [peer] and
    [msp] below carry the fields that [event.go] reads or writes (spec,
    sections 4.4 and 6), each under the name the program uses for it. *)
Module common.

Record Envelope := { Envelope_Payload : bytes }.

Record Header := { Header_ChannelHeader : bytes }.

Record Payload := {
  Payload_Header : option Header;
  Payload_Data : bytes }.

Record ChannelHeader := {
  ChannelHeader_Type : Z;
  ChannelHeader_ChannelId : string;
  ChannelHeader_TxId : string;
  ChannelHeader_Extension : bytes }.

Record BlockHeader := { BlockHeader_Number : Z }.
Record BlockData := { BlockData_Data : list bytes }.
Record BlockMetadata := { BlockMetadata_Metadata : list bytes }.

Record Block := {
  Block_Header : option BlockHeader;
  Block_Data : option BlockData;
  Block_Metadata : option BlockMetadata }.

(** Modelled from the spec: [common.HeaderType_ENDORSER_TRANSACTION], the
    channel-header type that the spec calls endorser-transaction; its
    value is the protocol's. *)
Definition HeaderType_ENDORSER_TRANSACTION : Z := 3.

(** Modelled from the spec: [common.BlockMetadataIndex_TRANSACTIONS_FILTER],
    the metadata index of the transaction-validation flags.  The spec
    (section 9) has the status read from a position that coincides with
    it, and the program reads the status at the literal index 2. *)
Definition BlockMetadataIndex_TRANSACTIONS_FILTER : Z := 2.

End common.

Module peer.

Record ChaincodeID := {
  ChaincodeID_Name : string;
  ChaincodeID_Version : string }.

Record ChaincodeHeaderExtension := {
  ChaincodeHeaderExtension_ChaincodeId : option ChaincodeID }.

Record TransactionAction := { TransactionAction_Payload : bytes }.

Record Transaction := { Transaction_Actions : list TransactionAction }.

Record ChaincodeEndorsedAction := {
  ChaincodeEndorsedAction_ProposalResponsePayload : bytes }.

Record ChaincodeActionPayload := {
  ChaincodeActionPayload_ChaincodeProposalPayload : bytes;
  ChaincodeActionPayload_Action : option ChaincodeEndorsedAction }.

Record ChaincodeProposalPayload := { ChaincodeProposalPayload_Input : bytes }.

Record ChaincodeInput := { ChaincodeInput_Args : list bytes }.

Record ChaincodeSpec := { ChaincodeSpec_Input : option ChaincodeInput }.

Record ChaincodeInvocationSpec := {
  ChaincodeInvocationSpec_ChaincodeSpec : option ChaincodeSpec }.

Record ProposalResponsePayload := { ProposalResponsePayload_Extension : bytes }.

Record ChaincodeAction := { ChaincodeAction_Events : bytes }.

Record ChaincodeEvent := {
  ChaincodeEvent_EventName : string;
  ChaincodeEvent_Payload : bytes }.

(** The generated getters are nil-safe. *)
Definition GetChaincodeSpec (m : ChaincodeInvocationSpec) : option ChaincodeSpec :=
  ChaincodeInvocationSpec_ChaincodeSpec m.

Definition GetInput (m : option ChaincodeSpec) : option ChaincodeInput :=
  match m with
  | Some s => ChaincodeSpec_Input s
  | None => None
  end.

Inductive EventType := EventType_REGISTER | EventType_BLOCK
                     | EventType_CHAINCODE | EventType_REJECTION.

Record Interest := { Interest_EventType : EventType }.

Record Register := { Register_Events : list Interest }.

(** The [Event] field of [peer.Event] is a one-of. *)
Inductive isEvent_Event :=
| Event_Register (Register : option Register)
| Event_Block (Block : option common.Block)
| Event_ChaincodeEvent
| Event_Rejection
| Event_Unregister.

Record Event := {
  Event_Event : option isEvent_Event;
  Event_Creator : bytes }.

Definition GetBlock (m : Event) : option common.Block :=
  match Event_Event m with
  | Some (Event_Block b) => b
  | _ => None
  end.

Definition GetHeader (m : option common.Block) : option common.BlockHeader :=
  match m with
  | Some b => common.Block_Header b
  | None => None
  end.

Record SignedEvent := {
  SignedEvent_Signature : bytes;
  SignedEvent_EventBytes : bytes }.

(** Modelled from the spec: [peer.TxValidationCode_VALID]; the spec's
    round-trip scenario has the validation-flag byte 0 mean valid. *)
Definition TxValidationCode_VALID : Z := 0.

End peer.

Module msp.

Record SerializedIdentity := {
  SerializedIdentity_Mspid : string;
  SerializedIdentity_IdBytes : bytes }.

End msp.

Import common peer msp.

Definition uint8 (b : byte) : Z := Z.of_N (Byte.to_N b).

Module util.

(** Modelled from the spec: [util.TxValidationFlags] of the vendored
    [fabric/core/ledger/util] is not among the sources.  The flags are
    one byte per transaction (spec, section 4.4 and the glossary's
    validation flag). *)
Definition TxValidationFlags := bytes.

(** Modelled from the spec: [TxValidationFlags.IsValid] is not among the
    sources either; it tells whether the byte at the transaction's
    position is the valid code (spec, sections 4.4 and 8), and indexes the
    flags as a slice. *)
Definition IsValid (obj : TxValidationFlags) (txIndex : Z) : outcome bool :=
  match index obj txIndex with
  | Return b => Return (uint8 b =? TxValidationCode_VALID)
  | Panic p => Panic p
  end.

End util.

(** The zero value of a message type: what [new(T)] and [&T{}] hold. *)
Class Zero (M : Type) : Type := zero : M.

#[global] Instance Envelope_zero : Zero Envelope := {| Envelope_Payload := [] |}.
#[global] Instance Header_zero : Zero Header := {| Header_ChannelHeader := [] |}.
#[global] Instance Payload_zero : Zero Payload :=
  {| Payload_Header := None; Payload_Data := [] |}.
#[global] Instance ChannelHeader_zero : Zero ChannelHeader :=
  {| ChannelHeader_Type := 0; ChannelHeader_ChannelId := EmptyString;
     ChannelHeader_TxId := EmptyString; ChannelHeader_Extension := [] |}.
#[global] Instance ChaincodeID_zero : Zero ChaincodeID :=
  {| ChaincodeID_Name := EmptyString; ChaincodeID_Version := EmptyString |}.
#[global] Instance ChaincodeHeaderExtension_zero : Zero ChaincodeHeaderExtension :=
  {| ChaincodeHeaderExtension_ChaincodeId := None |}.
#[global] Instance TransactionAction_zero : Zero TransactionAction :=
  {| TransactionAction_Payload := [] |}.
#[global] Instance Transaction_zero : Zero Transaction :=
  {| Transaction_Actions := [] |}.
#[global] Instance ChaincodeEndorsedAction_zero : Zero ChaincodeEndorsedAction :=
  {| ChaincodeEndorsedAction_ProposalResponsePayload := [] |}.
#[global] Instance ChaincodeActionPayload_zero : Zero ChaincodeActionPayload :=
  {| ChaincodeActionPayload_ChaincodeProposalPayload := [];
     ChaincodeActionPayload_Action := None |}.
#[global] Instance ChaincodeProposalPayload_zero : Zero ChaincodeProposalPayload :=
  {| ChaincodeProposalPayload_Input := [] |}.
#[global] Instance ChaincodeInput_zero : Zero ChaincodeInput :=
  {| ChaincodeInput_Args := [] |}.
#[global] Instance ChaincodeSpec_zero : Zero ChaincodeSpec :=
  {| ChaincodeSpec_Input := None |}.
#[global] Instance ChaincodeInvocationSpec_zero : Zero ChaincodeInvocationSpec :=
  {| ChaincodeInvocationSpec_ChaincodeSpec := None |}.
#[global] Instance ProposalResponsePayload_zero : Zero ProposalResponsePayload :=
  {| ProposalResponsePayload_Extension := [] |}.
#[global] Instance ChaincodeAction_zero : Zero ChaincodeAction :=
  {| ChaincodeAction_Events := [] |}.
#[global] Instance ChaincodeEvent_zero : Zero ChaincodeEvent :=
  {| ChaincodeEvent_EventName := EmptyString; ChaincodeEvent_Payload := [] |}.

(** [proto.Unmarshal(buf, pb)] for a freshly allocated [pb]: the contents of
    the message after the call, and the error.  The library is not part of
    the program, so it is an interface here; the one law kept is that the
    empty buffer decodes to the zero message. *)
Class ProtoMessage (M : Type) {Z0 : Zero M} : Type := {
  proto_Unmarshal : bytes -> M * option error;
  proto_Unmarshal_nil : proto_Unmarshal [] = (zero, None)
}.
Arguments proto_Unmarshal M {_ _} buf.

(** The messages that [DecodeEventBlock] unmarshals. *)
Class Protos : Type := {
  PM_Envelope :: ProtoMessage Envelope;
  PM_Payload :: ProtoMessage Payload;
  PM_ChannelHeader :: ProtoMessage ChannelHeader;
  PM_ChaincodeHeaderExtension :: ProtoMessage ChaincodeHeaderExtension;
  PM_Transaction :: ProtoMessage Transaction;
  PM_ChaincodeActionPayload :: ProtoMessage ChaincodeActionPayload;
  PM_ChaincodeProposalPayload :: ProtoMessage ChaincodeProposalPayload;
  PM_ChaincodeInvocationSpec :: ProtoMessage ChaincodeInvocationSpec;
  PM_ProposalResponsePayload :: ProtoMessage ProposalResponsePayload;
  PM_ChaincodeAction :: ProtoMessage ChaincodeAction;
  PM_ChaincodeEvent :: ProtoMessage ChaincodeEvent
}.

(** ** The decoded record *)

Record CCEvent := {
  EventName : string;
  EventPayload : bytes }.

Record BlockEventResponse := {
  Error : option error;
  IsVaild : bool;
  BlockHeight : Z;
  TxIndex : Z;
  TxID : string;
  ChannelName : string;
  ChainCodeName : string;
  ChainCodeVersion : string;
  Status : Z;
  ChainCodeInput : list bytes;
  CCEvents : list CCEvent }.

(** [BlockEventResponse{}] *)
Definition BlockEventResponse_zero : BlockEventResponse :=
  {| Error := None; IsVaild := false; BlockHeight := 0; TxIndex := 0;
     TxID := EmptyString; ChannelName := EmptyString;
     ChainCodeName := EmptyString; ChainCodeVersion := EmptyString;
     Status := 0; ChainCodeInput := []; CCEvents := [] |}.

(** Field assignments [response.F = v]. *)
Definition set_Error (v : error) (r : BlockEventResponse) :=
  {| Error := Some v; IsVaild := IsVaild r; BlockHeight := BlockHeight r;
     TxIndex := TxIndex r; TxID := TxID r; ChannelName := ChannelName r;
     ChainCodeName := ChainCodeName r; ChainCodeVersion := ChainCodeVersion r;
     Status := Status r; ChainCodeInput := ChainCodeInput r; CCEvents := CCEvents r |}.
Definition set_IsVaild (v : bool) (r : BlockEventResponse) :=
  {| Error := Error r; IsVaild := v; BlockHeight := BlockHeight r;
     TxIndex := TxIndex r; TxID := TxID r; ChannelName := ChannelName r;
     ChainCodeName := ChainCodeName r; ChainCodeVersion := ChainCodeVersion r;
     Status := Status r; ChainCodeInput := ChainCodeInput r; CCEvents := CCEvents r |}.
Definition set_BlockHeight (v : Z) (r : BlockEventResponse) :=
  {| Error := Error r; IsVaild := IsVaild r; BlockHeight := v;
     TxIndex := TxIndex r; TxID := TxID r; ChannelName := ChannelName r;
     ChainCodeName := ChainCodeName r; ChainCodeVersion := ChainCodeVersion r;
     Status := Status r; ChainCodeInput := ChainCodeInput r; CCEvents := CCEvents r |}.
Definition set_TxIndex (v : Z) (r : BlockEventResponse) :=
  {| Error := Error r; IsVaild := IsVaild r; BlockHeight := BlockHeight r;
     TxIndex := v; TxID := TxID r; ChannelName := ChannelName r;
     ChainCodeName := ChainCodeName r; ChainCodeVersion := ChainCodeVersion r;
     Status := Status r; ChainCodeInput := ChainCodeInput r; CCEvents := CCEvents r |}.
Definition set_TxID (v : string) (r : BlockEventResponse) :=
  {| Error := Error r; IsVaild := IsVaild r; BlockHeight := BlockHeight r;
     TxIndex := TxIndex r; TxID := v; ChannelName := ChannelName r;
     ChainCodeName := ChainCodeName r; ChainCodeVersion := ChainCodeVersion r;
     Status := Status r; ChainCodeInput := ChainCodeInput r; CCEvents := CCEvents r |}.
Definition set_ChannelName (v : string) (r : BlockEventResponse) :=
  {| Error := Error r; IsVaild := IsVaild r; BlockHeight := BlockHeight r;
     TxIndex := TxIndex r; TxID := TxID r; ChannelName := v;
     ChainCodeName := ChainCodeName r; ChainCodeVersion := ChainCodeVersion r;
     Status := Status r; ChainCodeInput := ChainCodeInput r; CCEvents := CCEvents r |}.
Definition set_ChainCodeName (v : string) (r : BlockEventResponse) :=
  {| Error := Error r; IsVaild := IsVaild r; BlockHeight := BlockHeight r;
     TxIndex := TxIndex r; TxID := TxID r; ChannelName := ChannelName r;
     ChainCodeName := v; ChainCodeVersion := ChainCodeVersion r;
     Status := Status r; ChainCodeInput := ChainCodeInput r; CCEvents := CCEvents r |}.
Definition set_ChainCodeVersion (v : string) (r : BlockEventResponse) :=
  {| Error := Error r; IsVaild := IsVaild r; BlockHeight := BlockHeight r;
     TxIndex := TxIndex r; TxID := TxID r; ChannelName := ChannelName r;
     ChainCodeName := ChainCodeName r; ChainCodeVersion := v;
     Status := Status r; ChainCodeInput := ChainCodeInput r; CCEvents := CCEvents r |}.
Definition set_Status (v : Z) (r : BlockEventResponse) :=
  {| Error := Error r; IsVaild := IsVaild r; BlockHeight := BlockHeight r;
     TxIndex := TxIndex r; TxID := TxID r; ChannelName := ChannelName r;
     ChainCodeName := ChainCodeName r; ChainCodeVersion := ChainCodeVersion r;
     Status := v; ChainCodeInput := ChainCodeInput r; CCEvents := CCEvents r |}.
Definition set_ChainCodeInput (v : list bytes) (r : BlockEventResponse) :=
  {| Error := Error r; IsVaild := IsVaild r; BlockHeight := BlockHeight r;
     TxIndex := TxIndex r; TxID := TxID r; ChannelName := ChannelName r;
     ChainCodeName := ChainCodeName r; ChainCodeVersion := ChainCodeVersion r;
     Status := Status r; ChainCodeInput := v; CCEvents := CCEvents r |}.
Definition set_CCEvents (v : list CCEvent) (r : BlockEventResponse) :=
  {| Error := Error r; IsVaild := IsVaild r; BlockHeight := BlockHeight r;
     TxIndex := TxIndex r; TxID := TxID r; ChannelName := ChannelName r;
     ChainCodeName := ChainCodeName r; ChainCodeVersion := ChainCodeVersion r;
     Status := Status r; ChainCodeInput := ChainCodeInput r; CCEvents := v |}.

(** [BlockEventResponse{Error: err}] *)
Definition BlockEventResponse_Error (err : error) : BlockEventResponse :=
  set_Error err BlockEventResponse_zero.

(** ** DecodeEventBlock *)

Section Decoder.

Context {protos : Protos}.

Local Open Scope flow_scope.

(** [if err != nil { response.Error = err; return response }] *)
Definition return_on (err : option error) (response : BlockEventResponse)
  : flow BlockEventResponse unit :=
  match err with
  | Some e => Returns (set_Error e response)
  | None => Next tt
  end.

Definition DecodeEventBlock (pl : bytes) (blockNum : Z) (idx : Z)
           (metadata : list bytes) : outcome BlockEventResponse :=
  body (
    let response := BlockEventResponse_zero in
    let '(envelope, err) := proto_Unmarshal Envelope pl in
    _ <- return_on err response ;;
    let '(payload, err) := proto_Unmarshal Payload (Envelope_Payload envelope) in
    let response := match err with
                    | Some e => set_Error e response
                    | None => response
                    end in
    payload_Header <- deref (Payload_Header payload) ;;
    let '(header, err) :=
      proto_Unmarshal ChannelHeader (Header_ChannelHeader payload_Header) in
    _ <- return_on err response ;;
    let '(ex, err) :=
      proto_Unmarshal ChaincodeHeaderExtension (ChannelHeader_Extension header) in
    _ <- return_on err response ;;

    txsFltr <- eval (index metadata BlockMetadataIndex_TRANSACTIONS_FILTER) ;;
    valid <- eval (util.IsValid txsFltr idx) ;;
    let response := set_IsVaild valid response in
    let response := set_BlockHeight blockNum response in
    let response := set_TxIndex idx response in
    let response := set_TxID (ChannelHeader_TxId header) response in
    let response := set_ChannelName (ChannelHeader_ChannelId header) response in
    let response :=
      match ChaincodeHeaderExtension_ChaincodeId ex with
      | Some id => set_ChainCodeVersion (ChaincodeID_Version id)
                     (set_ChainCodeName (ChaincodeID_Name id) response)
      | None => response
      end in
    metadata_2 <- eval (index metadata 2) ;;
    status <- eval (index metadata_2 idx) ;;
    let response := set_Status (uint8 status) response in
    if ChannelHeader_Type header =? HeaderType_ENDORSER_TRANSACTION then
      let '(tx, err) := proto_Unmarshal Transaction (Payload_Data payload) in
      _ <- return_on err response ;;

      tx_Actions_0 <- eval (index (Transaction_Actions tx) 0) ;;
      let '(chainCodeActionPayload, err) :=
        proto_Unmarshal ChaincodeActionPayload
                        (TransactionAction_Payload tx_Actions_0) in
      _ <- return_on err response ;;

      let '(chaincodeProposalPayload, err) :=
        proto_Unmarshal ChaincodeProposalPayload
          (ChaincodeActionPayload_ChaincodeProposalPayload chainCodeActionPayload) in
      _ <- return_on err response ;;

      let '(chaincodeInvocationSpec, err) :=
        proto_Unmarshal ChaincodeInvocationSpec
          (ChaincodeProposalPayload_Input chaincodeProposalPayload) in
      _ <- return_on err response ;;
      (* [.Args] is a field read through the pointer that [GetInput] returns *)
      input <- deref (GetInput (GetChaincodeSpec chaincodeInvocationSpec)) ;;
      let response := set_ChainCodeInput (ChaincodeInput_Args input) response in

      action <- deref (ChaincodeActionPayload_Action chainCodeActionPayload) ;;
      let '(propRespPayload, err) :=
        proto_Unmarshal ProposalResponsePayload
          (ChaincodeEndorsedAction_ProposalResponsePayload action) in
      _ <- return_on err response ;;

      let '(caPayload, err) :=
        proto_Unmarshal ChaincodeAction
          (ProposalResponsePayload_Extension propRespPayload) in
      _ <- return_on err response ;;
      let '(ccEvent, err) :=
        proto_Unmarshal ChaincodeEvent (ChaincodeAction_Events caPayload) in
      _ <- return_on err response ;;
      (* [ccEvent] is the address of a fresh value: never nil *)
      Next (set_CCEvents
              (CCEvents response ++
               [{| EventName := ChaincodeEvent_EventName ccEvent;
                   EventPayload := ChaincodeEvent_Payload ccEvent |}])
              response)
    else
      Next response).

End Decoder.


(** ** The wire format

    An instance of [ProtoMessage] for each message the decoder unmarshals:
    the protocol-buffers wire format (base-128 varints, tagged fields),
    read in one pass as [proto.Unmarshal] does, so that a failure leaves the
    fields read before it in place.  Fields of a message that the program
    never reads are skipped by their wire type. *)

Module wire.

Local Open Scope N_scope.

Inductive value : Type :=
| Varint (x : N)
| Fixed64 (b : bytes)
| LengthDelimited (b : bytes)
| Group
| Fixed32 (b : bytes).

Definition errOverflow : error := errors_New "proto: integer overflow".
Definition errIllegalTag : error := errors_New "proto: illegal tag 0".
Definition errBadWireType : error := errors_New "proto: bad wiretype".

(** A varint of at most [n] bytes, least significant group first. *)
Fixpoint DecodeVarint_from (n : nat) (shift : N) (buf : bytes) : error + (N * bytes) :=
  match n with
  | O => inl errOverflow
  | S n' =>
    match buf with
    | [] => inl io_ErrUnexpectedEOF
    | b :: rest =>
      let v := Byte.to_N b in
      let x := N.shiftl (N.land v 127) shift in
      if v <? 128 then inr (x, rest)
      else match DecodeVarint_from n' (shift + 7) rest with
           | inr (y, rest') => inr (N.lor x y, rest')
           | inl e => inl e
           end
    end
  end.

Definition DecodeVarint (buf : bytes) : error + (N * bytes) :=
  match DecodeVarint_from 10 0 buf with
  | inr (x, rest) => inr (x mod 2 ^ 64, rest)
  | inl e => inl e
  end.

Definition take (n : N) (buf : bytes) : error + (bytes * bytes) :=
  if N.of_nat (List.length buf) <? n then inl io_ErrUnexpectedEOF
  else inr (firstn (N.to_nat n) buf, skipn (N.to_nat n) buf).

(** Past the end of the group that was entered: the fields up to the
    end-group tag that closes it are skipped, [depth] counting the groups
    entered on the way.  Whatever goes wrong, the group has no end. *)
Fixpoint find_end_group (fuel : nat) (depth : nat) (buf : bytes) : error + bytes :=
  match fuel with
  | O => inl io_ErrUnexpectedEOF
  | S fuel' =>
    match DecodeVarint buf with
    | inl _ => inl io_ErrUnexpectedEOF
    | inr (tag, rest) =>
      match tag mod 8 with
      | 0 => match DecodeVarint rest with
             | inr (_, rest') => find_end_group fuel' depth rest'
             | inl _ => inl io_ErrUnexpectedEOF
             end
      | 1 => match take 8 rest with
             | inr (_, rest') => find_end_group fuel' depth rest'
             | inl _ => inl io_ErrUnexpectedEOF
             end
      | 2 => match DecodeVarint rest with
             | inr (len, rest') =>
               match take len rest' with
               | inr (_, rest'') => find_end_group fuel' depth rest''
               | inl _ => inl io_ErrUnexpectedEOF
               end
             | inl _ => inl io_ErrUnexpectedEOF
             end
      | 3 => find_end_group fuel' (S depth) rest
      | 4 => match depth with
             | O => inr rest
             | S depth' => find_end_group fuel' depth' rest
             end
      | 5 => match take 4 rest with
             | inr (_, rest') => find_end_group fuel' depth rest'
             | inl _ => inl io_ErrUnexpectedEOF
             end
      | _ => inl io_ErrUnexpectedEOF
      end
    end
  end.

(** One field: its number, its value and the rest of the buffer. *)
Definition read_field (buf : bytes) : error + (N * value * bytes) :=
  match DecodeVarint buf with
  | inl e => inl e
  | inr (tag, rest) =>
    let num := tag / 8 in
    if num =? 0 then inl errIllegalTag
    else match tag mod 8 with
         | 0 => match DecodeVarint rest with
                | inr (x, rest') => inr (num, Varint x, rest')
                | inl e => inl e
                end
         | 1 => match take 8 rest with
                | inr (b, rest') => inr (num, Fixed64 b, rest')
                | inl e => inl e
                end
         | 2 => match DecodeVarint rest with
                | inr (len, rest') =>
                  match take len rest' with
                  | inr (b, rest'') => inr (num, LengthDelimited b, rest'')
                  | inl e => inl e
                  end
                | inl e => inl e
                end
         | 3 => match find_end_group (S (List.length rest)) 0 rest with
                | inr rest' => inr (num, Group, rest')
                | inl e => inl e
                end
         | 5 => match take 4 rest with
                | inr (b, rest') => inr (num, Fixed32 b, rest')
                | inl e => inl e
                end
         | _ => inl errBadWireType
         end
  end.

(** The decoding loop, merging the fields of [buf] into [m].  A field takes
    at least one byte, so [fuel] above the length of [buf] is never used up. *)
Fixpoint merge_fields {M : Type} (field : N -> value -> M -> M * option error)
         (fuel : nat) (buf : bytes) (m : M) : M * option error :=
  match buf with
  | [] => (m, None)
  | _ :: _ =>
    match fuel with
    | O => (m, Some io_ErrUnexpectedEOF)
    | S fuel' =>
      match read_field buf with
      | inl e => (m, Some e)
      | inr (num, v, rest) =>
        match field num v m with
        | (m', Some e) => (m', Some e)
        | (m', None) => merge_fields field fuel' rest m'
        end
      end
    end
  end.

Definition UnmarshalMerge {M : Type} (field : N -> value -> M -> M * option error)
           (buf : bytes) (m : M) : M * option error :=
  merge_fields field (S (List.length buf)) buf m.

(** [int32(x)] of a decoded varint. *)
Definition int32 (x : N) : Z :=
  let y := (Z.of_N x mod 2 ^ 32)%Z in
  if (y <? 2 ^ 31)%Z then y else (y - 2 ^ 32)%Z.

(** A field of type bytes or string. *)
Definition bytes_field {M : Type} (set : bytes -> M) (v : value) (m : M)
  : M * option error :=
  match v with
  | LengthDelimited b => (set b, None)
  | _ => (m, Some errBadWireType)
  end.

(** An embedded message: allocated when absent, then merged into. *)
Definition message_field {M S : Type} `{Zero S}
           (sub : N -> value -> S -> S * option error)
           (get : option S) (set : S -> M) (v : value) (m : M)
  : M * option error :=
  match v with
  | LengthDelimited b =>
    let '(s, err) := UnmarshalMerge sub b (match get with Some s => s | None => zero end) in
    (set s, err)
  | _ => (m, Some errBadWireType)
  end.

(** An element of a repeated message field, appended once decoded. *)
Definition repeated_message_field {M S : Type} `{Zero S}
           (sub : N -> value -> S -> S * option error)
           (append : S -> M) (v : value) (m : M) : M * option error :=
  match v with
  | LengthDelimited b =>
    match UnmarshalMerge sub b zero with
    | (s, None) => (append s, None)
    | (_, Some e) => (m, Some e)
    end
  | _ => (m, Some errBadWireType)
  end.

Definition Envelope_field (num : N) (v : value) (m : Envelope) :=
  match num with
  | 1 => bytes_field (fun b => {| Envelope_Payload := b |}) v m
  | _ => (m, None)
  end.

Definition Header_field (num : N) (v : value) (m : Header) :=
  match num with
  | 1 => bytes_field (fun b => {| Header_ChannelHeader := b |}) v m
  | _ => (m, None)
  end.

Definition Payload_field (num : N) (v : value) (m : Payload) :=
  match num with
  | 1 => message_field Header_field (Payload_Header m)
           (fun h => {| Payload_Header := Some h; Payload_Data := Payload_Data m |}) v m
  | 2 => bytes_field
           (fun b => {| Payload_Header := Payload_Header m; Payload_Data := b |}) v m
  | _ => (m, None)
  end.

(** [google.protobuf.Timestamp]: seconds and nanos, both varints.  The
    record of the channel header has no field for it: it is parsed and
    not kept. *)
Definition Timestamp_field (num : N) (v : value) (m : unit) : unit * option error :=
  match num with
  | 1 | 2 => match v with
             | Varint _ => (m, None)
             | _ => (m, Some errBadWireType)
             end
  | _ => (m, None)
  end.

Definition ChannelHeader_field (num : N) (v : value) (m : ChannelHeader) :=
  match num with
  | 1 => match v with
         | Varint x =>
           ({| ChannelHeader_Type := int32 x;
               ChannelHeader_ChannelId := ChannelHeader_ChannelId m;
               ChannelHeader_TxId := ChannelHeader_TxId m;
               ChannelHeader_Extension := ChannelHeader_Extension m |}, None)
         | _ => (m, Some errBadWireType)
         end
  | 3 => match v with
         | LengthDelimited b => (m, snd (UnmarshalMerge Timestamp_field b tt))
         | _ => (m, Some errBadWireType)
         end
  | 4 => bytes_field
           (fun b => {| ChannelHeader_Type := ChannelHeader_Type m;
                        ChannelHeader_ChannelId := string_of_list_byte b;
                        ChannelHeader_TxId := ChannelHeader_TxId m;
                        ChannelHeader_Extension := ChannelHeader_Extension m |}) v m
  | 5 => bytes_field
           (fun b => {| ChannelHeader_Type := ChannelHeader_Type m;
                        ChannelHeader_ChannelId := ChannelHeader_ChannelId m;
                        ChannelHeader_TxId := string_of_list_byte b;
                        ChannelHeader_Extension := ChannelHeader_Extension m |}) v m
  | 7 => bytes_field
           (fun b => {| ChannelHeader_Type := ChannelHeader_Type m;
                        ChannelHeader_ChannelId := ChannelHeader_ChannelId m;
                        ChannelHeader_TxId := ChannelHeader_TxId m;
                        ChannelHeader_Extension := b |}) v m
  | _ => (m, None)
  end.

Definition ChaincodeID_field (num : N) (v : value) (m : ChaincodeID) :=
  match num with
  | 2 => bytes_field
           (fun b => {| ChaincodeID_Name := string_of_list_byte b;
                        ChaincodeID_Version := ChaincodeID_Version m |}) v m
  | 3 => bytes_field
           (fun b => {| ChaincodeID_Name := ChaincodeID_Name m;
                        ChaincodeID_Version := string_of_list_byte b |}) v m
  | _ => (m, None)
  end.

Definition ChaincodeHeaderExtension_field (num : N) (v : value)
           (m : ChaincodeHeaderExtension) :=
  match num with
  | 2 => message_field ChaincodeID_field
           (ChaincodeHeaderExtension_ChaincodeId m)
           (fun c => {| ChaincodeHeaderExtension_ChaincodeId := Some c |}) v m
  | _ => (m, None)
  end.

Definition TransactionAction_field (num : N) (v : value) (m : TransactionAction) :=
  match num with
  | 2 => bytes_field (fun b => {| TransactionAction_Payload := b |}) v m
  | _ => (m, None)
  end.

Definition Transaction_field (num : N) (v : value) (m : Transaction) :=
  match num with
  | 1 => repeated_message_field TransactionAction_field
           (fun a => {| Transaction_Actions := Transaction_Actions m ++ [a] |}) v m
  | _ => (m, None)
  end.

Definition ChaincodeEndorsedAction_field (num : N) (v : value)
           (m : ChaincodeEndorsedAction) :=
  match num with
  | 1 => bytes_field
           (fun b => {| ChaincodeEndorsedAction_ProposalResponsePayload := b |}) v m
  | _ => (m, None)
  end.

Definition ChaincodeActionPayload_field (num : N) (v : value)
           (m : ChaincodeActionPayload) :=
  match num with
  | 1 => bytes_field
           (fun b => {| ChaincodeActionPayload_ChaincodeProposalPayload := b;
                        ChaincodeActionPayload_Action :=
                          ChaincodeActionPayload_Action m |}) v m
  | 2 => message_field ChaincodeEndorsedAction_field
           (ChaincodeActionPayload_Action m)
           (fun a => {| ChaincodeActionPayload_ChaincodeProposalPayload :=
                          ChaincodeActionPayload_ChaincodeProposalPayload m;
                        ChaincodeActionPayload_Action := Some a |}) v m
  | _ => (m, None)
  end.

Definition ChaincodeProposalPayload_field (num : N) (v : value)
           (m : ChaincodeProposalPayload) :=
  match num with
  | 1 => bytes_field (fun b => {| ChaincodeProposalPayload_Input := b |}) v m
  | _ => (m, None)
  end.

Definition ChaincodeInput_field (num : N) (v : value) (m : ChaincodeInput) :=
  match num with
  | 1 => bytes_field
           (fun b => {| ChaincodeInput_Args := ChaincodeInput_Args m ++ [b] |}) v m
  | _ => (m, None)
  end.

Definition ChaincodeSpec_field (num : N) (v : value) (m : ChaincodeSpec) :=
  match num with
  | 3 => message_field ChaincodeInput_field (ChaincodeSpec_Input m)
           (fun i => {| ChaincodeSpec_Input := Some i |}) v m
  | _ => (m, None)
  end.

Definition ChaincodeInvocationSpec_field (num : N) (v : value)
           (m : ChaincodeInvocationSpec) :=
  match num with
  | 1 => message_field ChaincodeSpec_field
           (ChaincodeInvocationSpec_ChaincodeSpec m)
           (fun s => {| ChaincodeInvocationSpec_ChaincodeSpec := Some s |}) v m
  | _ => (m, None)
  end.

Definition ProposalResponsePayload_field (num : N) (v : value)
           (m : ProposalResponsePayload) :=
  match num with
  | 2 => bytes_field (fun b => {| ProposalResponsePayload_Extension := b |}) v m
  | _ => (m, None)
  end.

Definition ChaincodeAction_field (num : N) (v : value) (m : ChaincodeAction) :=
  match num with
  | 2 => bytes_field (fun b => {| ChaincodeAction_Events := b |}) v m
  | _ => (m, None)
  end.

Definition ChaincodeEvent_field (num : N) (v : value) (m : ChaincodeEvent) :=
  match num with
  | 3 => bytes_field
           (fun b => {| ChaincodeEvent_EventName := string_of_list_byte b;
                        ChaincodeEvent_Payload := ChaincodeEvent_Payload m |}) v m
  | 4 => bytes_field
           (fun b => {| ChaincodeEvent_EventName := ChaincodeEvent_EventName m;
                        ChaincodeEvent_Payload := b |}) v m
  | _ => (m, None)
  end.

(** [proto.Unmarshal]: reset, then merge. *)
Definition message {M : Type} `{Zero M} (field : N -> value -> M -> M * option error)
  : ProtoMessage M :=
  {| proto_Unmarshal := fun buf => UnmarshalMerge field buf zero;
     proto_Unmarshal_nil := eq_refl |}.

Definition protos : Protos :=
  {| PM_Envelope := message Envelope_field;
     PM_Payload := message Payload_field;
     PM_ChannelHeader := message ChannelHeader_field;
     PM_ChaincodeHeaderExtension := message ChaincodeHeaderExtension_field;
     PM_Transaction := message Transaction_field;
     PM_ChaincodeActionPayload := message ChaincodeActionPayload_field;
     PM_ChaincodeProposalPayload := message ChaincodeProposalPayload_field;
     PM_ChaincodeInvocationSpec := message ChaincodeInvocationSpec_field;
     PM_ProposalResponsePayload := message ProposalResponsePayload_field;
     PM_ChaincodeAction := message ChaincodeAction_field;
     PM_ChaincodeEvent := message ChaincodeEvent_field |}.

End wire.


(** ** The event hub *)

(** [proto.Marshal(pb)]: the serialized message, and the error. *)
Class ProtoMarshal (M : Type) : Type := {
  proto_Marshal : M -> bytes * option error
}.

(** The messages that [register] marshals. *)
Class Marshals : Type := {
  PM_SerializedIdentity :: ProtoMarshal SerializedIdentity;
  PM_Event :: ProtoMarshal Event
}.

Module pem.

Record Block := { Block_Type : string; Block_Bytes : bytes }.

Local Open Scope N_scope.

Definition alphabet : bytes :=
  list_byte_of_string
    "ABCDEFGHIJKLMNOPQRSTUVWXYZabcdefghijklmnopqrstuvwxyz0123456789+/".

Definition digit (n : N) : byte := nth (N.to_nat n) alphabet "="%byte.

(** Standard base64, padded. *)
Fixpoint base64 (src : bytes) : bytes :=
  match src with
  | [] => []
  | [a] =>
    let x := Byte.to_N a in
    [digit (x / 4); digit (x mod 4 * 16); "="%byte; "="%byte]
  | [a; b] =>
    let x := Byte.to_N a in
    let y := Byte.to_N b in
    [digit (x / 4); digit (x mod 4 * 16 + y / 16); digit (y mod 16 * 4); "="%byte]
  | a :: b :: c :: rest =>
    let x := Byte.to_N a in
    let y := Byte.to_N b in
    let z := Byte.to_N c in
    digit (x / 4) :: digit (x mod 4 * 16 + y / 16)
          :: digit (y mod 16 * 4 + z / 64) :: digit (z mod 64) :: base64 rest
  end.

(** Lines of 64 characters, each ended by a line feed. *)
Fixpoint break_lines (fuel : nat) (b : bytes) : bytes :=
  match fuel, b with
  | O, _ => []
  | _, [] => []
  | S fuel', _ :: _ => firstn 64 b ++ [x0a] ++ break_lines fuel' (skipn 64 b)
  end.

(** [pem.EncodeToMemory] of a block without headers. *)
Definition EncodeToMemory (b : Block) : bytes :=
  let body := base64 (Block_Bytes b) in
  list_byte_of_string "-----BEGIN " ++ list_byte_of_string (Block_Type b) ++
  list_byte_of_string "-----" ++ [x0a] ++
  break_lines (List.length body) body ++
  list_byte_of_string "-----END " ++ list_byte_of_string (Block_Type b) ++
  list_byte_of_string "-----" ++ [x0a].

End pem.

Module x509.
Record Certificate := { Certificate_Raw : bytes }.
End x509.

Module grpc.
Inductive CallOption :=
| MaxCallRecvMsgSize (n : Z)
| MaxCallSendMsgSize (n : Z).
Inductive DialOption :=
| WithBlock
| WithTimeout (nanoseconds : Z)
| WithDefaultCallOptions (cos : list CallOption)
| WithOther (name : string).
(** A dialled connection and the event stream opened on it. *)
Record ClientConn := { ClientConn_target : string }.
End grpc.

Definition GRPC_MAX_SIZE : Z := 100 * 1024 * 1024.

Definition time_Second : Z := 1000000000.

(** The peer to subscribe to: its address and dial options. *)
Record Peer := {
  Uri : string;
  Opts : list grpc.DialOption }.

(** [peer.Events_ChatClient]: the stream handle.  What [Send] answers is
    part of it; what [Recv] yields is given to [readBlock] as the list of
    the results of its successive calls. *)
Record Events_ChatClient := {
  Send : SignedEvent -> option error }.

Inductive recv : Type :=
| Recv_ok (in_ : Event)
| Recv_err (err : error).

Record eventHub := {
  connection : option grpc.ClientConn;
  client : option Events_ChatClient }.

(** What the remote side does: the outcome of dialling an address, of
    opening the chat stream on a connection, and the stream so opened. *)
Record network := {
  grpc_Dial : string -> list grpc.DialOption -> option error;
  Events_Chat : grpc.ClientConn -> option error;
  chat_client : grpc.ClientConn -> Events_ChatClient }.

Section Hub.

(** The private key is an [interface{}] to the program. *)
Variable PrivateKey : Type.

(** The caller's identity, as far as [register] reads it; the identity
    and its certificate are taken to be there (not nil). *)
Record Identity := {
  Certificate : x509.Certificate;
  Identity_PrivateKey : PrivateKey }.

(** The [CryptoSuite] interface, as far as the hub uses it. *)
Class CryptoSuite : Type := {
  Sign : bytes -> PrivateKey -> bytes * option error
}.

(** What a run does to the outside, in order. *)
Inductive effect : Type :=
| Dial (target : string) (opts : list grpc.DialOption)
| Chat (conn : grpc.ClientConn)
| SignCall (msg : bytes) (k : PrivateKey)
| ClientSend (ev : SignedEvent)
| CloseSend
| ConnectionClose
| ChanSend (r : BlockEventResponse)
| Go_readBlock (e : eventHub).

(** Statements with effects: the effects so far, and how control goes on. *)
Definition act (R A : Type) : Type := list effect * flow R A.

Definition act_bind {R A B : Type} (c : act R A) (k : A -> act R B) : act R B :=
  match c with
  | (t, Next a) => let '(t', f) := k a in (t ++ t', f)
  | (t, Returns r) => (t, Returns r)
  | (t, Panics p) => (t, Panics p)
  end.

Definition emit {R : Type} (ef : effect) : act R unit := ([ef], Next tt).
Definition pure {R A : Type} (f : flow R A) : act R A := ([], f).

(** [if err != nil { return err }] *)
Definition return_err (err : option error) : act (option error) unit :=
  match err with
  | Some e => pure (Returns (Some e))
  | None => pure (Next tt)
  end.

Definition act_body {R : Type} (c : act R R) : list effect * outcome R :=
  (fst c, body (snd c)).

Declare Scope act_scope.
Delimit Scope act_scope with act.
Notation "x <- c ;; k" := (act_bind c (fun x => k))
  (at level 61, c at next level, right associativity) : act_scope.
Notation "' p <- c ;; k" := (act_bind c (fun x => let 'p := x in k))
  (at level 61, p pattern, c at next level, right associativity) : act_scope.

Context {crypto : CryptoSuite} {marshals : Marshals} {protos : Protos}.

Variable pem_EncodeToMemory : pem.Block -> bytes.
Variable net : network.

Local Open Scope act_scope.

(** [connect] assigns to the hub and appends to the peer's options: it
    yields both with its error.  The hub and the peer are taken to be
    there: on a nil receiver or a nil peer the function panics before it
    does anything. *)
Definition connect (e : eventHub) (p : Peer)
  : list effect * outcome (eventHub * Peer * option error) :=
  act_body (
    let p := {| Uri := Uri p;
                Opts := Opts p ++
                  [grpc.WithBlock; grpc.WithTimeout (5 * time_Second);
                   grpc.WithDefaultCallOptions
                     [grpc.MaxCallRecvMsgSize GRPC_MAX_SIZE;
                      grpc.MaxCallSendMsgSize GRPC_MAX_SIZE]] |} in
    _ <- emit (Dial (Uri p) (Opts p)) ;;
    match grpc_Dial net (Uri p) (Opts p) with
    | Some err => pure (Returns (e, p, Some err))
    | None =>
      let conn := {| grpc.ClientConn_target := Uri p |} in
      let e := {| connection := Some conn; client := client e |} in
      _ <- emit (Chat conn) ;;
      match Events_Chat net conn with
      | Some err => pure (Returns (e, p, Some err))
      | None =>
        let e := {| connection := connection e;
                    client := Some (chat_client net conn) |} in
        pure (Returns (e, p, None))
      end
    end).

Definition register (e : eventHub) (mspId : string) (identity : Identity)
  : list effect * outcome (option error) :=
  act_body (
    let '(creator, err) :=
      proto_Marshal
        {| SerializedIdentity_Mspid := mspId;
           SerializedIdentity_IdBytes :=
             pem_EncodeToMemory
               {| pem.Block_Type := "CERTIFICATE";
                  pem.Block_Bytes := x509.Certificate_Raw (Certificate identity) |} |} in
    _ <- return_err err ;;

    let interest :=
      {| Event_Event :=
           Some (Event_Register
                   (Some {| Register_Events :=
                              [{| Interest_EventType := EventType_BLOCK |}] |}));
         Event_Creator := creator |} in
    let '(evtBytes, err) := proto_Marshal interest in
    _ <- return_err err ;;

    _ <- emit (SignCall evtBytes (Identity_PrivateKey identity)) ;;
    let '(sb, err) := Sign evtBytes (Identity_PrivateKey identity) in
    _ <- return_err err ;;
    let sigEvent := {| SignedEvent_EventBytes := evtBytes;
                       SignedEvent_Signature := sb |} in
    e_client <- pure (deref (client e)) ;;
    _ <- emit (ClientSend sigEvent) ;;
    _ <- return_err (Send e_client sigEvent) ;;
    pure (Returns None)).

Definition disconnect {R : Type} (e : eventHub) : act R unit :=
  _ <- pure (deref (client e)) ;;
  _ <- emit CloseSend ;;
  _ <- pure (deref (connection e)) ;;
  emit ConnectionClose.

(** The [for i, bd := range ...Data.Data] loop of [readBlock], from index
    [i] on. *)
Fixpoint deliver (in_ : Event) (meta : list bytes) (i : Z) (data : list bytes)
  : act unit unit :=
  match data with
  | [] => pure (Next tt)
  | bd :: data' =>
    header <- pure (deref (GetHeader (GetBlock in_))) ;;
    r <- pure (eval (DecodeEventBlock bd (BlockHeader_Number header) i meta)) ;;
    _ <- emit (ChanSend r) ;;
    deliver in_ meta (i + 1) data'
  end.

(** One turn of the [for] loop of [readBlock], on what [Recv] yielded:
    [Next] goes round again, [Returns] leaves the function. *)
Definition readBlock_turn (e : eventHub) (received : recv) : act unit unit :=
  match received with
  | Recv_err err =>
    if error_eqb err io_EOF then
      _ <- disconnect e ;;
      pure (Returns tt)
    else
      _ <- emit (ChanSend (BlockEventResponse_Error err)) ;;
      _ <- disconnect e ;;
      pure (Returns tt)
  | Recv_ok in_ =>
    match Event_Event in_ with
    | Some (Event_Block _) =>
      block <- pure (deref (GetBlock in_)) ;;
      block_Metadata <- pure (deref (Block_Metadata block)) ;;
      let meta := BlockMetadata_Metadata block_Metadata in
      block <- pure (deref (GetBlock in_)) ;;
      block_Data <- pure (deref (Block_Data block)) ;;
      deliver in_ meta 0 (BlockData_Data block_Data)
    | _ => pure (Next tt)
    end
  end.

(** How far a reader has got on the input it was given. *)
Inductive reader : Type :=
| Receiving
| Returned
| Crashed (p : panic).

(** [readBlock] on the results of the successive calls of [e.client.Recv()];
    when they are used up the reader waits in [Recv]. *)
Fixpoint readBlock (e : eventHub) (stream : list recv) : list effect * reader :=
  match client e with
  | None => ([], Crashed nil_dereference)
  | Some _ =>
    match stream with
    | [] => ([], Receiving)
    | received :: stream' =>
      match readBlock_turn e received with
      | (t, Next _) => let '(t', s) := readBlock e stream' in (t ++ t', s)
      | (t, Returns _) => (t, Returned)
      | (t, Panics p) => (t, Crashed p)
      end
    end
  end.

Definition newEventListener (p : Peer) (identity : Identity) (mspId : string)
  : list effect * outcome (option error) :=
  act_body (
    let hub := {| connection := None; client := None |} in
    '(hub, p, err) <- (let '(t, o) := connect hub p in (t, eval o)) ;;
    _ <- return_err err ;;
    err <- (let '(t, o) := register hub mspId identity in (t, eval o)) ;;
    _ <- return_err err ;;
    _ <- emit (Go_readBlock hub) ;;
    pure (Returns None)).

(** The records that reach the response channel. *)
Definition sent (t : list effect) : list BlockEventResponse :=
  flat_map (fun ef => match ef with ChanSend r => [r] | _ => [] end) t.

(** What the goroutines started in [t] do when the stream yields [stream]. *)
Definition goroutines (t : list effect) (stream : list recv) : list effect :=
  flat_map (fun ef => match ef with
                      | Go_readBlock e => fst (readBlock e stream)
                      | _ => []
                      end) t.

End Hub.

Arguments Certificate {PrivateKey} i.
Arguments Identity_PrivateKey {PrivateKey} i.
Arguments Sign {PrivateKey CryptoSuite} msg k.
Arguments Dial {PrivateKey} target opts.
Arguments Chat {PrivateKey} conn.
Arguments SignCall {PrivateKey} msg k.
Arguments ClientSend {PrivateKey} ev.
Arguments CloseSend {PrivateKey}.
Arguments ConnectionClose {PrivateKey}.
Arguments ChanSend {PrivateKey} r.
Arguments Go_readBlock {PrivateKey} e.
Arguments connect {PrivateKey} net e p.
Arguments register {PrivateKey crypto marshals} pem_EncodeToMemory e mspId identity.
Arguments disconnect {PrivateKey R} e.
Arguments readBlock {PrivateKey protos} e stream.
Arguments newEventListener {PrivateKey crypto marshals} pem_EncodeToMemory net
  p identity mspId.
Arguments sent {PrivateKey} t.
Arguments goroutines {PrivateKey protos} t stream.

(** ** Serialization

    The writing side of the wire format, for the two messages that
    [register] marshals and for building the byte strings that the decoder
    is run on. *)

Module encode.

Local Open Scope N_scope.

Definition byte_of (n : N) : byte :=
  match Byte.of_N n with
  | Some b => b
  | None => x00
  end.

(** Base-128, least significant group first; ten groups hold 64 bits. *)
Fixpoint varint_groups (n : nat) (x : N) : bytes :=
  match n with
  | O => []
  | S n' =>
    if x <? 128 then [byte_of x]
    else byte_of (128 + x mod 128) :: varint_groups n' (x / 128)
  end.

Definition EncodeVarint (x : N) : bytes := varint_groups 10 x.

Definition varint_field (num x : N) : bytes :=
  EncodeVarint (num * 8) ++ EncodeVarint x.

Definition bytes_field (num : N) (b : bytes) : bytes :=
  EncodeVarint (num * 8 + 2) ++ EncodeVarint (N.of_nat (List.length b)) ++ b.

Definition string_field (num : N) (s : string) : bytes :=
  bytes_field num (list_byte_of_string s).

(** Proto3 leaves out a field that holds its zero value. *)
Definition opt_bytes_field (num : N) (b : bytes) : bytes :=
  match b with
  | [] => []
  | _ => bytes_field num b
  end.

Definition SerializedIdentity_bytes (m : SerializedIdentity) : bytes :=
  opt_bytes_field 1 (list_byte_of_string (SerializedIdentity_Mspid m)) ++
  opt_bytes_field 2 (SerializedIdentity_IdBytes m).

Definition EventType_number (t : EventType) : N :=
  match t with
  | EventType_REGISTER => 0
  | EventType_BLOCK => 1
  | EventType_CHAINCODE => 2
  | EventType_REJECTION => 3
  end.

Definition Interest_bytes (m : Interest) : bytes :=
  match EventType_number (Interest_EventType m) with
  | 0 => []
  | n => varint_field 1 n
  end.

Definition Register_bytes (m : Register) : bytes :=
  flat_map (fun i => bytes_field 1 (Interest_bytes i)) (Register_Events m).

(** The registration request: only the register arm of the one-of is ever
    marshalled by the program; the other arms are written empty. *)
Definition Event_bytes (m : Event) : bytes :=
  opt_bytes_field 6 (Event_Creator m) ++
  match Event_Event m with
  | Some (Event_Register (Some r)) => bytes_field 1 (Register_bytes r)
  | Some (Event_Register None) => bytes_field 1 []
  | Some (Event_Block _) => bytes_field 2 []
  | Some Event_ChaincodeEvent => bytes_field 3 []
  | Some Event_Rejection => bytes_field 4 []
  | Some Event_Unregister => bytes_field 5 []
  | None => []
  end.

Definition marshals : Marshals :=
  {| PM_SerializedIdentity :=
       {| proto_Marshal := fun m => (SerializedIdentity_bytes m, None) |};
     PM_Event := {| proto_Marshal := fun m => (Event_bytes m, None) |} |}.

End encode.


(** ** The stages of the decoder

    Which stage an input fails at, told from the unmarshalling results
    alone: the vocabulary of the properties below. *)

Inductive staged (A : Type) : Type :=
| Fault
| Failed (e : error)
| Done (a : A).
Arguments Fault {A}.
Arguments Failed {A} e.
Arguments Done {A} a.

Section Stages.

Context {protos : Protos}.

(** The error of stage 2, which does not stop the decoder. *)
Definition payload_error (pl : bytes) : option error :=
  match proto_Unmarshal Envelope pl with
  | (envelope, None) => snd (proto_Unmarshal Payload (Envelope_Payload envelope))
  | (_, Some _) => None
  end.

(** Stages 1 to 4.  [Failed e]: the envelope, the channel header or the
    header extension does not parse; [Fault]: the payload, parsed or not,
    carries no header; [Done]: what stage 5 works on. *)
Definition header_stages (pl : bytes)
  : staged (Payload * ChannelHeader * ChaincodeHeaderExtension) :=
  match proto_Unmarshal Envelope pl with
  | (_, Some e) => Failed e
  | (envelope, None) =>
    let payload := fst (proto_Unmarshal Payload (Envelope_Payload envelope)) in
    match Payload_Header payload with
    | None => Fault
    | Some h =>
      match proto_Unmarshal ChannelHeader (Header_ChannelHeader h) with
      | (_, Some e) => Failed e
      | (header, None) =>
        match proto_Unmarshal ChaincodeHeaderExtension
                              (ChannelHeader_Extension header) with
        | (_, Some e) => Failed e
        | (ex, None) => Done (payload, header, ex)
        end
      end
    end
  end.

(** The chain of stage 6 on a payload, in the order of the code.
    [Failed e]: the first message that does not parse; [Fault]: the
    transaction has no action, the invocation spec no chaincode spec or no
    input to read the arguments of, or the action payload no endorsed
    action. *)
Definition endorser_stages (payload : Payload)
  : staged (ChaincodeInvocationSpec * ChaincodeAction * ChaincodeEvent) :=
  match proto_Unmarshal Transaction (Payload_Data payload) with
  | (_, Some e) => Failed e
  | (tx, None) =>
    match Transaction_Actions tx with
    | [] => Fault
    | a :: _ =>
      match proto_Unmarshal ChaincodeActionPayload (TransactionAction_Payload a) with
      | (_, Some e) => Failed e
      | (cap, None) =>
        match proto_Unmarshal ChaincodeProposalPayload
                (ChaincodeActionPayload_ChaincodeProposalPayload cap) with
        | (_, Some e) => Failed e
        | (cpp, None) =>
          match proto_Unmarshal ChaincodeInvocationSpec
                  (ChaincodeProposalPayload_Input cpp) with
          | (_, Some e) => Failed e
          | (cis, None) =>
            match GetInput (GetChaincodeSpec cis) with
            | None => Fault
            | Some _ =>
              match ChaincodeActionPayload_Action cap with
              | None => Fault
              | Some act =>
                match proto_Unmarshal ProposalResponsePayload
                        (ChaincodeEndorsedAction_ProposalResponsePayload act) with
                | (_, Some e) => Failed e
                | (prp, None) =>
                  match proto_Unmarshal ChaincodeAction
                          (ProposalResponsePayload_Extension prp) with
                  | (_, Some e) => Failed e
                  | (ca, None) =>
                    match proto_Unmarshal ChaincodeEvent
                            (ChaincodeAction_Events ca) with
                    | (_, Some e) => Failed e
                    | (ev, None) => Done (cis, ca, ev)
                    end
                  end
                end
              end
            end
          end
        end
      end
    end
  end.

(** The validation-flag byte of transaction [idx], when the metadata has
    the flags array and the array covers [idx]. *)
Definition validation_flag (metadata : list bytes) (idx : Z) : option byte :=
  match nth_error metadata (Z.to_nat BlockMetadataIndex_TRANSACTIONS_FILTER) with
  | Some flags => if idx <? 0 then None else nth_error flags (Z.to_nat idx)
  | None => None
  end.

End Stages.

(** ** The transaction entries of a stream *)

Fixpoint indexed_from {A : Type} (i : Z) (l : list A) : list (Z * A) :=
  match l with
  | [] => []
  | x :: l' => (i, x) :: indexed_from (i + 1) l'
  end.

(** The data entries of a block message with their positions; other
    messages have none. *)
Definition event_entries (in_ : Event) : list (Block * Z * bytes) :=
  match Event_Event in_ with
  | Some (Event_Block (Some b)) =>
    match Block_Data b with
    | Some d => map (fun x => (b, fst x, snd x)) (indexed_from 0 (BlockData_Data d))
    | None => []
    end
  | _ => []
  end.

(** All of them, blocks in arrival order. *)
Definition stream_entries (ins : list Event) : list (Block * Z * bytes) :=
  flat_map event_entries ins.

Section Entries.

Context {protos : Protos}.

(** The record [r] is what the decoder returns for a data entry, at the
    number of the entry's block and at the entry's position; it carries
    that number and position unless it is the error-only record of an
    outer-stage failure. *)
Definition decoded_entry (r : BlockEventResponse) (x : Block * Z * bytes) : Prop :=
  let '(b, i, bd) := x in
  exists h m,
    Block_Header b = Some h /\ Block_Metadata b = Some m /\
    DecodeEventBlock bd (BlockHeader_Number h) i (BlockMetadata_Metadata m) = Return r /\
    ((exists e, header_stages bd = Failed e /\ r = BlockEventResponse_Error e) \/
     (BlockHeight r = BlockHeader_Number h /\ TxIndex r = i)).

(** An entry that the decoder returns a record for. *)
Definition decodes (x : Block * Z * bytes) : Prop :=
  exists r, decoded_entry r x.

End Entries.

(** A message that the reader can walk: if it is a block message, the
    block, its data and its metadata are there. *)
Definition walkable (in_ : Event) : Prop :=
  match Event_Event in_ with
  | Some (Event_Block ob) =>
    exists b, ob = Some b /\ Block_Data b <> None /\ Block_Metadata b <> None
  | _ => True
  end.

(** [new(eventHub)] *)
Definition eventHub_zero : eventHub := {| connection := None; client := None |}.

(** ** Sample inputs *)

Module sample.

Import encode.

Definition text (s : string) : bytes := list_byte_of_string s.

(** One endorser transaction on channel mychannel: chaincode mycc 1.0 called
    with a, b, 20, emitting event1 with payload hello. *)
Definition ccEvent : bytes := string_field 3 "event1" ++ bytes_field 4 (text "hello").
Definition chaincodeAction : bytes := bytes_field 2 ccEvent.
Definition endorsedAction : bytes := bytes_field 1 (bytes_field 2 chaincodeAction).
Definition input : bytes :=
  bytes_field 1 (text "a") ++ bytes_field 1 (text "b") ++ bytes_field 1 (text "20").
Definition invocationSpec : bytes := bytes_field 1 (bytes_field 3 input).
Definition extension : bytes :=
  bytes_field 2 (string_field 2 "mycc" ++ string_field 3 "1.0").
Definition channelHeader : bytes :=
  varint_field 1 3 ++ string_field 4 "mychannel" ++ string_field 5 "tx1" ++
  bytes_field 7 extension.

(** The envelope around a channel header and an invocation spec. *)
Definition envelope_of (spec endorsed : bytes) : bytes :=
  let actionPayload := bytes_field 1 (bytes_field 1 spec) ++ bytes_field 2 endorsed in
  let transaction := bytes_field 1 (bytes_field 2 actionPayload) in
  bytes_field 1 (bytes_field 1 (bytes_field 1 channelHeader) ++
                 bytes_field 2 transaction).

Definition endorser_envelope : bytes := envelope_of invocationSpec endorsedAction.

(** The same with an invocation spec that is cut off in its first tag. *)
Definition bad_spec_envelope : bytes := envelope_of [xff] endorsedAction.

(** The same with an empty invocation spec: it parses, and has no
    chaincode spec. *)
Definition no_input_envelope : bytes := envelope_of [] endorsedAction.

(** The same transaction with no event set by the chaincode. *)
Definition no_event_envelope : bytes :=
  envelope_of invocationSpec (bytes_field 1 (bytes_field 2 [])).

(** An endorser transaction (header type 3) whose payload has no data: the
    transaction decodes with zero actions. *)
Definition zero_actions_envelope : bytes :=
  [x0a; x06; x0a; x04; x0a; x02; x08; x03].

(** An envelope whose payload is the single byte ff, a tag cut off. *)
Definition bad_payload_envelope : bytes := [x0a; x01; xff].

(** Not an envelope: a tag cut off. *)
Definition corrupt_envelope : bytes := [xff].

(** The valid transaction with a cut-off tag after the data of its
    payload: the payload fails to parse and keeps its header and data. *)
Definition trailing_payload_envelope : bytes :=
  let actionPayload :=
    bytes_field 1 (bytes_field 1 invocationSpec) ++ bytes_field 2 endorsedAction in
  let transaction := bytes_field 1 (bytes_field 2 actionPayload) in
  bytes_field 1 (bytes_field 1 (bytes_field 1 channelHeader) ++
                 bytes_field 2 transaction ++ [xff]).

(** Block metadata: signatures, last configuration, and the validation
    flags of one valid transaction. *)
Definition metadata : list bytes := [[]; []; [x00]].

Definition block (number : Z) (data : list bytes) (flags : bytes) : Block :=
  {| Block_Header := Some {| BlockHeader_Number := number |};
     Block_Data := Some {| BlockData_Data := data |};
     Block_Metadata := Some {| BlockMetadata_Metadata := [[]; []; flags] |} |}.

Definition block_event (b : Block) : Event :=
  {| Event_Event := Some (Event_Block (Some b)); Event_Creator := [] |}.

(** Block 7 with one valid transaction. *)
Definition one_block : Event :=
  block_event (block 7 [endorser_envelope] [x00]).

(** Block 7 with a valid transaction and an entry that is no envelope. *)
Definition mixed_block : Event :=
  block_event (block 7 [endorser_envelope; corrupt_envelope] [x00; x00]).

(** Block 7 with a transaction of zero actions before a valid one. *)
Definition faulting_block : Event :=
  block_event (block 7 [zero_actions_envelope; endorser_envelope] [x00; x00]).

Definition hub : eventHub :=
  {| connection := Some {| grpc.ClientConn_target := "peer0:7053" |};
     client := Some {| Send := fun _ => None |} |}.

(** A peer that answers, and an address that nothing answers at. *)
Definition reachable : network :=
  {| grpc_Dial := fun _ _ => None;
     Events_Chat := fun _ => None;
     chat_client := fun _ => {| Send := fun _ => None |} |}.

Definition unreachable : network :=
  {| grpc_Dial := fun _ _ => Some (errors_New "context deadline exceeded");
     Events_Chat := fun _ => None;
     chat_client := fun _ => {| Send := fun _ => None |} |}.

(** A peer that accepts the connection and refuses the registration. *)
Definition refusing : network :=
  {| grpc_Dial := fun _ _ => None;
     Events_Chat := fun _ => None;
     chat_client := fun _ =>
       {| Send := fun _ => Some (errors_New "transport is closing") |} |}.

Definition peer0 : Peer := {| Uri := "peer0:7053"; Opts := [] |}.

(** A stand-in for a signature scheme, keyed by a byte string: the hub
    hands the signature on and never looks into it. *)
Definition crypto : CryptoSuite bytes :=
  {| Sign := fun msg k =>
       let sum := fold_left (fun acc b => ((acc + Byte.to_N b) mod 256)%N) msg 0%N in
       (map (fun b => byte_of (N.lxor (Byte.to_N b) sum)) k, None) |}.

Definition identity : Identity bytes :=
  {| Certificate := {| x509.Certificate_Raw := text "certificate" |};
     Identity_PrivateKey := [x01; x02; x03; x04] |}.

(** The registration request of that identity for Org1MSP, serialized. *)
Definition request : bytes :=
  Event_bytes
    {| Event_Event :=
         Some (Event_Register
                 (Some {| Register_Events :=
                            [{| Interest_EventType := EventType_BLOCK |}] |}));
       Event_Creator :=
         SerializedIdentity_bytes
           {| SerializedIdentity_Mspid := "Org1MSP";
              SerializedIdentity_IdBytes :=
                pem.EncodeToMemory
                  {| pem.Block_Type := "CERTIFICATE";
                     pem.Block_Bytes := text "certificate" |} |} |}.

End sample.

(** The identification fields as stage 5 sets them, from the block height
    and position, the channel header, the header extension and the
    transaction's validation-flag byte. *)
Definition identified (r : BlockEventResponse) (blockNum idx : Z)
           (header : ChannelHeader) (ex : ChaincodeHeaderExtension) (flag : byte)
  : Prop :=
  BlockHeight r = blockNum /\
  TxIndex r = idx /\
  TxID r = ChannelHeader_TxId header /\
  ChannelName r = ChannelHeader_ChannelId header /\
  (forall id, ChaincodeHeaderExtension_ChaincodeId ex = Some id ->
              ChainCodeName r = ChaincodeID_Name id /\
              ChainCodeVersion r = ChaincodeID_Version id) /\
  Status r = uint8 flag /\
  IsVaild r = (uint8 flag =? TxValidationCode_VALID).

(** A trace of sends on the response channel and nothing else. *)
Definition only_sends {PrivateKey : Type} (t : list (effect PrivateKey)) : Prop :=
  Forall (fun ef => exists r, ef = ChanSend r) t.

(** The dial options that [connect] appends to the peer's. *)
Definition connect_options : list grpc.DialOption :=
  [grpc.WithBlock; grpc.WithTimeout (5 * time_Second);
   grpc.WithDefaultCallOptions
     [grpc.MaxCallRecvMsgSize GRPC_MAX_SIZE;
      grpc.MaxCallSendMsgSize GRPC_MAX_SIZE]].

(** ** The stage of the invocation arguments *)

Section InputStages.

Context {protos : Protos}.

(** The first half of stage 6 on a payload, up to the invocation spec.
    [Failed e]: the first of the transaction, the action payload, the
    proposal payload and the invocation spec that does not parse;
    [Fault]: the transaction has no action. *)
Definition input_stages (payload : Payload)
  : staged (ChaincodeActionPayload * ChaincodeInvocationSpec) :=
  match proto_Unmarshal Transaction (Payload_Data payload) with
  | (_, Some e) => Failed e
  | (tx, None) =>
    match Transaction_Actions tx with
    | [] => Fault
    | a :: _ =>
      match proto_Unmarshal ChaincodeActionPayload (TransactionAction_Payload a) with
      | (_, Some e) => Failed e
      | (cap, None) =>
        match proto_Unmarshal ChaincodeProposalPayload
                (ChaincodeActionPayload_ChaincodeProposalPayload cap) with
        | (_, Some e) => Failed e
        | (cpp, None) =>
          match proto_Unmarshal ChaincodeInvocationSpec
                  (ChaincodeProposalPayload_Input cpp) with
          | (_, Some e) => Failed e
          | (cis, None) => Done (cap, cis)
          end
        end
      end
    end
  end.

(** A data entry whose invocation spec, when the decoder gets as far as
    reading its arguments, has its chaincode spec and input. *)
Definition carries_input (x : Block * Z * bytes) : Prop :=
  let '(_, _, bd) := x in
  forall payload header ex cap cis,
    header_stages bd = Done (payload, header, ex) ->
    ChannelHeader_Type header = HeaderType_ENDORSER_TRANSACTION ->
    input_stages payload = Done (cap, cis) ->
    GetInput (GetChaincodeSpec cis) <> None.

End InputStages.

(** ** Random bytes ([bccsp/gm/sm4.go]) *)

Module gm.

(** [rand.Read(buffer)]: the bytes that the random source delivers when
    it is handed a buffer of the given length, and its error.  What it
    delivers beyond the buffer's length does not fit and is not read.
    [crypto/rand] reads the buffer full or reports an error; the class
    leaves that to the property that needs it. *)
Class RandomSource : Type := {
  rand_Read : nat -> bytes * option error
}.

(** [%d] *)
Definition decimal (z : Z) : string :=
  DecimalString.NilZero.string_of_int (Z.to_int z).

Section GetRandomBytes.

Context {source : RandomSource}.

Definition GetRandomBytes (len : Z) : bytes * option error :=
  if len <? 0 then ([], Some (errors_New "Len must be larger than 0"))
  else
    let buffer := repeat x00 (Z.to_nat len) in
    let '(delivered, err) := rand_Read (List.length buffer) in
    let read := firstn (List.length buffer) delivered in
    let n := Z.of_nat (List.length read) in
    let buffer := read ++ skipn (List.length read) buffer in
    match err with
    | Some e => ([], Some e)
    | None =>
      if negb (n =? len) then
        ([], Some (errors_New
                     ("Buffer not filled. Requested [" ++ decimal len ++
                      "], got [" ++ decimal n ++ "]")))
      else (buffer, None)
    end.

End GetRandomBytes.

End gm.

(** ** The command line ([main]) *)

Module cli.

Section Main.

(** What [Invoke] returns, which the program prints, and the element of
    what the queries return, which it reads the payload of. *)
Variables InvokeResult QueryResponse : Type.

(** The SDK that [main] drives; none of it is among the sources. *)
Record handler := {
  InitSDK : string -> option error;
  Invoke : list string -> list string -> string -> InvokeResult * option error;
  Query : list string -> list string -> list QueryResponse * option error;
  QueryByQscc : list string -> list string -> list QueryResponse * option error;
  Response_Payload : QueryResponse -> outcome bytes;
  viper_GetString : string -> string }.

(** What a run of [main] does, in order: the calls into the SDK and the
    lines printed. *)
Inductive effect : Type :=
| Call_InitSDK (path : string)
| Call_Invoke (args peers : list string) (orderer : string)
| Call_Query (args peers : list string)
| Call_QueryByQscc (args peers : list string)
| Call_ListenEvent (peerName mspId : string)
| Println_error (err : error)
| Println_result (result : InvokeResult)
| Println_string (s : bytes).

Definition cmd (A : Type) : Type := list effect * flow unit A.

Definition cmd_bind {A B : Type} (c : cmd A) (k : A -> cmd B) : cmd B :=
  match c with
  | (t, Next a) => let '(t', f) := k a in (t ++ t', f)
  | (t, Returns r) => (t, Returns r)
  | (t, Panics p) => (t, Panics p)
  end.

Definition emit (ef : effect) : cmd unit := ([ef], Next tt).
Definition pure {A : Type} (f : flow unit A) : cmd A := ([], f).

Declare Scope cmd_scope.
Delimit Scope cmd_scope with cmd.
Notation "x <- c ;; k" := (cmd_bind c (fun x => k))
  (at level 61, c at next level, right associativity) : cmd_scope.
Local Open Scope cmd_scope.

(** [if err != nil { fmt.Println(err) }] *)
Definition println_if (err : option error) : cmd unit :=
  match err with
  | Some e => emit (Println_error e)
  | None => pure (Next tt)
  end.

(** [fmt.Println(string(result[0].Response.Response.GetPayload()))] *)
Definition println_payload (h : handler) (result : list QueryResponse) : cmd unit :=
  result_0 <- pure (eval (index result 0)) ;;
  payload <- pure (eval (Response_Payload h result_0)) ;;
  emit (Println_string payload).

Definition main (h : handler) (args : list string) : list effect * outcome unit :=
  let c :=
    _ <- emit (Call_InitSDK "./client.yaml") ;;
    match InitSDK h "./client.yaml" with
    | Some err =>
      _ <- emit (Println_error err) ;;
      pure (Returns tt)
    | None =>
      let peers := ["peer0"%string] in
      args_0 <- pure (eval (index args 0)) ;;
      if String.eqb args_0 "invoke" then
        _ <- emit (Call_Invoke args peers "orderer0") ;;
        let '(result, err) := Invoke h args peers "orderer0" in
        _ <- println_if err ;;
        emit (Println_result result)
      else
        args_0 <- pure (eval (index args 0)) ;;
        if String.eqb args_0 "query" then
          _ <- emit (Call_Query args peers) ;;
          let '(result, err) := Query h args peers in
          _ <- println_if err ;;
          println_payload h result
        else
          args_0 <- pure (eval (index args 0)) ;;
          if String.eqb args_0 "listen" then
            emit (Call_ListenEvent "peer0" (viper_GetString h "other.localMspId"))
          else
            _ <- emit (Call_QueryByQscc args peers) ;;
            let '(result, err) := QueryByQscc h args peers in
            _ <- println_if err ;;
            println_payload h result
    end in
  (fst c, body (snd c)).

(** The calls of a run into the request and event paths of the SDK. *)
Definition is_call (ef : effect) : bool :=
  match ef with
  | Call_Invoke _ _ _ | Call_Query _ _ | Call_QueryByQscc _ _
  | Call_ListenEvent _ _ => true
  | _ => false
  end.

End Main.

Arguments InitSDK {InvokeResult QueryResponse} h.
Arguments Invoke {InvokeResult QueryResponse} h.
Arguments Query {InvokeResult QueryResponse} h.
Arguments QueryByQscc {InvokeResult QueryResponse} h.
Arguments Response_Payload {InvokeResult QueryResponse} h.
Arguments viper_GetString {InvokeResult QueryResponse} h.
Arguments main {InvokeResult QueryResponse} h args.
Arguments is_call {InvokeResult} ef.
Arguments Call_InitSDK {InvokeResult} path.
Arguments Call_Invoke {InvokeResult} args peers orderer.
Arguments Call_Query {InvokeResult} args peers.
Arguments Call_QueryByQscc {InvokeResult} args peers.
Arguments Call_ListenEvent {InvokeResult} peerName mspId.
Arguments Println_error {InvokeResult} err.
Arguments Println_result {InvokeResult} result.
Arguments Println_string {InvokeResult} s.

End cli.

(** ** Sample inputs for the random source and the command line *)

Module fixture.

(** A source that fills every buffer, with the bytes 0, 1, 2, ... *)
Definition counting : gm.RandomSource :=
  {| gm.rand_Read := fun n => (map (fun i => encode.byte_of (N.of_nat i)) (seq 0 n), None) |}.

(** An SDK that invokes and queries with success, and whose system
    chaincode query fails with no response. *)
Definition sdk : cli.handler string bytes :=
  {| cli.InitSDK := fun _ => None;
     cli.Invoke := fun _ _ _ => ("tx1"%string, None);
     cli.Query := fun _ _ => ([sample.text "100"], None);
     cli.QueryByQscc := fun _ _ => ([], Some (errors_New "no such channel"));
     cli.Response_Payload := fun r => Return r;
     cli.viper_GetString := fun _ => "Org1MSP"%string |}.

(** The same with a configuration file that cannot be read. *)
Definition unconfigured : cli.handler string bytes :=
  {| cli.InitSDK := fun _ => Some (errors_New "open ./client.yaml: no such file");
     cli.Invoke := cli.Invoke sdk;
     cli.Query := cli.Query sdk;
     cli.QueryByQscc := cli.QueryByQscc sdk;
     cli.Response_Payload := cli.Response_Payload sdk;
     cli.viper_GetString := cli.viper_GetString sdk |}.

End fixture.

(** ** Proof tools *)

Ltac inv H := inversion H; subst; clear H.

(* Reads the fields of a record built by assignments. *)
Ltac fields :=
  lazy beta iota delta
    [set_Error set_IsVaild set_BlockHeight set_TxIndex set_TxID set_ChannelName
     set_ChainCodeName set_ChainCodeVersion set_Status set_ChainCodeInput
     set_CCEvents BlockEventResponse_Error BlockEventResponse_zero
     Error IsVaild BlockHeight TxIndex TxID ChannelName ChainCodeName
     ChainCodeVersion Status ChainCodeInput CCEvents].

(* Runs the statements of a body held in [H], splitting on what each
   unmarshalling, index and dereference yields. *)
Ltac run_in H :=
  repeat first
    [ progress cbn [body bind return_on deref eval fst snd] in H
    | match type of H with
      | context [proto_Unmarshal ?M ?b] =>
        destruct (proto_Unmarshal M b) as [? [?|]]
      | context [index ?l 0] =>
        destruct l; unfold index in H;
        cbn [Z.ltb Z.compare Z.to_nat nth_error List.length] in H
      | context [deref ?p] => destruct p eqn:?
      | context [match ?x with _ => _ end] => destruct x
      end ].

(* The same on the goal. *)
Ltac run :=
  repeat first
    [ progress cbn [body bind return_on deref eval fst snd]
    | match goal with
      | |- context [proto_Unmarshal ?M ?b] =>
        destruct (proto_Unmarshal M b) as [? [?|]]
      | |- context [index ?l 0] =>
        destruct l; unfold index;
        cbn [Z.ltb Z.compare Z.to_nat nth_error List.length]
      | |- context [deref ?p] => destruct p
      end ].

(* Runs [main] in [H], splitting on every test it makes. *)
Ltac run_main H :=
  unfold cli.main, cli.println_payload, cli.println_if, cli.cmd_bind, cli.emit,
    cli.pure, index in H;
  repeat first
    [ progress cbn [body eval fst snd app Z.ltb Z.compare Z.to_nat nth_error
                    List.length] in H
    | match type of H with
      | context [match ?x with _ => _ end] =>
        lazymatch x with
        | context [match _ with _ => _ end] => fail
        | _ => destruct x eqn:?
        end
      end ].

(** * Properties *)

(** ** Reading a body *)

Lemma index_Return {A : Type} (l : list A) (i : Z) (x : A) :
  index l i = Return x <-> 0 <= i /\ nth_error l (Z.to_nat i) = Some x.
Proof.
  unfold index. destruct (Z.ltb_spec i 0).
  - split; [discriminate | lia].
  - destruct (nth_error l (Z.to_nat i)); split; intros H0.
    + inversion H0. auto.
    + destruct H0 as [_ H0]. congruence.
    + discriminate.
    + destruct H0. discriminate.
Qed.


(** ** The decoder, stage by stage *)

Section DecoderProperties.

Context {protos : Protos}.

Lemma header_failed pl blockNum idx metadata e :
  header_stages pl = Failed e ->
  DecodeEventBlock pl blockNum idx metadata = Return (BlockEventResponse_Error e).
Proof.
  unfold header_stages, DecodeEventBlock.
  destruct (proto_Unmarshal Envelope pl) as [envelope [e1|]]; cbn.
  - intros H; inversion H; reflexivity.
  - destruct (proto_Unmarshal Payload (Envelope_Payload envelope)) as [payload perr]; cbn.
    destruct (Payload_Header payload) as [h|]; cbn; [|discriminate].
    destruct (proto_Unmarshal ChannelHeader (Header_ChannelHeader h)) as [header [e3|]]; cbn.
    + intros H; inversion H. destruct perr; reflexivity.
    + destruct (proto_Unmarshal ChaincodeHeaderExtension _) as [ex [e4|]]; cbn.
      * intros H; inversion H. destruct perr; reflexivity.
      * discriminate.
Qed.

Lemma header_fault pl blockNum idx metadata :
  header_stages pl = Fault ->
  DecodeEventBlock pl blockNum idx metadata = Panic nil_dereference.
Proof.
  unfold header_stages, DecodeEventBlock.
  destruct (proto_Unmarshal Envelope pl) as [envelope [e1|]]; cbn; [discriminate|].
  destruct (proto_Unmarshal Payload (Envelope_Payload envelope)) as [payload perr]; cbn.
  destruct (Payload_Header payload) as [h|]; cbn; [|reflexivity].
  destruct (proto_Unmarshal ChannelHeader (Header_ChannelHeader h)) as [header [e3|]]; cbn;
    [discriminate|].
  destruct (proto_Unmarshal ChaincodeHeaderExtension _) as [ex [e4|]]; cbn; discriminate.
Qed.

(** Past the header stages: the record that is returned carries the
    identification fields of stage 5, and its error and detail fields are
    told by the stage-6 chain. *)
Lemma decode_done pl blockNum idx metadata payload header ex r :
  header_stages pl = Done (payload, header, ex) ->
  DecodeEventBlock pl blockNum idx metadata = Return r ->
  exists flag,
    validation_flag metadata idx = Some flag /\
    identified r blockNum idx header ex flag /\
    if ChannelHeader_Type header =? HeaderType_ENDORSER_TRANSACTION then
      match endorser_stages payload with
      | Failed e => Error r = Some e /\ CCEvents r = []
      | Done (cis, _, ev) =>
        Error r = payload_error pl /\
        (exists input, GetInput (GetChaincodeSpec cis) = Some input /\
                       ChainCodeInput r = ChaincodeInput_Args input) /\
        CCEvents r = [{| EventName := ChaincodeEvent_EventName ev;
                         EventPayload := ChaincodeEvent_Payload ev |}]
      | Fault => False
      end
    else Error r = payload_error pl /\ ChainCodeInput r = [] /\ CCEvents r = [].
Proof.
  unfold header_stages, payload_error, DecodeEventBlock. intros Hh Hd.
  destruct (proto_Unmarshal Envelope pl) as [envelope [e1|]]; [discriminate|].
  destruct (proto_Unmarshal Payload (Envelope_Payload envelope)) as [payload' perr].
  cbn [fst snd return_on bind deref] in *.
  destruct (Payload_Header payload') as [h|]; [|discriminate].
  cbn [fst snd return_on bind deref] in *.
  destruct (proto_Unmarshal ChannelHeader (Header_ChannelHeader h)) as [header' [e3|]];
    [discriminate|].
  cbn [fst snd return_on bind deref] in *.
  destruct (proto_Unmarshal ChaincodeHeaderExtension (ChannelHeader_Extension header'))
    as [ex' [e4|]]; [discriminate|].
  inv Hh. cbn [fst snd return_on bind deref] in *.
  unfold validation_flag, util.IsValid, endorser_stages in *.
  change (index metadata 2) with (index metadata BlockMetadataIndex_TRANSACTIONS_FILTER)
    in Hd.
  destruct (index metadata BlockMetadataIndex_TRANSACTIONS_FILTER) as [flags|] eqn:Hm;
    [|discriminate Hd].
  apply index_Return in Hm. destruct Hm as [_ Hm]. rewrite Hm.
  cbn [eval bind] in Hd.
  destruct (index flags idx) as [flag|] eqn:Hf;
    [|cbn [body bind eval] in Hd; discriminate Hd].
  apply index_Return in Hf. destruct Hf as [Hi Hf].
  replace (idx <? 0) with false by (symmetry; apply Z.ltb_ge; exact Hi).
  rewrite Hf. cbn [eval bind] in Hd.
  exists flag. split; [reflexivity|].
  match type of Hd with
  | context [set_Status ?s ?x] => remember (set_Status s x) as r5 eqn:Hr5
  end.
  assert (H5 : identified r5 blockNum idx header ex flag /\ Error r5 = perr /\
               ChainCodeInput r5 = [] /\ CCEvents r5 = []).
  { subst r5. unfold identified.
    destruct perr, (ChaincodeHeaderExtension_ChaincodeId ex); fields;
      repeat split; intros; congruence. }
  clear Hr5. destruct H5 as (Hid & He & Hin & Hev).
  destruct (ChannelHeader_Type header =? HeaderType_ENDORSER_TRANSACTION).
  - run_in Hd.
    all: cbn [body] in Hd; try discriminate Hd.
    all: inv Hd; unfold identified in *; fields; intuition eauto.
    apply (f_equal (fun l => l ++ [_]) Hev).
  - cbn [body] in Hd. inv Hd. auto.
Qed.

(** Past the header stages, with the validation flags covering the
    position, the decoder faults exactly when the stage-6 chain does. *)
Lemma decode_outcome pl blockNum idx metadata payload header ex flag :
  header_stages pl = Done (payload, header, ex) ->
  validation_flag metadata idx = Some flag ->
  match DecodeEventBlock pl blockNum idx metadata with
  | Return _ =>
    ChannelHeader_Type header <> HeaderType_ENDORSER_TRANSACTION \/
    endorser_stages payload <> Fault
  | Panic _ =>
    ChannelHeader_Type header = HeaderType_ENDORSER_TRANSACTION /\
    endorser_stages payload = Fault
  end.
Proof.
  unfold header_stages, DecodeEventBlock. intros Hh Hv.
  destruct (proto_Unmarshal Envelope pl) as [envelope [e1|]]; [discriminate|].
  destruct (proto_Unmarshal Payload (Envelope_Payload envelope)) as [payload' perr].
  cbn [fst snd return_on bind deref] in *.
  destruct (Payload_Header payload') as [h|]; [|discriminate].
  cbn [fst snd return_on bind deref] in *.
  destruct (proto_Unmarshal ChannelHeader (Header_ChannelHeader h)) as [header' [e3|]];
    [discriminate|].
  cbn [fst snd return_on bind deref] in *.
  destruct (proto_Unmarshal ChaincodeHeaderExtension (ChannelHeader_Extension header'))
    as [ex' [e4|]]; [discriminate|].
  inv Hh. cbn [fst snd return_on bind deref] in *.
  unfold validation_flag in Hv. unfold util.IsValid, endorser_stages.
  change (index metadata 2) with (index metadata BlockMetadataIndex_TRANSACTIONS_FILTER).
  destruct (nth_error metadata (Z.to_nat BlockMetadataIndex_TRANSACTIONS_FILTER))
    as [flags|] eqn:Hm; [|discriminate].
  destruct (Z.ltb_spec idx 0) as [|Hi]; [discriminate|].
  assert (Hm' : index metadata BlockMetadataIndex_TRANSACTIONS_FILTER = Return flags)
    by (apply index_Return; split; [discriminate | exact Hm]).
  assert (Hf : index flags idx = Return flag) by (apply index_Return; auto).
  rewrite Hm'. cbn [eval bind]. rewrite Hf. cbn [eval bind].
  destruct (Z.eqb_spec (ChannelHeader_Type header) HeaderType_ENDORSER_TRANSACTION)
    as [Ht|Ht].
  - run; first [ right; discriminate | split; [exact Ht | reflexivity] ].
  - cbn [body]. left. exact Ht.
Qed.

End DecoderProperties.

Section DecoderClaims.

Context {protos : Protos}.

Lemma endorser_done_event payload cis ca ev :
  endorser_stages payload = Done (cis, ca, ev) ->
  proto_Unmarshal ChaincodeEvent (ChaincodeAction_Events ca) = (ev, None).
Proof.
  unfold endorser_stages. intros H.
  repeat match type of H with
         | context [proto_Unmarshal ?M ?b] =>
           destruct (proto_Unmarshal M b) as [? [?|]] eqn:?; [discriminate H|]
         | context [match ?x with _ => _ end] => destruct x; [|discriminate H]
         | context [match ?x with _ => _ end] => destruct x; [discriminate H|]
         end.
  inv H. assumption.
Qed.

(** C2.  When an outer stage fails (the envelope, the channel header or
    the header extension does not parse), the decoder returns
    [BlockEventResponse{Error: err}]: every other field holds its zero
    value.  When an inner stage fails (an unmarshalling of stage 6 that
    the decoder gets to, the header stages having passed and the
    validation flags covering the position), the decoder returns a record
    that carries that error and, from stage 5, the block height, the
    position, the transaction id, the channel name, the chaincode name and
    version when the extension has them, the status and the validity. *)
Theorem partial_results_preserved pl blockNum idx metadata :
  (forall e,
      header_stages pl = Failed e ->
      DecodeEventBlock pl blockNum idx metadata = Return (BlockEventResponse_Error e)) /\
  (forall payload header ex e flag,
      header_stages pl = Done (payload, header, ex) ->
      ChannelHeader_Type header = HeaderType_ENDORSER_TRANSACTION ->
      endorser_stages payload = Failed e ->
      validation_flag metadata idx = Some flag ->
      exists r,
        DecodeEventBlock pl blockNum idx metadata = Return r /\
        Error r = Some e /\
        identified r blockNum idx header ex flag).
Proof.
  split.
  - intros e He. exact (header_failed _ _ _ _ _ He).
  - intros payload header ex e flag Hh Ht He Hv.
    pose proof (decode_outcome _ blockNum idx metadata _ _ _ _ Hh Hv) as Ho.
    destruct (DecodeEventBlock pl blockNum idx metadata) as [r|p] eqn:Hd.
    + exists r. split; [reflexivity|].
      destruct (decode_done _ _ _ _ _ _ _ _ Hh Hd) as (flag' & Hv' & Hid & Hs).
      rewrite Hv in Hv'. inv Hv'.
      rewrite Ht, Z.eqb_refl, He in Hs. destruct Hs as [Herr _].
      split; assumption.
    + destruct Ho as [_ Hf]. rewrite He in Hf. discriminate.
Qed.

(** C3, as amended.  For a returned record, with the validation flags
    covering the transaction's position: when the envelope, the channel
    header and the header extension parse, the record's [IsVaild] is true
    exactly when the validation-flag byte at that position is the valid
    code, 0; when one of them does not parse, the record is the error-only
    one and its [IsVaild] is false whatever the flag byte. *)
Theorem isValid_tells_flag_valid pl blockNum idx metadata r flag :
  DecodeEventBlock pl blockNum idx metadata = Return r ->
  validation_flag metadata idx = Some flag ->
  TxValidationCode_VALID = 0 /\
  (((exists payload header ex, header_stages pl = Done (payload, header, ex)) /\
    (IsVaild r = true <-> uint8 flag = TxValidationCode_VALID)) \/
   ((exists e, header_stages pl = Failed e) /\ IsVaild r = false)).
Proof.
  intros Hd Hv. split; [reflexivity|].
  destruct (header_stages pl) as [|e|[[payload header] ex]] eqn:Hh.
  - rewrite (header_fault _ blockNum idx metadata Hh) in Hd. discriminate.
  - right. split; [eauto|].
    rewrite (header_failed _ blockNum idx metadata _ Hh) in Hd. inv Hd. reflexivity.
  - left. split; [eauto|].
    destruct (decode_done _ _ _ _ _ _ _ _ Hh Hd) as (flag' & Hv' & Hid & _).
    rewrite Hv in Hv'. inv Hv'.
    destruct Hid as (_ & _ & _ & _ & _ & _ & Hvalid).
    rewrite Hvalid. apply Z.eqb_eq.
Qed.

(** C9.  The status is read at metadata index 2, the index of the
    transaction-validation flags: for a record that reaches stage 5 the
    status is the validation-flag byte at the transaction's position, and
    [IsVaild] is true exactly when the status is 0, the valid code. *)
Theorem status_is_validation_flag pl blockNum idx metadata payload header ex r :
  header_stages pl = Done (payload, header, ex) ->
  DecodeEventBlock pl blockNum idx metadata = Return r ->
  BlockMetadataIndex_TRANSACTIONS_FILTER = 2 /\
  exists flags flag,
    nth_error metadata 2 = Some flags /\
    nth_error flags (Z.to_nat idx) = Some flag /\
    Status r = uint8 flag /\
    (IsVaild r = true <-> Status r = 0).
Proof.
  intros Hh Hd. split; [reflexivity|].
  destruct (decode_done _ _ _ _ _ _ _ _ Hh Hd) as (flag & Hv & Hid & _).
  destruct Hid as (_ & _ & _ & _ & _ & Hstatus & Hvalid).
  unfold validation_flag in Hv.
  change (Z.to_nat BlockMetadataIndex_TRANSACTIONS_FILTER) with 2%nat in Hv.
  destruct (nth_error metadata 2) as [flags|]; [|discriminate].
  destruct (idx <? 0); [discriminate|].
  exists flags, flag. repeat split; try assumption.
  - intros Ht. rewrite Hvalid in Ht. rewrite Hstatus. apply Z.eqb_eq. exact Ht.
  - intros Hz. rewrite Hvalid, <- Hstatus. apply Z.eqb_eq. exact Hz.
Qed.

(** C10.  When the stage-6 chain of an endorser transaction completes
    (every message parses, and the first action, the input of the
    invocation spec and the endorsed action that the code reads between
    them are there), the record is returned with exactly one entry in its
    events list, made of the name and the payload of the decoded
    chaincode event; when the chaincode action carries no event bytes,
    that entry has the empty name and the empty payload. *)
Theorem one_event_entry pl blockNum idx metadata payload header ex cis ca ev flag :
  header_stages pl = Done (payload, header, ex) ->
  ChannelHeader_Type header = HeaderType_ENDORSER_TRANSACTION ->
  endorser_stages payload = Done (cis, ca, ev) ->
  validation_flag metadata idx = Some flag ->
  exists r,
    DecodeEventBlock pl blockNum idx metadata = Return r /\
    List.length (CCEvents r) = 1%nat /\
    CCEvents r = [{| EventName := ChaincodeEvent_EventName ev;
                     EventPayload := ChaincodeEvent_Payload ev |}] /\
    (ChaincodeAction_Events ca = [] ->
     CCEvents r = [{| EventName := EmptyString; EventPayload := [] |}]).
Proof.
  intros Hh Ht He Hv.
  pose proof (decode_outcome _ blockNum idx metadata _ _ _ _ Hh Hv) as Ho.
  destruct (DecodeEventBlock pl blockNum idx metadata) as [r|p] eqn:Hd.
  - exists r. split; [reflexivity|].
    destruct (decode_done _ _ _ _ _ _ _ _ Hh Hd) as (flag' & _ & _ & Hs).
    rewrite Ht, Z.eqb_refl, He in Hs. destruct Hs as (_ & _ & Hev).
    rewrite Hev. repeat split.
    intros Hnil. apply endorser_done_event in He.
    rewrite Hnil, proto_Unmarshal_nil in He. inv He. reflexivity.
  - destruct Ho as [_ Hf]. rewrite He in Hf. discriminate.
Qed.

End DecoderClaims.

(** ** The stream reader *)

Lemma error_eqb_eq (a b : error) : error_eqb a b = true <-> a = b.
Proof.
  destruct a, b; cbn; split; intros H; try discriminate H; try reflexivity.
  - apply String.eqb_eq in H. subst. reflexivity.
  - inv H. apply String.eqb_refl.
Qed.

Section ReaderProperties.

Variable PrivateKey : Type.
Context {protos : Protos}.

Lemma sent_app (t1 t2 : list (effect PrivateKey)) :
  sent (t1 ++ t2) = sent t1 ++ sent t2.
Proof. unfold sent. apply flat_map_app. Qed.

(** The reader on a longer input: what it did on the first part, then,
    if it is still receiving, what it does on the rest. *)
Lemma readBlock_app (e : eventHub) (s1 s2 : list recv) :
  readBlock (PrivateKey := PrivateKey) e (s1 ++ s2) =
  match readBlock e s1 with
  | (t1, Receiving) => let '(t2, st) := readBlock e s2 in (t1 ++ t2, st)
  | (t1, st) => (t1, st)
  end.
Proof.
  induction s1 as [|x s1 IH]; cbn [app readBlock].
  - destruct (client e) eqn:Hc.
    + destruct (readBlock e s2). reflexivity.
    + destruct s2; cbn [readBlock]; rewrite Hc; reflexivity.
  - destruct (client e) eqn:Hc; [|reflexivity].
    destruct (readBlock_turn PrivateKey e x) as [t [[]|[]|p]]; try reflexivity.
    rewrite IH. destruct (readBlock e s1) as [t1 [| |p]]; try reflexivity.
    destruct (readBlock e s2). rewrite app_assoc. reflexivity.
Qed.

(** A reader that is still receiving has met no read error. *)
Lemma receiving_all_ok (e : eventHub) (stream : list recv)
      (t : list (effect PrivateKey)) :
  readBlock e stream = (t, Receiving) ->
  exists ins, stream = map Recv_ok ins.
Proof.
  revert t. induction stream as [|x stream IH]; intros t H.
  - exists []. reflexivity.
  - cbn [readBlock] in H. destruct (client e); [|discriminate].
    destruct x as [in_|err].
    + destruct (readBlock_turn PrivateKey e (Recv_ok in_)) as [t1 [[]|[]|p]];
        try discriminate.
      destruct (readBlock e stream) as [t2 st]. inv H.
      destruct (IH _ eq_refl) as [ins ->]. exists (in_ :: ins). reflexivity.
    + exfalso. unfold readBlock_turn, disconnect, act_bind, emit, pure, deref in H.
      destruct (error_eqb err io_EOF), (client e), (connection e); discriminate.
Qed.

Lemma receiving_client (e : eventHub) (stream : list recv)
      (t : list (effect PrivateKey)) :
  readBlock e stream = (t, Receiving) -> client e <> None.
Proof.
  destruct stream; cbn [readBlock]; destruct (client e); discriminate.
Qed.

(** A record that the decoder returns carries the block number and the
    position it was called with, unless an outer stage failed. *)
Lemma decode_entry_fields bd number i metadata r :
  DecodeEventBlock bd number i metadata = Return r ->
  (exists e, header_stages bd = Failed e /\ r = BlockEventResponse_Error e) \/
  (BlockHeight r = number /\ TxIndex r = i).
Proof.
  intros Hd. destruct (header_stages bd) as [|e|[[payload header] ex]] eqn:Hh.
  - rewrite (header_fault _ number i metadata Hh) in Hd. discriminate.
  - left. exists e. rewrite (header_failed _ number i metadata _ Hh) in Hd.
    inv Hd. auto.
  - right. destruct (decode_done _ _ _ _ _ _ _ _ Hh Hd) as (flag & _ & Hid & _).
    destruct Hid as (Hb & Hi & _). auto.
Qed.

(** The inner loop sends one record per data entry, in order, and never
    leaves the function. *)
Lemma deliver_entries in_ b m data :
  GetBlock in_ = Some b ->
  Block_Metadata b = Some m ->
  forall i (t : list (effect PrivateKey)) f,
    deliver PrivateKey in_ (BlockMetadata_Metadata m) i data = (t, f) ->
    match f with
    | Next _ =>
      Forall2 decoded_entry (sent t)
              (map (fun x => (b, fst x, snd x)) (indexed_from i data))
    | Returns _ => False
    | Panics _ => True
    end.
Proof.
  intros Hb Hm. induction data as [|bd data IH]; intros i t f H.
  - inv H. constructor.
  - cbn [deliver] in H. rewrite Hb in H. cbn [GetHeader] in H.
    destruct (Block_Header b) as [h|] eqn:Hh; [|inv H; exact I].
    cbn [deref pure act_bind app] in H.
    destruct (DecodeEventBlock bd (BlockHeader_Number h) i (BlockMetadata_Metadata m))
      as [r|p] eqn:Hd; [|inv H; exact I].
    cbn [eval pure emit act_bind app] in H.
    destruct (deliver PrivateKey in_ (BlockMetadata_Metadata m) (i + 1) data)
      as [t' f'] eqn:Hrest.
    specialize (IH _ _ _ Hrest). inv H.
    destruct f as [[]|[]|p]; try exact IH; try exact I.
    cbn [indexed_from map sent flat_map app fst snd]. constructor.
    + exists h, m. repeat split; try assumption.
      exact (decode_entry_fields _ _ _ _ _ Hd).
    + exact IH.
Qed.

Lemma turn_entries (e : eventHub) in_ (t : list (effect PrivateKey)) f :
  readBlock_turn PrivateKey e (Recv_ok in_) = (t, f) ->
  match f with
  | Next _ => Forall2 decoded_entry (sent t) (event_entries in_)
  | Returns _ => False
  | Panics _ => True
  end.
Proof.
  unfold readBlock_turn, event_entries. intros H.
  destruct (Event_Event in_) as [[reg|blk| | |]|] eqn:He;
    try (inv H; constructor).
  assert (Hg : GetBlock in_ = blk) by (unfold GetBlock; rewrite He; reflexivity).
  rewrite Hg in H.
  destruct blk as [b|]; [|inv H; exact I].
  cbn [deref pure act_bind app] in H.
  destruct (Block_Metadata b) as [m|] eqn:Hm; [|inv H; exact I].
  cbn [deref pure act_bind app] in H.
  destruct (Block_Data b) as [d|] eqn:Hdata; [|inv H; exact I].
  cbn [deref pure act_bind app] in H.
  destruct (deliver PrivateKey in_ (BlockMetadata_Metadata m) 0 (BlockData_Data d))
    as [t' f'] eqn:Hdel.
  inv H. exact (deliver_entries _ _ _ _ Hg Hm _ _ _ Hdel).
Qed.

Lemma sent_entries (e : eventHub) (ins : list Event) (t : list (effect PrivateKey)) :
  readBlock e (map Recv_ok ins) = (t, Receiving) ->
  Forall2 decoded_entry (sent t) (stream_entries ins).
Proof.
  revert t. induction ins as [|in_ ins IH]; intros t H.
  - cbn [map readBlock] in H. destruct (client e); inv H. constructor.
  - cbn [map readBlock] in H. destruct (client e); [|discriminate].
    destruct (readBlock_turn PrivateKey e (Recv_ok in_)) as [t1 f] eqn:Ht.
    pose proof (turn_entries _ _ _ _ Ht) as H1.
    destruct f as [[]|[]|p]; try discriminate.
    destruct (readBlock e (map Recv_ok ins)) as [t2 st] eqn:Hr. inv H.
    rewrite sent_app. cbn [stream_entries flat_map].
    apply Forall2_app; [exact H1 | exact (IH _ eq_refl)].
Qed.

(** The inner loop gets through the entries that decode. *)
Lemma deliver_total in_ b m data :
  GetBlock in_ = Some b ->
  Block_Metadata b = Some m ->
  forall i,
    Forall decodes (map (fun x => (b, fst x, snd x)) (indexed_from i data)) ->
    exists t : list (effect PrivateKey),
      deliver PrivateKey in_ (BlockMetadata_Metadata m) i data = (t, Next tt).
Proof.
  intros Hb Hm. induction data as [|bd data IH]; intros i Hall.
  - exists []. reflexivity.
  - cbn [indexed_from map fst snd] in Hall. inv Hall.
    destruct H1 as (r & h & m' & Hh & Hm' & Hd & _).
    rewrite Hm in Hm'. inv Hm'.
    destruct (IH _ H2) as [t Ht].
    exists (ChanSend r :: t).
    cbn [deliver]. rewrite Hb. cbn [GetHeader]. rewrite Hh.
    cbn [deref pure act_bind app]. rewrite Hd.
    cbn [eval pure emit act_bind app]. rewrite Ht. reflexivity.
Qed.

Lemma turn_total (e : eventHub) in_ :
  walkable in_ ->
  Forall decodes (event_entries in_) ->
  exists t : list (effect PrivateKey),
    readBlock_turn PrivateKey e (Recv_ok in_) = (t, Next tt).
Proof.
  unfold walkable, event_entries, readBlock_turn. intros Hw Hall.
  destruct (Event_Event in_) as [[reg|blk| | |]|] eqn:He;
    try (exists []; reflexivity).
  destruct Hw as (b & -> & Hdata & Hmeta).
  assert (Hg : GetBlock in_ = Some b) by (unfold GetBlock; rewrite He; reflexivity).
  rewrite Hg. cbn [deref pure act_bind app].
  destruct (Block_Metadata b) as [m|] eqn:Hm; [|congruence].
  destruct (Block_Data b) as [d|] eqn:Hd; [|congruence].
  cbn [deref pure act_bind app].
  destruct (deliver_total _ _ _ _ Hg Hm _ Hall) as [t Ht].
  exists t. rewrite Ht. reflexivity.
Qed.

(** C5, as amended.  On a sequence of received messages whose block
    messages carry their data and metadata and whose data entries all
    decode without a fault, the reader gets through the sequence and the
    records it sends on the channel are, one for one and in order, the
    decoded data entries of the block messages, blocks in arrival order
    and entries in block order: each is what [DecodeEventBlock] returns for
    its entry at the block's header number and the entry's position.  A
    record carries that number and position as its block height and index,
    unless its envelope, channel header or header extension failed to
    parse, in which case it is the error-only record. *)
Theorem one_record_per_entry (e : eventHub) (ins : list Event) :
  client e <> None ->
  Forall walkable ins ->
  Forall decodes (stream_entries ins) ->
  exists t : list (effect PrivateKey),
    readBlock e (map Recv_ok ins) = (t, Receiving) /\
    Forall2 decoded_entry (sent t) (stream_entries ins) /\
    List.length (sent t) = List.length (stream_entries ins).
Proof.
  intros Hc Hw Hall.
  assert (Hrun : exists t : list (effect PrivateKey),
             readBlock e (map Recv_ok ins) = (t, Receiving)).
  { induction ins as [|in_ ins IH].
    - exists []. cbn [map readBlock]. destruct (client e); congruence.
    - inv Hw. cbn [stream_entries flat_map] in Hall.
      apply Forall_app in Hall. destruct Hall as [Hin Hrest].
      destruct (turn_total e _ H1 Hin) as [t1 Ht1].
      destruct (IH H2 Hrest) as [t2 Ht2].
      exists (t1 ++ t2). cbn [map readBlock].
      destruct (client e); [|congruence]. rewrite Ht1, Ht2. reflexivity. }
  destruct Hrun as [t Ht]. exists t.
  pose proof (sent_entries _ _ _ Ht) as HF.
  split; [exact Ht|]. split; [exact HF | exact (Forall2_length HF)].
Qed.

Lemma turn_ok_no_return (e : eventHub) in_ (t : list (effect PrivateKey)) r :
  readBlock_turn PrivateKey e (Recv_ok in_) <> (t, Returns r).
Proof.
  intros H. exact (turn_entries _ _ _ _ H).
Qed.

(** C6.  The reader returns in exactly two ways.  It returns when [Recv]
    yields an error after a run of messages it got through; on [io.EOF] it
    closes the stream and the connection and sends nothing more, on any
    other error it first sends the one record
    [BlockEventResponse{Error: err}], then closes both. *)
Theorem readBlock_ends_two_ways (e : eventHub) (stream : list recv)
        (t : list (effect PrivateKey)) :
  readBlock e stream = (t, Returned) <->
  exists ins err post t0,
    stream = map Recv_ok ins ++ Recv_err err :: post /\
    readBlock e (map Recv_ok ins) = (t0, Receiving) /\
    connection e <> None /\
    (err = io_EOF /\ t = t0 ++ [CloseSend; ConnectionClose] \/
     err <> io_EOF /\
     t = t0 ++ [ChanSend (BlockEventResponse_Error err); CloseSend; ConnectionClose]).
Proof.
  split.
  - revert t. induction stream as [|x stream IH]; intros t H.
    + cbn [readBlock] in H. destruct (client e); discriminate.
    + cbn [readBlock] in H. destruct (client e) as [c|] eqn:Hc; [|discriminate].
      destruct x as [in_|err].
      * destruct (readBlock_turn PrivateKey e (Recv_ok in_)) as [t1 f] eqn:Ht.
        destruct f as [[]|r|p]; try discriminate.
        -- destruct (readBlock e stream) as [t2 st] eqn:Hr. inv H.
           destruct (IH _ eq_refl) as (ins & err & post & t0 & Hs & H0 & Hconn & Hend).
           exists (in_ :: ins), err, post, (t1 ++ t0). subst stream.
           split; [reflexivity|]. split.
           ++ cbn [map readBlock]. rewrite Hc, Ht, H0. reflexivity.
           ++ split; [exact Hconn|].
              destruct Hend as [[He Ht2]|[He Ht2]]; [left|right];
                (split; [exact He|]); rewrite Ht2; apply app_assoc.
        -- exfalso. exact (turn_ok_no_return _ _ _ _ Ht).
      * exists [], err, stream, []. split; [reflexivity|].
        split; [cbn [map readBlock]; rewrite Hc; reflexivity|].
        unfold readBlock_turn, disconnect, act_bind, emit, pure, deref in H.
        rewrite Hc in H.
        destruct (connection e); [split; [discriminate|] |].
        -- destruct (error_eqb err io_EOF) eqn:Heq; inv H.
           ++ left. split; [apply error_eqb_eq; exact Heq | reflexivity].
           ++ right. split; [|reflexivity].
              intros Habs. apply error_eqb_eq in Habs. congruence.
        -- destruct (error_eqb err io_EOF); discriminate.
  - intros (ins & err & post & t0 & Hs & H0 & Hconn & Hend). subst stream.
    rewrite readBlock_app, H0. cbn [readBlock].
    destruct (client e) as [c|] eqn:Hc;
      [|exfalso; exact (receiving_client _ _ _ H0 Hc)].
    unfold readBlock_turn, disconnect, act_bind, emit, pure, deref.
    rewrite Hc. destruct (connection e); [|congruence].
    destruct Hend as [[He Ht]|[He Ht]]; subst t.
    + subst err. reflexivity.
    + destruct (error_eqb err io_EOF) eqn:Heq.
      * apply error_eqb_eq in Heq. congruence.
      * reflexivity.
Qed.

End ReaderProperties.

(** ** Registration and subscription *)

Section HubProperties.

Variable PrivateKey : Type.
Context {crypto : CryptoSuite PrivateKey} {marshals : Marshals} {protos : Protos}.
Variable pem_EncodeToMemory : pem.Block -> bytes.
Variable net : network.

(** C7.  On a successful registration the program calls [Sign] once, on
    the serialized interest request with the creator identity, and then
    sends one signed event whose [EventBytes] are those very bytes and
    whose [Signature] is what [Sign] returned for them. *)
Theorem register_signs_what_it_sends (e : eventHub) (mspId : string)
        (identity : Identity PrivateKey) (t : list (effect PrivateKey)) :
  register pem_EncodeToMemory e mspId identity = (t, Return None) ->
  exists creator evtBytes sb,
    proto_Marshal
      {| SerializedIdentity_Mspid := mspId;
         SerializedIdentity_IdBytes :=
           pem_EncodeToMemory
             {| pem.Block_Type := "CERTIFICATE";
                pem.Block_Bytes := x509.Certificate_Raw (Certificate identity) |} |}
    = (creator, None) /\
    proto_Marshal
      {| Event_Event :=
           Some (Event_Register
                   (Some {| Register_Events :=
                              [{| Interest_EventType := EventType_BLOCK |}] |}));
         Event_Creator := creator |}
    = (evtBytes, None) /\
    Sign evtBytes (Identity_PrivateKey identity) = (sb, None) /\
    t = [SignCall evtBytes (Identity_PrivateKey identity);
         ClientSend {| SignedEvent_Signature := sb;
                       SignedEvent_EventBytes := evtBytes |}].
Proof.
  unfold register, act_body, act_bind, return_err, emit, pure, deref.
  intros H.
  destruct (proto_Marshal _) as [creator [err|]] eqn:Hc in H; [inv H|].
  destruct (proto_Marshal _) as [evtBytes [err|]] eqn:He in H; [inv H|].
  cbn [app] in H.
  destruct (Sign evtBytes (Identity_PrivateKey identity)) as [sb [err|]] eqn:Hs;
    [inv H|].
  destruct (client e) as [c|]; [|inv H].
  destruct (Send c _) as [err|]; inv H.
  exists creator, evtBytes, sb. repeat split; assumption.
Qed.

(** C8.  When connecting fails, or connecting succeeds and registering
    fails, [newEventListener] returns that error without having started
    the reader: no goroutine is started, so no record is ever sent on the
    channel, whatever the stream would yield. *)
Theorem failed_subscription_starts_no_reader (p : Peer)
        (identity : Identity PrivateKey) (mspId : string) (err : error) :
  (exists tc hub p',
      connect (PrivateKey := PrivateKey) net eventHub_zero p
      = (tc, Return (hub, p', Some err))) \/
  (exists tc hub p' tr,
      connect (PrivateKey := PrivateKey) net eventHub_zero p
      = (tc, Return (hub, p', None)) /\
      register pem_EncodeToMemory hub mspId identity = (tr, Return (Some err))) ->
  exists t,
    newEventListener pem_EncodeToMemory net p identity mspId = (t, Return (Some err)) /\
    (forall e, ~ In (Go_readBlock e) t) /\
    forall stream, sent (t ++ goroutines t stream) = [].
Proof.
  unfold newEventListener, eventHub_zero, act_body.
  intros [(tc & hub & p' & Hc)|(tc & hub & p' & tr & Hc & Hr)].
  - rewrite Hc. cbn. exists (tc ++ []). split; [reflexivity|].
    revert Hc. unfold connect, act_body, act_bind, emit, pure.
    destruct (grpc_Dial net _ _); [|destruct (Events_Chat net _)];
      cbn; intros Hc; inv Hc.
    + split; [intros e [H|[]]; discriminate | reflexivity].
    + split; [intros e [H|[H|[]]]; discriminate | reflexivity].
  - rewrite Hc. cbn [eval act_bind return_err pure app fst snd body]. rewrite Hr.
    cbn. exists (tc ++ tr ++ []). split; [reflexivity|].
    revert Hc Hr.
    unfold connect, register, act_body, act_bind, return_err, emit, pure, deref.
    destruct (grpc_Dial net _ _); [|destruct (Events_Chat net _)];
      cbn; intros Hc; inv Hc.
    intros Hr.
    destruct (proto_Marshal _) as [creator [e1|]] in Hr; [inv Hr|].
    { split; [intros e [H|[H|[]]]; discriminate | reflexivity]. }
    destruct (proto_Marshal _) as [evtBytes [e2|]] in Hr; [inv Hr|].
    { split; [intros e [H|[H|[]]]; discriminate | reflexivity]. }
    cbn [app] in Hr.
    destruct (Sign evtBytes _) as [sb [e3|]]; [inv Hr|].
    { split; [intros e [H|[H|[H|[]]]]; discriminate | reflexivity]. }
    cbn in Hr. destruct (Send _ _) as [e4|]; inv Hr.
    split; [intros e [H|[H|[H|[H|[]]]]]; discriminate | reflexivity].
Qed.

End HubProperties.

(** ** Further properties of the decoder and the hub *)

Section Further.

Variable PrivateKey : Type.
Context {crypto : CryptoSuite PrivateKey} {marshals : Marshals} {protos : Protos}.
Variable pem_EncodeToMemory : pem.Block -> bytes.
Variable net : network.

(** X1.  When the envelope parses and the payload, parsed or not, carries
    no header, the decoder dereferences nil at
    [payload.Header.ChannelHeader]: it panics and returns no record. *)
Theorem missing_header_nil_dereference pl blockNum idx metadata envelope :
  proto_Unmarshal Envelope pl = (envelope, None) ->
  Payload_Header (fst (proto_Unmarshal Payload (Envelope_Payload envelope))) = None ->
  DecodeEventBlock pl blockNum idx metadata = Panic nil_dereference.
Proof.
  intros He Hp. apply header_fault. unfold header_stages. rewrite He, Hp. reflexivity.
Qed.

(** X2.  For a transaction of another type than endorser transaction that
    passes the header stages, with the validation flags covering its
    position, the decoder returns the record of stage 5: the
    identification fields, the error of stage 2 if there was one, and
    neither arguments nor events. *)
Theorem other_types_stop_at_stage5 pl blockNum idx metadata payload header ex flag :
  header_stages pl = Done (payload, header, ex) ->
  ChannelHeader_Type header <> HeaderType_ENDORSER_TRANSACTION ->
  validation_flag metadata idx = Some flag ->
  exists r,
    DecodeEventBlock pl blockNum idx metadata = Return r /\
    identified r blockNum idx header ex flag /\
    Error r = payload_error pl /\ ChainCodeInput r = [] /\ CCEvents r = [].
Proof.
  intros Hh Ht Hv.
  pose proof (decode_outcome _ blockNum idx metadata _ _ _ _ Hh Hv) as Ho.
  destruct (DecodeEventBlock pl blockNum idx metadata) as [r|p] eqn:Hd.
  - exists r. split; [reflexivity|].
    destruct (decode_done _ _ _ _ _ _ _ _ Hh Hd) as (flag' & Hv' & Hid & Hs).
    rewrite Hv in Hv'. inv Hv'.
    apply Z.eqb_neq in Ht. rewrite Ht in Hs. split; assumption.
  - destruct Ho as [Ht' _]. contradiction.
Qed.

(** X3.  Past the header stages, when the metadata has no entry at the
    index of the validation flags or the flags do not cover the
    position, the decoder panics on the index and returns no record. *)
Theorem uncovered_position_faults pl blockNum idx metadata payload header ex :
  header_stages pl = Done (payload, header, ex) ->
  validation_flag metadata idx = None ->
  exists i n, DecodeEventBlock pl blockNum idx metadata = Panic (index_out_of_range i n).
Proof.
  intros Hh Hv.
  destruct (DecodeEventBlock pl blockNum idx metadata) as [r|p] eqn:Hd.
  - destruct (decode_done _ _ _ _ _ _ _ _ Hh Hd) as (flag & Hv' & _). congruence.
  - revert Hd. unfold header_stages, DecodeEventBlock in *.
    destruct (proto_Unmarshal Envelope pl) as [envelope [e1|]]; [discriminate|].
    destruct (proto_Unmarshal Payload (Envelope_Payload envelope)) as [payload' perr].
    cbn [fst snd return_on bind deref] in *.
    destruct (Payload_Header payload') as [h|]; [|discriminate].
    cbn [fst snd return_on bind deref] in *.
    destruct (proto_Unmarshal ChannelHeader (Header_ChannelHeader h))
      as [header' [e3|]]; [discriminate|].
    cbn [fst snd return_on bind deref] in *.
    destruct (proto_Unmarshal ChaincodeHeaderExtension (ChannelHeader_Extension header'))
      as [ex' [e4|]]; [discriminate|].
    cbn [fst snd return_on bind deref] in *.
    unfold validation_flag in Hv. unfold util.IsValid, index.
    change (Z.to_nat BlockMetadataIndex_TRANSACTIONS_FILTER) with 2%nat in *.
    change (BlockMetadataIndex_TRANSACTIONS_FILTER <? 0) with false.
    cbn iota.
    destruct (nth_error metadata 2) as [flags|].
    + cbn [eval bind]. destruct (idx <? 0).
      * cbn [eval bind body]. intros Hd. inv Hd. eauto.
      * rewrite Hv. cbn [eval bind body]. intros Hd. inv Hd. eauto.
    + cbn [eval bind body]. intros Hd. inv Hd. eauto.
Qed.

(** X4.  The reader ignores every message that is not a block message:
    it sends nothing for it and goes on receiving. *)
Theorem other_messages_ignored (e : eventHub) (in_ : Event) (stream : list recv) :
  client e <> None ->
  (forall ob, Event_Event in_ <> Some (Event_Block ob)) ->
  readBlock (PrivateKey := PrivateKey) e (Recv_ok in_ :: stream) = readBlock e stream.
Proof.
  intros Hc Hn. cbn [readBlock]. destruct (client e) as [c|] eqn:Hcl; [|congruence].
  unfold readBlock_turn.
  destruct (Event_Event in_) as [[reg|blk| | |]|];
    try (destruct (readBlock e stream); reflexivity).
  exfalso. exact (Hn blk eq_refl).
Qed.

(** X5.  When connecting and registering succeed, [newEventListener]
    returns nil and its last effect is to start one reader on the
    connected hub. *)
Theorem subscription_starts_one_reader (p : Peer) (identity : Identity PrivateKey)
        (mspId : string) tc hub p' tr :
  connect (PrivateKey := PrivateKey) net eventHub_zero p = (tc, Return (hub, p', None)) ->
  register pem_EncodeToMemory hub mspId identity = (tr, Return None) ->
  newEventListener pem_EncodeToMemory net p identity mspId =
  (tc ++ tr ++ [Go_readBlock hub], Return None).
Proof.
  unfold newEventListener, eventHub_zero, act_body. intros Hc Hr.
  rewrite Hc. cbn [eval act_bind return_err pure app fst snd body]. rewrite Hr.
  reflexivity.
Qed.

End Further.

(** ** More on the decoder *)

Section MoreDecoder.

Context {protos : Protos}.

(** X6.  A record without an error is a complete one: it comes from an
    entry that passed the header stages and whose payload parsed, it
    carries the block height and position it was decoded at with the
    other fields of stage 5, and for an endorser transaction it has
    exactly one event. *)
Theorem error_free_record_is_complete pl blockNum idx metadata r :
  DecodeEventBlock pl blockNum idx metadata = Return r ->
  Error r = None ->
  exists payload header ex flag,
    header_stages pl = Done (payload, header, ex) /\
    payload_error pl = None /\
    validation_flag metadata idx = Some flag /\
    identified r blockNum idx header ex flag /\
    (ChannelHeader_Type header = HeaderType_ENDORSER_TRANSACTION ->
     List.length (CCEvents r) = 1%nat).
Proof.
  intros Hd He.
  destruct (header_stages pl) as [|e|[[payload header] ex]] eqn:Hh.
  - rewrite (header_fault _ blockNum idx metadata Hh) in Hd. discriminate.
  - rewrite (header_failed _ blockNum idx metadata _ Hh) in Hd. inv Hd. discriminate.
  - destruct (decode_done _ _ _ _ _ _ _ _ Hh Hd) as (flag & Hv & Hid & Hs).
    exists payload, header, ex, flag.
    destruct (ChannelHeader_Type header =? HeaderType_ENDORSER_TRANSACTION) eqn:Ht.
    + destruct (endorser_stages payload) as [|e|[[cis ca] ev]]; [contradiction| |].
      * destruct Hs as [Hs _]. congruence.
      * destruct Hs as (Hs & _ & Hev).
        split; [reflexivity|]. split; [congruence|]. split; [exact Hv|].
        split; [exact Hid|]. intros _. rewrite Hev. reflexivity.
    + destruct Hs as (Hs & _ & _).
      split; [reflexivity|]. split; [congruence|]. split; [exact Hv|].
      split; [exact Hid|]. intros Habs. apply Z.eqb_neq in Ht. contradiction.
Qed.

(** X7.  No record has more than one event, and a record that has one is
    the record of an endorser transaction that passed every stage: its
    error, if any, is the payload's. *)
Theorem at_most_one_event pl blockNum idx metadata r :
  DecodeEventBlock pl blockNum idx metadata = Return r ->
  (List.length (CCEvents r) <= 1)%nat /\
  (CCEvents r <> [] ->
   Error r = payload_error pl /\
   exists payload header ex cis ca ev,
     header_stages pl = Done (payload, header, ex) /\
     ChannelHeader_Type header = HeaderType_ENDORSER_TRANSACTION /\
     endorser_stages payload = Done (cis, ca, ev)).
Proof.
  intros Hd.
  destruct (header_stages pl) as [|e|[[payload header] ex]] eqn:Hh.
  - rewrite (header_fault _ blockNum idx metadata Hh) in Hd. discriminate.
  - rewrite (header_failed _ blockNum idx metadata _ Hh) in Hd. inv Hd.
    split; [cbn; lia | intros H; exfalso; apply H; reflexivity].
  - destruct (decode_done _ _ _ _ _ _ _ _ Hh Hd) as (flag & Hv & Hid & Hs).
    destruct (Z.eqb_spec (ChannelHeader_Type header) HeaderType_ENDORSER_TRANSACTION)
      as [Ht|Ht].
    + destruct (endorser_stages payload) as [|e|[[cis ca] ev]] eqn:He; [contradiction| |].
      * destruct Hs as [_ Hev]. rewrite Hev.
        split; [cbn; lia | intros H; exfalso; apply H; reflexivity].
      * destruct Hs as (Herr & _ & Hev). rewrite Hev.
        split; [cbn; lia|]. intros _. split; [exact Herr|].
        exists payload, header, ex, cis, ca, ev. repeat split; assumption.
    + destruct Hs as (_ & _ & Hev). rewrite Hev.
      split; [cbn; lia | intros H; exfalso; apply H; reflexivity].
Qed.

(** X8.  Of the block metadata the decoder reads the validation flags and
    nothing else: with the same flags array at index 2, any two metadata
    give the same result. *)
Theorem decoder_reads_only_flags pl blockNum idx metadata metadata' flags :
  nth_error metadata 2 = Some flags ->
  nth_error metadata' 2 = Some flags ->
  DecodeEventBlock pl blockNum idx metadata = DecodeEventBlock pl blockNum idx metadata'.
Proof.
  intros H1 H2.
  assert (Hi : forall md, nth_error md 2 = Some flags ->
                          index md 2 = Return flags /\
                          index md BlockMetadataIndex_TRANSACTIONS_FILTER = Return flags).
  { intros md H. split; apply index_Return; split; try exact H; discriminate. }
  destruct (Hi _ H1) as [Ha Hb]. destruct (Hi _ H2) as [Ha' Hb'].
  unfold DecodeEventBlock.
  destruct (proto_Unmarshal Envelope pl) as [envelope [e1|]]; [reflexivity|].
  destruct (proto_Unmarshal Payload (Envelope_Payload envelope)) as [payload perr].
  cbn [fst snd return_on bind deref].
  destruct (Payload_Header payload) as [h|]; [|reflexivity].
  cbn [fst snd return_on bind deref].
  destruct (proto_Unmarshal ChannelHeader (Header_ChannelHeader h)) as [header [e3|]];
    [reflexivity|].
  cbn [fst snd return_on bind deref].
  destruct (proto_Unmarshal ChaincodeHeaderExtension (ChannelHeader_Extension header))
    as [ex [e4|]]; [reflexivity|].
  cbn [fst snd return_on bind deref].
  rewrite Hb, Hb'. cbn [eval bind].
  destruct (util.IsValid flags idx) as [valid|p]; [|reflexivity].
  cbn [eval bind]. rewrite Ha, Ha'. reflexivity.
Qed.

(** What a record of an endorser transaction holds of the invocation
    spec. *)
Lemma record_input pl blockNum idx metadata payload header ex r :
  header_stages pl = Done (payload, header, ex) ->
  ChannelHeader_Type header = HeaderType_ENDORSER_TRANSACTION ->
  DecodeEventBlock pl blockNum idx metadata = Return r ->
  match input_stages payload with
  | Done (_, cis) =>
    exists input, GetInput (GetChaincodeSpec cis) = Some input /\
                  ChainCodeInput r = ChaincodeInput_Args input
  | Failed e => Error r = Some e /\ ChainCodeInput r = [] /\ CCEvents r = []
  | Fault => False
  end.
Proof.
  unfold header_stages, DecodeEventBlock. intros Hh Ht Hd.
  destruct (proto_Unmarshal Envelope pl) as [envelope [e1|]]; [discriminate|].
  destruct (proto_Unmarshal Payload (Envelope_Payload envelope)) as [payload' perr].
  cbn [fst snd return_on bind deref] in *.
  destruct (Payload_Header payload') as [h|]; [|discriminate].
  cbn [fst snd return_on bind deref] in *.
  destruct (proto_Unmarshal ChannelHeader (Header_ChannelHeader h)) as [header' [e3|]];
    [discriminate|].
  cbn [fst snd return_on bind deref] in *.
  destruct (proto_Unmarshal ChaincodeHeaderExtension (ChannelHeader_Extension header'))
    as [ex' [e4|]]; [discriminate|].
  inv Hh. cbn [fst snd return_on bind deref] in *.
  unfold input_stages.
  destruct (index metadata BlockMetadataIndex_TRANSACTIONS_FILTER) as [flags|];
    [|discriminate Hd].
  cbn [eval bind] in Hd.
  destruct (util.IsValid flags idx) as [valid|];
    [|cbn [body bind eval] in Hd; discriminate Hd].
  cbn [eval bind] in Hd.
  destruct (index metadata 2) as [flags'|]; [|discriminate Hd].
  cbn [eval bind] in Hd.
  destruct (index flags' idx) as [status|];
    [|cbn [body bind eval] in Hd; discriminate Hd].
  cbn [eval bind] in Hd.
  match type of Hd with
  | context [set_Status ?s ?x] => remember (set_Status s x) as r5 eqn:Hr5
  end.
  assert (H5 : ChainCodeInput r5 = [] /\ CCEvents r5 = []).
  { subst r5. destruct perr, (ChaincodeHeaderExtension_ChaincodeId ex); fields;
      split; reflexivity. }
  clear Hr5. destruct H5 as [Hin Hev].
  rewrite Ht, Z.eqb_refl in Hd.
  run_in Hd.
  all: cbn [body] in Hd; try discriminate Hd.
  all: inv Hd; fields; eauto.
Qed.

(** X9.  For an endorser transaction past the header stages, a record
    carries the invocation arguments as soon as the invocation spec has
    parsed, whether the later stages fail or not: they are the arguments
    of the input of the spec's chaincode spec.  When a stage up to the
    invocation spec fails, the record carries that error and neither
    arguments nor events. *)
Theorem invocation_args_kept pl blockNum idx metadata payload header ex r :
  header_stages pl = Done (payload, header, ex) ->
  ChannelHeader_Type header = HeaderType_ENDORSER_TRANSACTION ->
  DecodeEventBlock pl blockNum idx metadata = Return r ->
  match input_stages payload with
  | Done (_, cis) =>
    forall input, GetInput (GetChaincodeSpec cis) = Some input ->
                  ChainCodeInput r = ChaincodeInput_Args input
  | Failed e => Error r = Some e /\ ChainCodeInput r = [] /\ CCEvents r = []
  | Fault => False
  end.
Proof.
  intros Hh Ht Hd.
  pose proof (record_input _ _ _ _ _ _ _ _ Hh Ht Hd) as H.
  destruct (input_stages payload) as [|e|[cap cis]]; [exact H|exact H|].
  intros input Hi. destruct H as (input' & Hi' & ->). congruence.
Qed.

(** X10.  A payload whose unmarshalling fails after its header and data
    were read does not lose the transaction: when every later stage
    passes and the invocation spec has its input, the decoder returns the
    complete record, arguments and event included, with the payload's
    error in it. *)
Theorem payload_error_survives pl blockNum idx metadata payload header ex
        cis ca ev input flag e :
  header_stages pl = Done (payload, header, ex) ->
  ChannelHeader_Type header = HeaderType_ENDORSER_TRANSACTION ->
  endorser_stages payload = Done (cis, ca, ev) ->
  GetInput (GetChaincodeSpec cis) = Some input ->
  validation_flag metadata idx = Some flag ->
  payload_error pl = Some e ->
  exists r,
    DecodeEventBlock pl blockNum idx metadata = Return r /\
    Error r = Some e /\
    identified r blockNum idx header ex flag /\
    ChainCodeInput r = ChaincodeInput_Args input /\
    CCEvents r = [{| EventName := ChaincodeEvent_EventName ev;
                     EventPayload := ChaincodeEvent_Payload ev |}].
Proof.
  intros Hh Ht He Hi Hv Hp.
  pose proof (decode_outcome _ blockNum idx metadata _ _ _ _ Hh Hv) as Ho.
  destruct (DecodeEventBlock pl blockNum idx metadata) as [r|p] eqn:Hd.
  - exists r. split; [reflexivity|].
    destruct (decode_done _ _ _ _ _ _ _ _ Hh Hd) as (flag' & Hv' & Hid & Hs).
    rewrite Hv in Hv'. inv Hv'.
    rewrite Ht, Z.eqb_refl, He in Hs. destruct Hs as (Herr & Hin & Hev).
    rewrite Hp in Herr. destruct Hin as (input' & Hi' & Hin).
    rewrite Hi in Hi'. inv Hi'.
    split; [exact Herr|]. split; [exact Hid|]. split; assumption.
  - destruct Ho as [_ Hf]. rewrite He in Hf. discriminate.
Qed.

(** X25.  An endorser transaction whose invocation spec parses and has no
    chaincode spec, or a chaincode spec without input, makes the decoder
    panic: past the header stages and with the flags covering the
    position, reading the arguments dereferences the nil input and no
    record is returned. *)
Theorem missing_input_nil_dereference pl blockNum idx metadata payload header ex
        cap cis flag :
  header_stages pl = Done (payload, header, ex) ->
  ChannelHeader_Type header = HeaderType_ENDORSER_TRANSACTION ->
  validation_flag metadata idx = Some flag ->
  input_stages payload = Done (cap, cis) ->
  GetInput (GetChaincodeSpec cis) = None ->
  DecodeEventBlock pl blockNum idx metadata = Panic nil_dereference.
Proof.
  unfold header_stages, DecodeEventBlock. intros Hh Ht Hv Hi Hn.
  destruct (proto_Unmarshal Envelope pl) as [envelope [e1|]]; [discriminate|].
  destruct (proto_Unmarshal Payload (Envelope_Payload envelope)) as [payload' perr].
  cbn [fst snd return_on bind deref] in *.
  destruct (Payload_Header payload') as [h|]; [|discriminate].
  cbn [fst snd return_on bind deref] in *.
  destruct (proto_Unmarshal ChannelHeader (Header_ChannelHeader h)) as [header' [e3|]];
    [discriminate|].
  cbn [fst snd return_on bind deref] in *.
  destruct (proto_Unmarshal ChaincodeHeaderExtension (ChannelHeader_Extension header'))
    as [ex' [e4|]]; [discriminate|].
  inv Hh. cbn [fst snd return_on bind deref] in *.
  unfold validation_flag in Hv. unfold util.IsValid.
  change (index metadata 2) with (index metadata BlockMetadataIndex_TRANSACTIONS_FILTER).
  destruct (nth_error metadata (Z.to_nat BlockMetadataIndex_TRANSACTIONS_FILTER))
    as [flags|] eqn:Hm; [|discriminate].
  destruct (Z.ltb_spec idx 0) as [|Hge]; [discriminate|].
  assert (Hm' : index metadata BlockMetadataIndex_TRANSACTIONS_FILTER = Return flags)
    by (apply index_Return; split; [discriminate | exact Hm]).
  assert (Hf : index flags idx = Return flag) by (apply index_Return; auto).
  rewrite Hm'. cbn [eval bind]. rewrite Hf. cbn [eval bind].
  rewrite Ht, Z.eqb_refl.
  unfold input_stages in Hi.
  repeat
    (match type of Hi with
     | context [proto_Unmarshal ?M ?b] =>
       destruct (proto_Unmarshal M b) as [? [?|]]; [discriminate Hi|]
     | context [match Transaction_Actions ?tx with _ => _ end] =>
       destruct (Transaction_Actions tx); [discriminate Hi|]
     end;
     unfold index;
     cbn [Z.ltb Z.compare Z.to_nat nth_error List.length body bind return_on deref
          eval fst snd]).
  inv Hi.
  rewrite Hn. reflexivity.
Qed.

End MoreDecoder.

(** ** More on the stream reader *)

Section MoreReader.

Variable PrivateKey : Type.
Context {protos : Protos}.

Lemma deliver_only_sends in_ meta data :
  forall i (t : list (effect PrivateKey)) f,
    deliver PrivateKey in_ meta i data = (t, f) -> only_sends t.
Proof.
  induction data as [|bd data IH]; intros i t f H.
  - inv H. constructor.
  - cbn [deliver] in H.
    destruct (GetHeader (GetBlock in_)) as [h|]; [|inv H; constructor].
    cbn [deref pure act_bind app] in H.
    destruct (DecodeEventBlock bd (BlockHeader_Number h) i meta) as [r|p];
      [|inv H; constructor].
    cbn [eval pure emit act_bind app] in H.
    destruct (deliver PrivateKey in_ meta (i + 1) data) as [t' f'] eqn:Hrest.
    apply IH in Hrest.
    assert (Ht : t = ChanSend r :: t') by (destruct f'; inv H; reflexivity).
    subst t. constructor; [eexists; reflexivity | exact Hrest].
Qed.

Lemma turn_only_sends (e : eventHub) in_ (t : list (effect PrivateKey)) f :
  readBlock_turn PrivateKey e (Recv_ok in_) = (t, f) -> only_sends t.
Proof.
  unfold readBlock_turn. intros H.
  destruct (Event_Event in_) as [[reg|blk| | |]|]; try (inv H; constructor).
  destruct (GetBlock in_) as [b|]; [|inv H; constructor].
  cbn [deref pure act_bind app] in H.
  destruct (Block_Metadata b) as [m|]; [|inv H; constructor].
  cbn [deref pure act_bind app] in H.
  destruct (Block_Data b) as [d|]; [|inv H; constructor].
  cbn [deref pure act_bind app] in H.
  destruct (deliver PrivateKey in_ (BlockMetadata_Metadata m) 0 (BlockData_Data d))
    as [t' f'] eqn:Hdel.
  apply deliver_only_sends in Hdel.
  assert (Ht : t = t') by (destruct f'; inv H; reflexivity).
  subst t. exact Hdel.
Qed.

(** What a read error does, whatever comes after it. *)
Lemma turn_on_error (e : eventHub) (err : error) (stream : list recv) :
  readBlock (PrivateKey := PrivateKey) e (Recv_err err :: stream) =
  match client e, connection e with
  | None, _ => ([], Crashed nil_dereference)
  | Some _, None =>
    ((if error_eqb err io_EOF then []
      else [ChanSend (BlockEventResponse_Error err)]) ++ [CloseSend],
     Crashed nil_dereference)
  | Some _, Some _ =>
    ((if error_eqb err io_EOF then []
      else [ChanSend (BlockEventResponse_Error err)]) ++ [CloseSend; ConnectionClose],
     Returned)
  end.
Proof.
  cbn [readBlock]. unfold readBlock_turn, disconnect, act_bind, emit, pure, deref.
  destruct (client e), (connection e), (error_eqb err io_EOF); reflexivity.
Qed.

(** X11.  The reader stops at the first read error: what the stream
    would yield after it is never read, so nothing is sent and nothing is
    closed on its account. *)
Theorem reader_stops_at_first_error (e : eventHub) (pre post : list recv) (err : error) :
  readBlock (PrivateKey := PrivateKey) e (pre ++ Recv_err err :: post) =
  readBlock e (pre ++ [Recv_err err]).
Proof.
  rewrite !readBlock_app, !turn_on_error. reflexivity.
Qed.

(** A reader that is still receiving has only sent records. *)
Lemma receiving_only_sends (e : eventHub) (stream : list recv)
      (t : list (effect PrivateKey)) :
  readBlock e stream = (t, Receiving) -> only_sends t.
Proof.
  revert t. induction stream as [|x stream IH]; intros t H.
  - cbn [readBlock] in H. destruct (client e); inv H. constructor.
  - destruct x as [in_|err].
    + cbn [readBlock] in H. destruct (client e); [|discriminate].
      destruct (readBlock_turn PrivateKey e (Recv_ok in_)) as [t1 f] eqn:Ht.
      pose proof (turn_only_sends _ _ _ _ Ht) as H1.
      destruct f as [[]|[]|p]; try discriminate.
      destruct (readBlock e stream) as [t2 st2] eqn:Hr. inv H.
      apply Forall_app. split; [exact H1 | exact (IH _ eq_refl)].
    + rewrite turn_on_error in H.
      destruct (client e), (connection e); discriminate.
Qed.

(** X12.  The connection is closed exactly when the reader returns, and
    then once, as its last effect after closing the stream; until then a
    reader does nothing but send on the response channel, and a reader
    that crashes leaves the connection open. *)
Theorem reader_closes_only_on_return (e : eventHub) (stream : list recv)
        (t : list (effect PrivateKey)) (st : reader) :
  readBlock e stream = (t, st) ->
  match st with
  | Receiving => only_sends t
  | Returned => exists t0, t = t0 ++ [CloseSend; ConnectionClose] /\ only_sends t0
  | Crashed _ => ~ In ConnectionClose t
  end.
Proof.
  revert t st. induction stream as [|x stream IH]; intros t st H.
  - cbn [readBlock] in H. destruct (client e); inv H; [constructor | intros []].
  - destruct x as [in_|err].
    + cbn [readBlock] in H. destruct (client e); [|inv H; intros []].
      destruct (readBlock_turn PrivateKey e (Recv_ok in_)) as [t1 f] eqn:Ht.
      pose proof (turn_only_sends _ _ _ _ Ht) as H1.
      pose proof (turn_entries _ _ _ _ _ Ht) as H2.
      assert (Hno : ~ In ConnectionClose t1).
      { intros Hin. unfold only_sends in H1. rewrite Forall_forall in H1.
        destruct (H1 _ Hin) as [r Hr]. discriminate. }
      destruct f as [[]|[]|p]; [|contradiction|inv H; exact Hno].
      destruct (readBlock e stream) as [t2 st2] eqn:Hr. inv H.
      specialize (IH _ _ eq_refl). destruct st.
      * apply Forall_app. split; assumption.
      * destruct IH as (t0 & -> & H0). exists (t1 ++ t0).
        split; [apply app_assoc | apply Forall_app; split; assumption].
      * intros Hin. apply in_app_or in Hin. destruct Hin; contradiction.
    + rewrite turn_on_error in H.
      destruct (client e), (connection e); inv H; try (intros []).
      * eexists. split; [reflexivity|].
        destruct (error_eqb err io_EOF); repeat constructor. eexists; reflexivity.
      * intros Hin. apply in_app_or in Hin. destruct Hin as [Hin|[Hin|[]]].
        -- destruct (error_eqb err io_EOF); [destruct Hin|].
           destruct Hin as [Hin|[]]. discriminate.
        -- discriminate.
Qed.

(** X13.  A block message that lacks its block, its metadata or its data,
    or that has data entries and no header, crashes the reader on a nil
    dereference before anything is sent for it. *)
Theorem incomplete_block_crashes (e : eventHub) (in_ : Event) (ob : option Block)
        (stream : list recv) :
  client e <> None ->
  Event_Event in_ = Some (Event_Block ob) ->
  (ob = None \/
   exists b, ob = Some b /\
             (Block_Metadata b = None \/ Block_Data b = None \/
              (Block_Header b = None /\
               exists d bd rest, Block_Data b = Some d /\
                                 BlockData_Data d = bd :: rest))) ->
  readBlock (PrivateKey := PrivateKey) e (Recv_ok in_ :: stream) =
  ([], Crashed nil_dereference).
Proof.
  intros Hc He Hbad. cbn [readBlock]. destruct (client e); [|congruence].
  unfold readBlock_turn. rewrite He.
  assert (Hg : GetBlock in_ = ob) by (unfold GetBlock; rewrite He; reflexivity).
  rewrite Hg.
  destruct Hbad as [->|(b & -> & Hb)]; [reflexivity|].
  cbn [deref pure act_bind app].
  destruct (Block_Metadata b) as [m|]; [|reflexivity].
  cbn [deref pure act_bind app].
  destruct Hb as [Hb|[Hb|(Hh & d & bd & rest & Hd & Hdata)]]; [discriminate| |].
  - rewrite Hb. reflexivity.
  - rewrite Hd. cbn [deref pure act_bind app]. rewrite Hdata.
    cbn [deliver]. rewrite Hg. cbn [GetHeader]. rewrite Hh. reflexivity.
Qed.

(** The reader gets through the messages it can walk and decode. *)
Lemma gets_through (e : eventHub) (ins : list Event) :
  client e <> None ->
  Forall walkable ins ->
  Forall decodes (stream_entries ins) ->
  exists t : list (effect PrivateKey), readBlock e (map Recv_ok ins) = (t, Receiving).
Proof.
  intros Hc Hw Hall. induction ins as [|in_ ins IH].
  - exists []. cbn [map readBlock]. destruct (client e); congruence.
  - inv Hw. cbn [stream_entries flat_map] in Hall.
    apply Forall_app in Hall. destruct Hall as [Hin Hrest].
    destruct (turn_total PrivateKey e _ H1 Hin) as [t1 Ht1].
    destruct (IH H2 Hrest) as [t2 Ht2].
    exists (t1 ++ t2). cbn [map readBlock].
    destruct (client e); [|congruence]. rewrite Ht1, Ht2. reflexivity.
Qed.

End MoreReader.

(** ** Connecting *)

Section Connecting.

Variable PrivateKey : Type.
Variable net : network.

(** What [connect] leaves, by outcome. *)
Lemma connect_cases (e : eventHub) (p : Peer) :
  let p' := {| Uri := Uri p; Opts := Opts p ++ connect_options |} in
  let conn := {| grpc.ClientConn_target := Uri p |} in
  (exists err,
      grpc_Dial net (Uri p) (Opts p') = Some err /\
      connect (PrivateKey := PrivateKey) net e p =
      ([Dial (Uri p) (Opts p')], Return (e, p', Some err))) \/
  (exists err,
      grpc_Dial net (Uri p) (Opts p') = None /\ Events_Chat net conn = Some err /\
      connect (PrivateKey := PrivateKey) net e p =
      ([Dial (Uri p) (Opts p'); Chat conn],
       Return ({| connection := Some conn; client := client e |}, p', Some err))) \/
  (grpc_Dial net (Uri p) (Opts p') = None /\ Events_Chat net conn = None /\
   connect (PrivateKey := PrivateKey) net e p =
   ([Dial (Uri p) (Opts p'); Chat conn],
    Return ({| connection := Some conn; client := Some (chat_client net conn) |},
            p', None))).
Proof.
  cbv zeta. unfold connect, connect_options, act_body, act_bind, emit, pure.
  cbn [Uri Opts].
  destruct (grpc_Dial net _ _) as [err|].
  - left. exists err. split; reflexivity.
  - destruct (Events_Chat net _) as [err|].
    + right. left. exists err. repeat split.
    + right. right. repeat split.
Qed.

(** X14.  What [connect] leaves when it returns.  The peer has the three
    dial options appended.  With no error the hub holds a connection and
    a stream, so that [disconnect] closes the stream and then the
    connection without fault; with an error the hub's stream is the one
    it had before, nothing was closed, and if the failure was the
    dialling the hub is unchanged. *)
Theorem connect_result (e e' : eventHub) (p p' : Peer) (t : list (effect PrivateKey))
        (err : option error) :
  connect net e p = (t, Return (e', p', err)) ->
  p' = {| Uri := Uri p; Opts := Opts p ++ connect_options |} /\
  match err with
  | None =>
    disconnect (PrivateKey := PrivateKey) (R := unit) e' =
      ([CloseSend; ConnectionClose], Next tt)
  | Some _ =>
    client e' = client e /\ ~ In ConnectionClose t /\
    (grpc_Dial net (Uri p) (Opts p ++ connect_options) <> None -> e' = e)
  end.
Proof.
  intros H.
  destruct (connect_cases e p) as [(err' & Hd & Hc)|[(err' & Hd & Hch & Hc)|(Hd & Hch & Hc)]];
    cbv zeta in Hc, Hd; cbn [Uri Opts] in Hd; rewrite Hc in H; inv H.
  - split; [reflexivity|]. split; [reflexivity|].
    split; [intros [Hin|[]]; discriminate | reflexivity].
  - split; [reflexivity|]. split; [reflexivity|].
    split; [intros [Hin|[Hin|[]]]; discriminate | congruence].
  - split; reflexivity.
Qed.

(** X15.  [connect] appends its three dial options to the peer's own each
    time it is called: connecting a second time with the peer that the
    first call left dials with the options added twice. *)
Theorem connect_accumulates_options (e e1 e2 : eventHub) (p p1 p2 : Peer)
        (t1 t2 : list (effect PrivateKey)) (err1 err2 : option error) :
  connect net e p = (t1, Return (e1, p1, err1)) ->
  connect net e1 p1 = (t2, Return (e2, p2, err2)) ->
  Opts p2 = Opts p ++ connect_options ++ connect_options /\
  In (Dial (Uri p) (Opts p ++ connect_options ++ connect_options)) t2 /\
  List.length (Opts p2) = (List.length (Opts p) + 6)%nat.
Proof.
  intros H1 H2.
  assert (Hp1 : p1 = {| Uri := Uri p; Opts := Opts p ++ connect_options |}).
  { destruct (connect_cases e p)
      as [(err & _ & Hc)|[(err & _ & _ & Hc)|(_ & _ & Hc)]];
      cbv zeta in Hc; rewrite Hc in H1; inv H1; reflexivity. }
  subst p1.
  assert (Hp2 : p2 = {| Uri := Uri p;
                        Opts := (Opts p ++ connect_options) ++ connect_options |} /\
                In (Dial (Uri p) ((Opts p ++ connect_options) ++ connect_options)) t2).
  { destruct (connect_cases e1 {| Uri := Uri p; Opts := Opts p ++ connect_options |})
      as [(err & _ & Hc)|[(err & _ & _ & Hc)|(_ & _ & Hc)]];
      cbv zeta in Hc; cbn [Uri Opts] in Hc; rewrite Hc in H2; inv H2;
        (split; [reflexivity | left; reflexivity]). }
  destruct Hp2 as [-> Hin]. cbn [Opts]. rewrite <- app_assoc in *.
  split; [reflexivity|]. split; [exact Hin|].
  rewrite !length_app. cbn. lia.
Qed.

End Connecting.

(** ** More on registration and subscription *)

Section MoreHub.

Variable PrivateKey : Type.
Context {crypto : CryptoSuite PrivateKey} {marshals : Marshals} {protos : Protos}.
Variable pem_EncodeToMemory : pem.Block -> bytes.
Variable net : network.

(** What [register] does, by outcome. *)
Lemma register_outcomes (e : eventHub) (mspId : string) (identity : Identity PrivateKey)
      (t : list (effect PrivateKey)) (o : outcome (option error)) :
  register pem_EncodeToMemory e mspId identity = (t, o) ->
  (t = [] /\ exists err, o = Return (Some err)) \/
  (exists evtBytes,
      t = [SignCall evtBytes (Identity_PrivateKey identity)] /\
      ((exists err, snd (Sign evtBytes (Identity_PrivateKey identity)) = Some err /\
                    o = Return (Some err)) \/
       (snd (Sign evtBytes (Identity_PrivateKey identity)) = None /\
        client e = None /\ o = Panic nil_dereference))) \/
  (exists evtBytes sb c,
      Sign evtBytes (Identity_PrivateKey identity) = (sb, None) /\
      client e = Some c /\
      t = [SignCall evtBytes (Identity_PrivateKey identity);
           ClientSend {| SignedEvent_Signature := sb;
                         SignedEvent_EventBytes := evtBytes |}] /\
      o = Return (Send c {| SignedEvent_Signature := sb;
                            SignedEvent_EventBytes := evtBytes |})).
Proof.
  unfold register, act_body, act_bind, return_err, emit, pure, deref. intros H.
  destruct (proto_Marshal _) as [creator [err|]] in H; [inv H; left; eauto|].
  destruct (proto_Marshal _) as [evtBytes [err|]] in H; [inv H; left; eauto|].
  cbn [app] in H. right.
  destruct (Sign evtBytes (Identity_PrivateKey identity)) as [sb [err|]] eqn:Hs.
  - inv H. left. exists evtBytes. split; [reflexivity|]. left. exists err.
    rewrite Hs. auto.
  - destruct (client e) as [c|] eqn:Hc.
    + right. exists evtBytes, sb, c.
      destruct (Send c _) as [err|] eqn:Hsend; inv H; rewrite ?Hsend; auto.
    + inv H. left. exists evtBytes. split; [reflexivity|]. right.
      rewrite Hs. auto.
Qed.

(** X16.  Whatever its outcome, [register] sends at most one event and
    never an unsigned one: an event goes out only after [Sign] was called
    on its very bytes and returned its signature without error; when
    marshalling or signing fails nothing is sent. *)
Theorem register_never_sends_unsigned (e : eventHub) (mspId : string)
        (identity : Identity PrivateKey) (t : list (effect PrivateKey))
        (o : outcome (option error)) :
  register pem_EncodeToMemory e mspId identity = (t, o) ->
  (forall ev, ~ In (ClientSend ev) t) \/
  exists evtBytes sb,
    Sign evtBytes (Identity_PrivateKey identity) = (sb, None) /\
    t = [SignCall evtBytes (Identity_PrivateKey identity);
         ClientSend {| SignedEvent_Signature := sb;
                       SignedEvent_EventBytes := evtBytes |}].
Proof.
  intros H. destruct (register_outcomes _ _ _ _ _ H)
    as [[-> _]|[(b & -> & _)|(b & sb & c & Hs & _ & -> & _)]].
  - left. intros ev [].
  - left. intros ev [Hin|[]]. discriminate.
  - right. exists b, sb. auto.
Qed.

(** X17.  [newEventListener] never closes what it opened: whatever its
    outcome, its effects contain no [CloseSend] and no connection
    [Close], so after a failed [Chat] or a failed registration the
    dialled connection stays open. *)
Theorem newEventListener_never_closes (p : Peer) (identity : Identity PrivateKey)
        (mspId : string) (t : list (effect PrivateKey)) (o : outcome (option error)) :
  newEventListener pem_EncodeToMemory net p identity mspId = (t, o) ->
  ~ In CloseSend t /\ ~ In ConnectionClose t.
Proof.
  unfold newEventListener, act_body. intros H.
  destruct (connect_cases PrivateKey net {| connection := None; client := None |} p)
    as [(err & _ & Hc)|[(err & _ & _ & Hc)|(_ & _ & Hc)]];
    cbv zeta in Hc; rewrite Hc in H;
    cbn [eval act_bind return_err pure app fst snd body] in H.
  - inv H. split; intros [Hin|[]]; discriminate.
  - inv H. split; intros [Hin|[Hin|[]]]; discriminate.
  - destruct (register pem_EncodeToMemory _ mspId identity) as [tr orr] eqn:Hr.
    destruct (register_outcomes _ _ _ _ _ Hr)
      as [[-> (err & ->)]|[(b & -> & Hb)|(b & sb & c & Hs & Hcl & -> & ->)]].
    + cbn in H. inv H.
      split; intros [Hin|[Hin|[]]]; discriminate.
    + destruct Hb as [(err & _ & ->)|(_ & Habs & _)]; [|discriminate].
      cbn in H. inv H.
      split; intros [Hin|[Hin|[Hin|[]]]]; discriminate.
    + cbn [eval act_bind return_err pure app fst snd body] in H.
      destruct (Send c _) as [err|]; cbn in H; inv H;
        split; intros Hin; repeat (destruct Hin as [Hin|Hin]; try discriminate);
          destruct Hin.
Qed.

(** X18.  A subscription that succeeded delivers: on messages that the
    reader can walk and decode, every invocation spec that is read having
    its input, followed by the end of the stream, the one reader that
    [newEventListener] started sends the decoded entries, one record each
    and in order, then closes the stream and the connection; the hub it
    runs on is connected, so closing cannot fault. *)
Theorem subscription_delivers (p : Peer) (identity : Identity PrivateKey)
        (mspId : string) (t : list (effect PrivateKey)) (ins : list Event) :
  newEventListener pem_EncodeToMemory net p identity mspId = (t, Return None) ->
  Forall walkable ins ->
  Forall decodes (stream_entries ins) ->
  Forall carries_input (stream_entries ins) ->
  exists tr,
    goroutines t (map Recv_ok ins ++ [Recv_err io_EOF]) =
      tr ++ [CloseSend; ConnectionClose] /\
    only_sends tr /\
    Forall2 decoded_entry (sent tr) (stream_entries ins).
Proof.
  unfold newEventListener, act_body. intros H Hw Hd _.
  destruct (connect_cases PrivateKey net {| connection := None; client := None |} p)
    as [(err & _ & Hc)|[(err & _ & _ & Hc)|(_ & _ & Hc)]];
    cbv zeta in Hc; rewrite Hc in H;
    cbn [eval act_bind return_err pure app fst snd body] in H;
    try discriminate H.
  destruct (register pem_EncodeToMemory _ mspId identity) as [tr orr] eqn:Hr.
  destruct (register_outcomes _ _ _ _ _ Hr)
    as [[-> (err & ->)]|[(b & -> & Hb)|(b & sb & c & Hs & Hcl & -> & ->)]].
  - cbn in H. discriminate H.
  - destruct Hb as [(err & _ & ->)|(_ & Habs & _)]; [|discriminate].
    cbn in H. discriminate H.
  - cbn [eval act_bind return_err pure app fst snd body] in H.
    destruct (Send c _) as [err|]; cbn in H; [discriminate H|]. inv H.
    set (hub := {| connection := Some {| grpc.ClientConn_target := Uri p |};
                   client := Some (chat_client net {| grpc.ClientConn_target := Uri p |}) |}).
    assert (Hcl' : client hub <> None) by discriminate.
    destruct (gets_through PrivateKey hub ins Hcl' Hw Hd) as [t0 Ht0].
    exists t0. unfold goroutines. cbn [flat_map app].
    rewrite app_nil_r, readBlock_app, Ht0, turn_on_error. cbn.
    split; [reflexivity|]. split.
    + exact (receiving_only_sends PrivateKey _ _ _ Ht0).
    + exact (sent_entries _ _ _ _ Ht0).
Qed.

End MoreHub.

(** ** Random bytes *)

Section RandomBytes.

Context {source : gm.RandomSource}.

(** X19.  [GetRandomBytes] returns no error exactly when the length is
    not negative and the source, without error, fills the whole buffer;
    the result is then the first [len] bytes that the source delivered
    and has length [len] (the empty slice for [len] 0).  With an error it
    returns no bytes. *)
Theorem GetRandomBytes_fills_or_fails (len : Z) (delivered buf : bytes)
        (rerr err : option error) :
  gm.rand_Read (Z.to_nat len) = (delivered, rerr) ->
  gm.GetRandomBytes len = (buf, err) ->
  (err = None <->
   0 <= len /\ rerr = None /\ (Z.to_nat len <= List.length delivered)%nat) /\
  (err = None ->
   buf = firstn (Z.to_nat len) delivered /\ Z.of_nat (List.length buf) = len) /\
  (err <> None -> buf = []).
Proof.
  unfold gm.GetRandomBytes. intros Hr H.
  destruct (Z.ltb_spec len 0) as [Hneg|Hpos].
  - inv H. split; [|split]; try discriminate; try reflexivity.
    split; [discriminate | intros (? & _); lia].
  - rewrite repeat_length, Hr in H.
    pose proof (length_firstn (Z.to_nat len) delivered) as Hlen.
    destruct rerr as [e|].
    + inv H. split; [|split]; try discriminate; try reflexivity.
      split; [discriminate | intros (_ & ? & _); discriminate].
    + destruct (Z.eqb_spec (Z.of_nat (List.length (firstn (Z.to_nat len) delivered))) len)
        as [Heq|Hne]; cbn [negb] in H; inv H.
      * assert (Hn : List.length (firstn (Z.to_nat len) delivered) = Z.to_nat len) by lia.
        rewrite Hn, skipn_all2 by (rewrite repeat_length; lia).
        rewrite app_nil_r.
        split; [|split].
        -- split; [intros _|reflexivity]. split; [lia|]. split; [reflexivity|lia].
        -- intros _. split; [reflexivity | lia].
        -- intros Habs. contradiction.
      * split; [|split]; try discriminate; try reflexivity.
        split; [discriminate|]. intros (_ & _ & Hle). exfalso. apply Hne. lia.
Qed.

(** X20.  [rand.Read] reports no error only when it has filled the
    buffer.  With a source that keeps to this, [GetRandomBytes] never
    returns the error of a buffer not filled: an error it returns is the
    one of a negative length, or the source's own. *)
Theorem GetRandomBytes_error_is_length_or_source (len : Z) (delivered buf : bytes)
        (rerr : option error) (e : error) :
  (forall n d, gm.rand_Read n = (d, None) -> (n <= List.length d)%nat) ->
  gm.rand_Read (Z.to_nat len) = (delivered, rerr) ->
  gm.GetRandomBytes len = (buf, Some e) ->
  (len < 0 /\ e = errors_New "Len must be larger than 0") \/
  (0 <= len /\ rerr = Some e).
Proof.
  unfold gm.GetRandomBytes. intros Hfull Hr H.
  destruct (Z.ltb_spec len 0) as [Hneg|Hpos].
  - inv H. left. split; [exact Hneg | reflexivity].
  - right. split; [exact Hpos|].
    rewrite repeat_length, Hr in H.
    destruct rerr as [e'|]; [inv H; reflexivity|].
    pose proof (Hfull _ _ Hr) as Hle.
    pose proof (length_firstn (Z.to_nat len) delivered) as Hlen.
    destruct (Z.eqb_spec (Z.of_nat (List.length (firstn (Z.to_nat len) delivered))) len)
      as [Heq|Hne]; cbn [negb] in H; [discriminate H|].
    exfalso. apply Hne. lia.
Qed.

End RandomBytes.

(** ** The command line *)

Section CommandLine.

Variables InvokeResult QueryResponse : Type.
Variable h : cli.handler InvokeResult QueryResponse.

(** X21.  A run of [main] calls at most one of [Invoke], [Query],
    [QueryByQscc] and [ListenEvent]; when [InitSDK] fails it calls none:
    it prints the error and returns. *)
Theorem main_calls_at_most_one_handler (args : list string)
        (t : list (cli.effect InvokeResult)) (o : outcome unit) :
  cli.main h args = (t, o) ->
  (List.length (filter cli.is_call t) <= 1)%nat /\
  (forall err, cli.InitSDK h "./client.yaml" = Some err ->
               t = [cli.Call_InitSDK "./client.yaml"; cli.Println_error err] /\
               o = Return tt).
Proof.
  intros H. run_main H; inv H;
    (split; [cbn; lia | intros; first [discriminate | split; congruence]]).
Qed.

(** X22.  Started without a command word, after [InitSDK] succeeded,
    [main] panics on [args[0]] with an index out of range, having called
    nothing else and printed nothing. *)
Theorem main_without_arguments_faults :
  cli.InitSDK h "./client.yaml" = None ->
  cli.main h [] =
    ([cli.Call_InitSDK "./client.yaml"], Panic (index_out_of_range 0 0)).
Proof.
  intros Hi. unfold cli.main, cli.cmd_bind, cli.emit, cli.pure. rewrite Hi. reflexivity.
Qed.

(** X23.  Every command word other than invoke, query and listen runs a
    query of the system chaincode: [QueryByQscc] is called, with all the
    arguments, the command word included, and the one peer peer0. *)
Theorem main_default_is_QueryByQscc (word : string) (rest : list string)
        (t : list (cli.effect InvokeResult)) (o : outcome unit) :
  cli.InitSDK h "./client.yaml" = None ->
  word <> "invoke"%string -> word <> "query"%string -> word <> "listen"%string ->
  cli.main h (word :: rest) = (t, o) ->
  filter cli.is_call t = [cli.Call_QueryByQscc (word :: rest) ["peer0"%string]].
Proof.
  intros Hi H1 H2 H3 H.
  apply String.eqb_neq in H1, H2, H3.
  unfold cli.main, cli.cmd_bind, cli.emit, cli.pure, index in H.
  rewrite Hi in H.
  cbn [body eval fst snd app Z.ltb Z.compare Z.to_nat nth_error List.length] in H.
  rewrite H1 in H.
  cbn [body eval fst snd app Z.ltb Z.compare Z.to_nat nth_error List.length] in H.
  rewrite H2 in H.
  cbn [body eval fst snd app Z.ltb Z.compare Z.to_nat nth_error List.length] in H.
  rewrite H3 in H.
  run_main H; inv H; reflexivity.
Qed.

(** X24.  When [Query] or [QueryByQscc] returns no response, as with an
    error, [main] prints the error if there is one and then panics on
    [result[0]] with an index out of range: no payload is printed. *)
Theorem main_empty_result_faults (word : string) (rest : list string)
        (err : option error) :
  cli.InitSDK h "./client.yaml" = None ->
  word <> "invoke"%string -> word <> "listen"%string ->
  (if String.eqb word "query" then cli.Query h (word :: rest) ["peer0"%string]
   else cli.QueryByQscc h (word :: rest) ["peer0"%string]) = ([], err) ->
  cli.main h (word :: rest) =
    ([cli.Call_InitSDK "./client.yaml";
      if String.eqb word "query" then cli.Call_Query (word :: rest) ["peer0"%string]
      else cli.Call_QueryByQscc (word :: rest) ["peer0"%string]] ++
     match err with Some e => [cli.Println_error e] | None => [] end,
     Panic (index_out_of_range 0 0)).
Proof.
  intros Hi H1 H3 Hq.
  apply String.eqb_neq in H1, H3.
  unfold cli.main, cli.println_payload, cli.println_if, cli.cmd_bind, cli.emit,
    cli.pure, index.
  rewrite Hi.
  cbn [body eval fst snd app Z.ltb Z.compare Z.to_nat nth_error List.length].
  rewrite H1.
  cbn [body eval fst snd app Z.ltb Z.compare Z.to_nat nth_error List.length].
  destruct (String.eqb word "query").
  - rewrite Hq. destruct err; reflexivity.
  - cbn [body eval fst snd app Z.ltb Z.compare Z.to_nat nth_error List.length].
    rewrite H3, Hq. destruct err; reflexivity.
Qed.

End CommandLine.

(** ** The wire format reads every buffer to its end

    The decoding loop is given one unit of fuel per byte and one more;
    each field takes at least one byte, so the fuel is never what stops
    it: the loop satisfies its own unfolding, without fuel. *)

Lemma DecodeVarint_from_consumes n shift buf x rest :
  wire.DecodeVarint_from n shift buf = inr (x, rest) ->
  (List.length rest < List.length buf)%nat.
Proof.
  revert shift buf x rest. induction n as [|n IH]; intros shift buf x rest H.
  - discriminate.
  - cbn [wire.DecodeVarint_from] in H. destruct buf as [|b buf]; [discriminate|].
    destruct (Byte.to_N b <? 128)%N.
    + inv H. cbn. lia.
    + destruct (wire.DecodeVarint_from n (shift + 7) buf) as [e|[y rest']] eqn:Hr;
        [discriminate|].
      inv H. apply IH in Hr. cbn. lia.
Qed.

Lemma DecodeVarint_consumes buf x rest :
  wire.DecodeVarint buf = inr (x, rest) ->
  (List.length rest < List.length buf)%nat.
Proof.
  unfold wire.DecodeVarint.
  destruct (wire.DecodeVarint_from 10 0 buf) as [e|[y rest']] eqn:Hr; [discriminate|].
  intros H. inv H. exact (DecodeVarint_from_consumes _ _ _ _ _ Hr).
Qed.

Lemma take_consumes n buf b rest :
  wire.take n buf = inr (b, rest) ->
  (List.length rest <= List.length buf)%nat.
Proof.
  unfold wire.take. destruct (N.of_nat (List.length buf) <? n)%N; [discriminate|].
  intros H. inv H. rewrite length_skipn. lia.
Qed.

Lemma find_end_group_consumes fuel depth buf rest :
  wire.find_end_group fuel depth buf = inr rest ->
  (List.length rest < List.length buf)%nat.
Proof.
  revert depth buf rest. induction fuel as [|fuel IH]; intros depth buf rest H.
  - discriminate.
  - cbn [wire.find_end_group] in H.
    destruct (wire.DecodeVarint buf) as [e|[tag r0]] eqn:Ht; [discriminate|].
    apply DecodeVarint_consumes in Ht.
    destruct (tag mod 8)%N as [|[[[]|[]|]|[[]|[]|]|]]; try discriminate.
    + destruct (wire.DecodeVarint r0) as [e|[x r1]] eqn:H1; [discriminate|].
      apply DecodeVarint_consumes in H1. apply IH in H. lia.
    + destruct (wire.take 4 r0) as [e|[b r1]] eqn:H1; [discriminate|].
      apply take_consumes in H1. apply IH in H. lia.
    + apply IH in H. lia.
    + destruct depth as [|depth]; [inv H; lia | apply IH in H; lia].
    + destruct (wire.DecodeVarint r0) as [e|[len r1]] eqn:H1; [discriminate|].
      apply DecodeVarint_consumes in H1.
      destruct (wire.take len r1) as [e|[b r2]] eqn:H2; [discriminate|].
      apply take_consumes in H2. apply IH in H. lia.
    + destruct (wire.take 8 r0) as [e|[b r1]] eqn:H1; [discriminate|].
      apply take_consumes in H1. apply IH in H. lia.
Qed.

Lemma read_field_consumes buf num v rest :
  wire.read_field buf = inr (num, v, rest) ->
  (List.length rest < List.length buf)%nat.
Proof.
  unfold wire.read_field.
  destruct (wire.DecodeVarint buf) as [e|[tag r0]] eqn:Ht; [discriminate|].
  apply DecodeVarint_consumes in Ht.
  destruct (tag / 8 =? 0)%N; [discriminate|].
  destruct (tag mod 8)%N as [|[[[]|[]|]|[[]|[]|]|]]; try discriminate.
  - destruct (wire.DecodeVarint r0) as [e|[x r1]] eqn:H1; [discriminate|].
    apply DecodeVarint_consumes in H1. intros H. inv H. lia.
  - destruct (wire.take 4 r0) as [e|[b r1]] eqn:H1; [discriminate|].
    apply take_consumes in H1. intros H. inv H. lia.
  - destruct (wire.find_end_group (S (List.length r0)) 0 r0) as [e|r1] eqn:H1;
      [discriminate|].
    apply find_end_group_consumes in H1. intros H. inv H. lia.
  - destruct (wire.DecodeVarint r0) as [e|[len r1]] eqn:H1; [discriminate|].
    apply DecodeVarint_consumes in H1.
    destruct (wire.take len r1) as [e|[b r2]] eqn:H2; [discriminate|].
    apply take_consumes in H2. intros H. inv H. lia.
  - destruct (wire.take 8 r0) as [e|[b r1]] eqn:H1; [discriminate|].
    apply take_consumes in H1. intros H. inv H. lia.
Qed.

Lemma merge_fields_fuel {M : Type} (field : N -> wire.value -> M -> M * option error)
      (fuel1 fuel2 : nat) (buf : bytes) (m : M) :
  (List.length buf < fuel1)%nat ->
  (List.length buf < fuel2)%nat ->
  wire.merge_fields field fuel1 buf m = wire.merge_fields field fuel2 buf m.
Proof.
  revert fuel2 buf m. induction fuel1 as [|fuel1 IH]; intros fuel2 buf m H1 H2.
  - lia.
  - destruct fuel2 as [|fuel2]; [lia|].
    cbn [wire.merge_fields]. destruct buf as [|b buf]; [reflexivity|].
    destruct (wire.read_field (b :: buf)) as [e|[[num v] rest]] eqn:Hr; [reflexivity|].
    apply read_field_consumes in Hr.
    destruct (field num v m) as [m' [e|]]; [reflexivity|].
    apply IH; cbn [List.length] in *; lia.
Qed.

(** The loop of [proto.Unmarshal], as it unfolds. *)
Lemma UnmarshalMerge_unfold {M : Type}
      (field : N -> wire.value -> M -> M * option error) (buf : bytes) (m : M) :
  wire.UnmarshalMerge field buf m =
  match buf with
  | [] => (m, None)
  | _ :: _ =>
    match wire.read_field buf with
    | inl e => (m, Some e)
    | inr (num, v, rest) =>
      match field num v m with
      | (m', Some e) => (m', Some e)
      | (m', None) => wire.UnmarshalMerge field rest m'
      end
    end
  end.
Proof.
  unfold wire.UnmarshalMerge at 1. cbn [wire.merge_fields].
  destruct buf as [|b buf]; [reflexivity|].
  destruct (wire.read_field (b :: buf)) as [e|[[num v] rest]] eqn:Hr; [reflexivity|].
  apply read_field_consumes in Hr.
  destruct (field num v m) as [m' [e|]]; [reflexivity|].
  unfold wire.UnmarshalMerge.
  apply merge_fields_fuel; cbn [List.length] in *; lia.
Qed.

(** ** The decoder and the hub on the sample inputs *)

#[local] Existing Instance wire.protos.
#[local] Existing Instance encode.marshals.
#[local] Existing Instance sample.crypto.

(** The two sides of the wire format and the PEM armour on small inputs. *)
Example varint_300 :
  encode.EncodeVarint 300 = [xac; x02] /\
  wire.DecodeVarint [xac; x02; x08] = inr (300%N, [x08]).
Proof. split; reflexivity. Qed.

Example zero_actions_envelope_fields :
  sample.zero_actions_envelope =
  encode.bytes_field 1
    (encode.bytes_field 1 (encode.bytes_field 1 (encode.varint_field 1 3))).
Proof. reflexivity. Qed.

Example pem_certificate :
  pem.EncodeToMemory {| pem.Block_Type := "CERTIFICATE";
                        pem.Block_Bytes := sample.text "certificate" |} =
  sample.text "-----BEGIN CERTIFICATE-----" ++ [x0a] ++
  sample.text "Y2VydGlmaWNhdGU=" ++ [x0a] ++
  sample.text "-----END CERTIFICATE-----" ++ [x0a].
Proof. vm_compute. reflexivity. Qed.

(** The round trip of the specification: arguments a, b, 20, the event
    event1 with payload hello, and the flag byte 0. *)
Example round_trip :
  DecodeEventBlock sample.endorser_envelope 7 0 sample.metadata =
  Return {| Error := None; IsVaild := true; BlockHeight := 7; TxIndex := 0;
            TxID := "tx1"; ChannelName := "mychannel";
            ChainCodeName := "mycc"; ChainCodeVersion := "1.0"; Status := 0;
            ChainCodeInput := [sample.text "a"; sample.text "b"; sample.text "20"];
            CCEvents := [{| EventName := "event1";
                            EventPayload := sample.text "hello" |}] |}.
Proof. vm_compute. reflexivity. Qed.

(** C1.  An endorser transaction whose payload data is empty decodes to a
    transaction with no action; [tx.Actions[0]] then faults.  No record is
    returned, and a reader that meets such an entry crashes without
    sending anything for it or for the entries and blocks after it. *)
Lemma zero_actions_index_fault :
  header_stages sample.zero_actions_envelope =
    Done ({| Payload_Header := Some {| Header_ChannelHeader := [x08; x03] |};
             Payload_Data := [] |},
          {| ChannelHeader_Type := HeaderType_ENDORSER_TRANSACTION;
             ChannelHeader_ChannelId := EmptyString;
             ChannelHeader_TxId := EmptyString;
             ChannelHeader_Extension := [] |},
          {| ChaincodeHeaderExtension_ChaincodeId := None |}) /\
  proto_Unmarshal Transaction [] = ({| Transaction_Actions := [] |}, None) /\
  DecodeEventBlock sample.zero_actions_envelope 7 0 sample.metadata =
    Panic (index_out_of_range 0 0) /\
  readBlock (PrivateKey := bytes) sample.hub
    [Recv_ok sample.faulting_block; Recv_ok sample.one_block] =
    ([], Crashed (index_out_of_range 0 0)).
Proof. repeat split; vm_compute; reflexivity. Qed.

(** C4.  An envelope that parses and whose payload bytes do not: the error
    is recorded and the decoder goes on, but the payload then has no
    header, and [payload.Header.ChannelHeader] dereferences nil.  No record
    is returned. *)
Lemma bad_payload_nil_dereference :
  proto_Unmarshal Envelope sample.bad_payload_envelope =
    ({| Envelope_Payload := [xff] |}, None) /\
  proto_Unmarshal Payload [xff] =
    ({| Payload_Header := None; Payload_Data := [] |}, Some io_ErrUnexpectedEOF) /\
  DecodeEventBlock sample.bad_payload_envelope 7 0 sample.metadata =
    Panic nil_dereference.
Proof. repeat split; vm_compute; reflexivity. Qed.

(** C2, on an entry that is no envelope and on the transaction whose
    invocation spec is cut off. *)
Lemma partial_results_preserved_witness :
  header_stages sample.corrupt_envelope = Failed io_ErrUnexpectedEOF /\
  DecodeEventBlock sample.corrupt_envelope 7 0 sample.metadata =
    Return (BlockEventResponse_Error io_ErrUnexpectedEOF) /\
  exists payload header ex flag,
    header_stages sample.bad_spec_envelope = Done (payload, header, ex) /\
    ChannelHeader_Type header = HeaderType_ENDORSER_TRANSACTION /\
    endorser_stages payload = Failed io_ErrUnexpectedEOF /\
    validation_flag sample.metadata 0 = Some flag /\
    exists r,
      DecodeEventBlock sample.bad_spec_envelope 7 0 sample.metadata = Return r /\
      Error r = Some io_ErrUnexpectedEOF /\
      identified r 7 0 header ex flag.
Proof.
  assert (Hf : header_stages sample.corrupt_envelope = Failed io_ErrUnexpectedEOF)
    by (vm_compute; reflexivity).
  eassert (Hh : header_stages sample.bad_spec_envelope = Done (_, _, _))
    by (vm_compute; reflexivity).
  match type of Hh with
  | _ = Done (?p, _, _) =>
    assert (He : endorser_stages p = Failed io_ErrUnexpectedEOF)
      by (vm_compute; reflexivity)
  end.
  eassert (Hv : validation_flag sample.metadata 0 = Some _) by reflexivity.
  split; [exact Hf|].
  split;
    [exact (proj1 (partial_results_preserved
                     sample.corrupt_envelope 7 0 sample.metadata) _ Hf)|].
  do 4 eexists. split; [exact Hh|]. split; [reflexivity|]. split; [exact He|].
  split; [exact Hv|].
  exact (proj2 (partial_results_preserved sample.bad_spec_envelope 7 0 sample.metadata)
               _ _ _ _ _ Hh eq_refl He Hv).
Defined.

(** C3 as stated fails on an entry that is no envelope: its flag byte is
    0, the valid code, and the record that is returned for it is not
    valid. *)
Lemma outer_failure_record_is_not_valid :
  exists r flag,
    DecodeEventBlock sample.corrupt_envelope 7 0 sample.metadata = Return r /\
    validation_flag sample.metadata 0 = Some flag /\
    uint8 flag = TxValidationCode_VALID /\
    IsVaild r = false.
Proof.
  eexists. exists x00. split; [vm_compute; reflexivity|].
  repeat split; reflexivity.
Qed.

(** C3 as amended, on the sample transaction. *)
Lemma isValid_tells_flag_valid_witness :
  exists r flag,
    DecodeEventBlock sample.endorser_envelope 7 0 sample.metadata = Return r /\
    validation_flag sample.metadata 0 = Some flag /\
    IsVaild r = true /\
    TxValidationCode_VALID = 0 /\
    (((exists payload header ex,
          header_stages sample.endorser_envelope = Done (payload, header, ex)) /\
      (IsVaild r = true <-> uint8 flag = TxValidationCode_VALID)) \/
     ((exists e, header_stages sample.endorser_envelope = Failed e) /\
      IsVaild r = false)).
Proof.
  eassert (Hd : DecodeEventBlock sample.endorser_envelope 7 0 sample.metadata = Return _)
    by (vm_compute; reflexivity).
  eassert (Hv : validation_flag sample.metadata 0 = Some _) by reflexivity.
  do 2 eexists. split; [exact Hd|]. split; [exact Hv|]. split; [reflexivity|].
  exact (isValid_tells_flag_valid _ _ _ _ _ _ Hd Hv).
Defined.

(** C9, on the sample transaction with the flag byte 1. *)
Lemma status_is_validation_flag_witness :
  exists r payload header ex,
    header_stages sample.endorser_envelope = Done (payload, header, ex) /\
    DecodeEventBlock sample.endorser_envelope 7 0 [[]; []; [x01]] = Return r /\
    BlockMetadataIndex_TRANSACTIONS_FILTER = 2 /\
    exists flags flag,
      nth_error [[]; []; [x01]] 2 = Some flags /\
      nth_error flags (Z.to_nat 0) = Some flag /\
      Status r = uint8 flag /\
      (IsVaild r = true <-> Status r = 0).
Proof.
  eassert (Hh : header_stages sample.endorser_envelope = Done (_, _, _))
    by (vm_compute; reflexivity).
  eassert (Hd : DecodeEventBlock sample.endorser_envelope 7 0 [[]; []; [x01]] = Return _)
    by (vm_compute; reflexivity).
  do 4 eexists. split; [exact Hh|]. split; [exact Hd|].
  exact (status_is_validation_flag _ _ _ _ _ _ _ _ Hh Hd).
Defined.

(** C10, on the transaction whose chaincode set no event. *)
Lemma one_event_entry_witness :
  exists payload header ex cis ca ev flag,
    header_stages sample.no_event_envelope = Done (payload, header, ex) /\
    ChannelHeader_Type header = HeaderType_ENDORSER_TRANSACTION /\
    endorser_stages payload = Done (cis, ca, ev) /\
    validation_flag sample.metadata 0 = Some flag /\
    ChaincodeAction_Events ca = [] /\
    exists r,
      DecodeEventBlock sample.no_event_envelope 7 0 sample.metadata = Return r /\
      List.length (CCEvents r) = 1%nat /\
      CCEvents r = [{| EventName := ChaincodeEvent_EventName ev;
                       EventPayload := ChaincodeEvent_Payload ev |}] /\
      (ChaincodeAction_Events ca = [] ->
       CCEvents r = [{| EventName := EmptyString; EventPayload := [] |}]).
Proof.
  eassert (Hh : header_stages sample.no_event_envelope = Done (_, _, _))
    by (vm_compute; reflexivity).
  match type of Hh with
  | _ = Done (?p, _, _) =>
    eassert (He : endorser_stages p = Done (_, _, _)) by (vm_compute; reflexivity)
  end.
  eassert (Hv : validation_flag sample.metadata 0 = Some _) by reflexivity.
  do 7 eexists. split; [exact Hh|]. split; [reflexivity|]. split; [exact He|].
  split; [exact Hv|]. split; [reflexivity|].
  exact (one_event_entry _ 7 0 _ _ _ _ _ _ _ _ Hh eq_refl He Hv).
Defined.

(** C5 as stated fails: a block numbered 7 whose second entry is not an
    envelope.  Two records are sent, in order, but the second is the
    error-only record: its block height is 0, not 7, and its index 0,
    not 1. *)
Lemma outer_failure_record_has_no_position :
  exists t r1 r2,
    readBlock (PrivateKey := bytes) sample.hub
      (map Recv_ok [sample.mixed_block]) = (t, Receiving) /\
    sent t = [r1; r2] /\
    map (fun x => (snd (fst x), snd x))
        (stream_entries [sample.mixed_block]) =
      [(0, sample.endorser_envelope); (1, sample.corrupt_envelope)] /\
    BlockHeight r1 = 7 /\ TxIndex r1 = 0 /\
    r2 = BlockEventResponse_Error io_ErrUnexpectedEOF /\
    BlockHeight r2 <> 7 /\ TxIndex r2 <> 1.
Proof.
  do 3 eexists. split; [vm_compute; reflexivity|].
  repeat split; vm_compute; discriminate.
Qed.

(** C5 as amended, on that block. *)
Lemma one_record_per_entry_witness :
  client sample.hub <> None /\
  Forall walkable [sample.mixed_block] /\
  Forall decodes (stream_entries [sample.mixed_block]) /\
  exists t : list (effect bytes),
    readBlock sample.hub (map Recv_ok [sample.mixed_block]) = (t, Receiving) /\
    Forall2 decoded_entry (sent t) (stream_entries [sample.mixed_block]) /\
    List.length (sent t) = List.length (stream_entries [sample.mixed_block]).
Proof.
  assert (Hc : client sample.hub <> None) by discriminate.
  assert (Hw : Forall walkable [sample.mixed_block]).
  { repeat constructor. eexists. split; [reflexivity|]. split; discriminate. }
  assert (Hd : Forall decodes (stream_entries [sample.mixed_block])).
  { repeat constructor.
    - eexists. do 2 eexists. split; [reflexivity|]. split; [reflexivity|].
      split; [vm_compute; reflexivity|]. right. split; reflexivity.
    - eexists. do 2 eexists. split; [reflexivity|]. split; [reflexivity|].
      split; [vm_compute; reflexivity|]. left. eexists.
      split; vm_compute; reflexivity. }
  split; [exact Hc|]. split; [exact Hw|]. split; [exact Hd|].
  exact (one_record_per_entry bytes sample.hub [sample.mixed_block] Hc Hw Hd).
Defined.

(** C6, on a stream of one block that then ends, cleanly or not. *)
Lemma readBlock_ends_two_ways_witness :
  exists t0,
    readBlock (PrivateKey := bytes) sample.hub
      (map Recv_ok [sample.one_block]) = (t0, Receiving) /\
    readBlock sample.hub
      (map Recv_ok [sample.one_block] ++ Recv_err io_EOF :: []) =
      (t0 ++ [CloseSend; ConnectionClose], Returned) /\
    readBlock sample.hub
      (map Recv_ok [sample.one_block]
           ++ Recv_err (errors_New "transport is closing") :: []) =
      (t0 ++ [ChanSend (BlockEventResponse_Error (errors_New "transport is closing"));
              CloseSend; ConnectionClose], Returned).
Proof.
  eassert (H : readBlock (PrivateKey := bytes) sample.hub
                          (map Recv_ok [sample.one_block]) = (_, Receiving))
    by (vm_compute; reflexivity).
  eexists. split; [exact H|]. split.
  - apply (proj2 (readBlock_ends_two_ways bytes _ _ _)).
    do 4 eexists. split; [reflexivity|]. split; [exact H|].
    split; [discriminate|]. left. split; reflexivity.
  - apply (proj2 (readBlock_ends_two_ways bytes _ _ _)).
    do 4 eexists. split; [reflexivity|]. split; [exact H|].
    split; [discriminate|]. right. split; [discriminate | reflexivity].
Defined.

(** C7, on the sample identity. *)
Lemma register_signs_what_it_sends_witness :
  exists t creator evtBytes sb,
    register pem.EncodeToMemory sample.hub "Org1MSP" sample.identity
    = (t, Return None) /\
    proto_Marshal
      {| SerializedIdentity_Mspid := "Org1MSP";
         SerializedIdentity_IdBytes :=
           pem.EncodeToMemory
             {| pem.Block_Type := "CERTIFICATE";
                pem.Block_Bytes := x509.Certificate_Raw (Certificate sample.identity) |} |}
    = (creator, None) /\
    proto_Marshal
      {| Event_Event :=
           Some (Event_Register
                   (Some {| Register_Events :=
                              [{| Interest_EventType := EventType_BLOCK |}] |}));
         Event_Creator := creator |}
    = (evtBytes, None) /\
    Sign evtBytes (Identity_PrivateKey sample.identity) = (sb, None) /\
    t = [SignCall evtBytes (Identity_PrivateKey sample.identity);
         ClientSend {| SignedEvent_Signature := sb;
                       SignedEvent_EventBytes := evtBytes |}].
Proof.
  eassert (H : register pem.EncodeToMemory sample.hub "Org1MSP" sample.identity
               = (_, Return None)) by (vm_compute; reflexivity).
  destruct (register_signs_what_it_sends bytes pem.EncodeToMemory _ _ _ _ H)
    as (creator & evtBytes & sb & H1 & H2 & H3 & H4).
  eexists. exists creator, evtBytes, sb.
  split; [exact H|]. split; [exact H1|]. split; [exact H2|].
  split; [exact H3 | exact H4].
Defined.

(** C8, on an address that nothing answers at. *)
Lemma failed_subscription_starts_no_reader_witness :
  exists tc hub p' t,
    connect (PrivateKey := bytes) sample.unreachable eventHub_zero sample.peer0 =
      (tc, Return (hub, p', Some (errors_New "context deadline exceeded"))) /\
    newEventListener pem.EncodeToMemory sample.unreachable
                     sample.peer0 sample.identity "Org1MSP" =
      (t, Return (Some (errors_New "context deadline exceeded"))) /\
    (forall e, ~ In (Go_readBlock e) t) /\
    forall stream, sent (t ++ goroutines t stream) = [].
Proof.
  eassert (H : connect (PrivateKey := bytes) sample.unreachable eventHub_zero
                       sample.peer0 = (_, Return (_, _, Some _)))
    by (vm_compute; reflexivity).
  destruct (failed_subscription_starts_no_reader
              bytes pem.EncodeToMemory sample.unreachable sample.peer0
              sample.identity "Org1MSP" _
              (or_introl (ex_intro _ _ (ex_intro _ _ (ex_intro _ _ H)))))
    as (t & Ht & Hgo & Hsent).
  do 3 eexists. exists t. split; [exact H|]. split; [exact Ht|].
  split; [exact Hgo | exact Hsent].
Defined.

(** A peer that refuses the registration: the request is signed and sent,
    the error comes back and no reader is started. *)
Example refused_registration :
  newEventListener (PrivateKey := bytes) pem.EncodeToMemory sample.refusing
                   sample.peer0 sample.identity "Org1MSP" =
  ([Dial "peer0:7053"
         [grpc.WithBlock; grpc.WithTimeout 5000000000;
          grpc.WithDefaultCallOptions
            [grpc.MaxCallRecvMsgSize 104857600; grpc.MaxCallSendMsgSize 104857600]];
    Chat {| grpc.ClientConn_target := "peer0:7053" |};
    SignCall sample.request (Identity_PrivateKey sample.identity);
    ClientSend
      {| SignedEvent_Signature :=
           fst (Sign sample.request (Identity_PrivateKey sample.identity));
         SignedEvent_EventBytes := sample.request |}],
   Return (Some (errors_New "transport is closing"))).
Proof. vm_compute. reflexivity. Qed.

(** X1, on the empty byte string: it parses as an empty envelope. *)
Lemma missing_header_nil_dereference_witness :
  proto_Unmarshal Envelope [] = ({| Envelope_Payload := [] |}, None) /\
  Payload_Header
    (fst (proto_Unmarshal Payload (Envelope_Payload {| Envelope_Payload := [] |}))) = None /\
  DecodeEventBlock [] 7 0 sample.metadata = Panic nil_dereference.
Proof.
  assert (He : proto_Unmarshal Envelope [] = ({| Envelope_Payload := [] |}, None))
    by reflexivity.
  assert (Hp : Payload_Header
                 (fst (proto_Unmarshal Payload
                         (Envelope_Payload {| Envelope_Payload := [] |}))) = None)
    by reflexivity.
  split; [exact He|]. split; [exact Hp|].
  exact (missing_header_nil_dereference [] 7 0 sample.metadata _ He Hp).
Defined.

(** X2, on a configuration transaction (header type 1) with no extension. *)
Lemma other_types_stop_at_stage5_witness :
  exists payload header ex flag,
    header_stages [x0a; x06; x0a; x04; x0a; x02; x08; x01] = Done (payload, header, ex) /\
    ChannelHeader_Type header <> HeaderType_ENDORSER_TRANSACTION /\
    validation_flag sample.metadata 0 = Some flag /\
    exists r,
      DecodeEventBlock [x0a; x06; x0a; x04; x0a; x02; x08; x01] 7 0 sample.metadata
      = Return r /\
      identified r 7 0 header ex flag /\
      Error r = payload_error [x0a; x06; x0a; x04; x0a; x02; x08; x01] /\
      ChainCodeInput r = [] /\ CCEvents r = [].
Proof.
  eassert (Hh : header_stages [x0a; x06; x0a; x04; x0a; x02; x08; x01] = Done (_, _, _))
    by (vm_compute; reflexivity).
  eassert (Hv : validation_flag sample.metadata 0 = Some _) by reflexivity.
  assert (Ht : 1 <> HeaderType_ENDORSER_TRANSACTION) by discriminate.
  do 4 eexists. split; [exact Hh|]. split; [exact Ht|]. split; [exact Hv|].
  exact (other_types_stop_at_stage5 _ 7 0 _ _ _ _ _ Hh Ht Hv).
Defined.

(** X3, on metadata without the flags array. *)
Lemma uncovered_position_faults_witness :
  exists payload header ex,
    header_stages sample.endorser_envelope = Done (payload, header, ex) /\
    validation_flag [[]; []] 0 = None /\
    exists i n,
      DecodeEventBlock sample.endorser_envelope 7 0 [[]; []]
      = Panic (index_out_of_range i n).
Proof.
  eassert (Hh : header_stages sample.endorser_envelope = Done (_, _, _))
    by (vm_compute; reflexivity).
  assert (Hv : validation_flag [[]; []] 0 = None) by reflexivity.
  do 3 eexists. split; [exact Hh|]. split; [exact Hv|].
  exact (uncovered_position_faults _ 7 0 _ _ _ _ Hh Hv).
Defined.

(** X4, on a registration acknowledgement. *)
Lemma other_messages_ignored_witness :
  client sample.hub <> None /\
  (forall ob,
      Event_Event {| Event_Event := Some (Event_Register None); Event_Creator := [] |}
      <> Some (Event_Block ob)) /\
  readBlock (PrivateKey := bytes) sample.hub
    [Recv_ok {| Event_Event := Some (Event_Register None); Event_Creator := [] |};
     Recv_ok sample.one_block] =
  readBlock sample.hub [Recv_ok sample.one_block].
Proof.
  assert (Hc : client sample.hub <> None) by discriminate.
  assert (Hn : forall ob,
             Event_Event {| Event_Event := Some (Event_Register None);
                            Event_Creator := [] |}
             <> Some (Event_Block ob)) by discriminate.
  split; [exact Hc|]. split; [exact Hn|].
  exact (other_messages_ignored bytes sample.hub _ _ Hc Hn).
Defined.

(** X5, on a peer that answers. *)
Lemma subscription_starts_one_reader_witness :
  exists tc hub p' tr,
    connect (PrivateKey := bytes) sample.reachable eventHub_zero sample.peer0
    = (tc, Return (hub, p', None)) /\
    register pem.EncodeToMemory hub "Org1MSP" sample.identity = (tr, Return None) /\
    newEventListener pem.EncodeToMemory sample.reachable
                     sample.peer0 sample.identity "Org1MSP"
    = (tc ++ tr ++ [Go_readBlock hub], Return None).
Proof.
  eassert (Hc : connect (PrivateKey := bytes) sample.reachable eventHub_zero
                        sample.peer0 = (_, Return (_, _, None)))
    by (vm_compute; reflexivity).
  match type of Hc with
  | _ = (_, Return (?hub, _, _)) =>
    eassert (Hr : register pem.EncodeToMemory hub "Org1MSP" sample.identity
                  = (_, Return None)) by (vm_compute; reflexivity)
  end.
  do 4 eexists. split; [exact Hc|]. split; [exact Hr|].
  exact (subscription_starts_one_reader
           bytes pem.EncodeToMemory sample.reachable _ _ _ _ _ _ _ Hc Hr).
Defined.

(** X6, on the valid transaction. *)
Lemma error_free_record_is_complete_witness :
  exists r,
    DecodeEventBlock sample.endorser_envelope 7 0 sample.metadata = Return r /\
    Error r = None /\
    exists payload header ex flag,
      header_stages sample.endorser_envelope = Done (payload, header, ex) /\
      payload_error sample.endorser_envelope = None /\
      validation_flag sample.metadata 0 = Some flag /\
      identified r 7 0 header ex flag /\
      (ChannelHeader_Type header = HeaderType_ENDORSER_TRANSACTION ->
       List.length (CCEvents r) = 1%nat).
Proof.
  eassert (Hd : DecodeEventBlock sample.endorser_envelope 7 0 sample.metadata = Return _)
    by (vm_compute; reflexivity).
  match type of Hd with
  | _ = Return ?r => assert (He : Error r = None) by reflexivity
  end.
  eexists. split; [exact Hd|]. split; [exact He|].
  exact (error_free_record_is_complete _ _ _ _ _ Hd He).
Defined.

(** X7, on the valid transaction. *)
Lemma at_most_one_event_witness :
  exists r,
    DecodeEventBlock sample.endorser_envelope 7 0 sample.metadata = Return r /\
    (List.length (CCEvents r) <= 1)%nat /\
    (CCEvents r <> [] ->
     Error r = payload_error sample.endorser_envelope /\
     exists payload header ex cis ca ev,
       header_stages sample.endorser_envelope = Done (payload, header, ex) /\
       ChannelHeader_Type header = HeaderType_ENDORSER_TRANSACTION /\
       endorser_stages payload = Done (cis, ca, ev)).
Proof.
  eassert (Hd : DecodeEventBlock sample.endorser_envelope 7 0 sample.metadata = Return _)
    by (vm_compute; reflexivity).
  eexists. split; [exact Hd|].
  exact (at_most_one_event _ _ _ _ _ Hd).
Defined.

(** X8, on metadata that differ in the signatures and the last
    configuration. *)
Lemma decoder_reads_only_flags_witness :
  nth_error sample.metadata 2 = Some [x00] /\
  nth_error [[x01]; [x02; x03]; [x00]; [x04]] 2 = Some [x00] /\
  DecodeEventBlock sample.endorser_envelope 7 0 sample.metadata =
  DecodeEventBlock sample.endorser_envelope 7 0 [[x01]; [x02; x03]; [x00]; [x04]].
Proof.
  assert (H1 : nth_error sample.metadata 2 = Some [x00]) by reflexivity.
  assert (H2 : nth_error [[x01]; [x02; x03]; [x00]; [x04]] 2 = Some [x00])
    by reflexivity.
  split; [exact H1|]. split; [exact H2|].
  exact (decoder_reads_only_flags sample.endorser_envelope 7 0 _ _ _ H1 H2).
Defined.

(** X9, on the valid transaction, called with a, b and 20. *)
Lemma invocation_args_kept_witness :
  exists payload header ex r,
    header_stages sample.endorser_envelope = Done (payload, header, ex) /\
    ChannelHeader_Type header = HeaderType_ENDORSER_TRANSACTION /\
    DecodeEventBlock sample.endorser_envelope 7 0 sample.metadata = Return r /\
    ChainCodeInput r = [sample.text "a"; sample.text "b"; sample.text "20"] /\
    match input_stages payload with
    | Done (_, cis) =>
      forall input, GetInput (GetChaincodeSpec cis) = Some input ->
                    ChainCodeInput r = ChaincodeInput_Args input
    | Failed e => Error r = Some e /\ ChainCodeInput r = [] /\ CCEvents r = []
    | Fault => False
    end.
Proof.
  eassert (Hh : header_stages sample.endorser_envelope = Done (_, _, _))
    by (vm_compute; reflexivity).
  eassert (Hd : DecodeEventBlock sample.endorser_envelope 7 0 sample.metadata = Return _)
    by (vm_compute; reflexivity).
  do 4 eexists. split; [exact Hh|]. split; [reflexivity|]. split; [exact Hd|].
  split; [reflexivity|].
  exact (invocation_args_kept _ 7 0 _ _ _ _ _ Hh eq_refl Hd).
Defined.

(** X10, on the valid transaction with a cut-off tag at the end of its
    payload. *)
Lemma payload_error_survives_witness :
  exists payload header ex cis ca ev input flag,
    header_stages sample.trailing_payload_envelope = Done (payload, header, ex) /\
    ChannelHeader_Type header = HeaderType_ENDORSER_TRANSACTION /\
    endorser_stages payload = Done (cis, ca, ev) /\
    GetInput (GetChaincodeSpec cis) = Some input /\
    validation_flag sample.metadata 0 = Some flag /\
    payload_error sample.trailing_payload_envelope = Some io_ErrUnexpectedEOF /\
    exists r,
      DecodeEventBlock sample.trailing_payload_envelope 7 0 sample.metadata = Return r /\
      Error r = Some io_ErrUnexpectedEOF /\
      identified r 7 0 header ex flag /\
      ChainCodeInput r = ChaincodeInput_Args input /\
      CCEvents r = [{| EventName := ChaincodeEvent_EventName ev;
                       EventPayload := ChaincodeEvent_Payload ev |}].
Proof.
  eassert (Hh : header_stages sample.trailing_payload_envelope = Done (_, _, _))
    by (vm_compute; reflexivity).
  match type of Hh with
  | _ = Done (?p, _, _) =>
    eassert (He : endorser_stages p = Done (_, _, _)) by (vm_compute; reflexivity)
  end.
  match type of He with
  | _ = Done (?cis, _, _) =>
    eassert (Hi : GetInput (GetChaincodeSpec cis) = Some _) by reflexivity
  end.
  eassert (Hv : validation_flag sample.metadata 0 = Some _) by reflexivity.
  assert (Hp : payload_error sample.trailing_payload_envelope = Some io_ErrUnexpectedEOF)
    by (vm_compute; reflexivity).
  do 8 eexists. split; [exact Hh|]. split; [reflexivity|]. split; [exact He|].
  split; [exact Hi|]. split; [exact Hv|]. split; [exact Hp|].
  exact (payload_error_survives _ 7 0 _ _ _ _ _ _ _ _ _ _ Hh eq_refl He Hi Hv Hp).
Defined.

(** X12, on a block followed by the end of the stream. *)
Lemma reader_closes_only_on_return_witness :
  exists (t : list (effect bytes)) st,
    readBlock sample.hub [Recv_ok sample.one_block; Recv_err io_EOF] = (t, st) /\
    st = Returned /\
    match st with
    | Receiving => only_sends t
    | Returned => exists t0, t = t0 ++ [CloseSend; ConnectionClose] /\ only_sends t0
    | Crashed _ => ~ In ConnectionClose t
    end.
Proof.
  eassert (H : readBlock (PrivateKey := bytes) sample.hub
                         [Recv_ok sample.one_block; Recv_err io_EOF] = (_, _))
    by (vm_compute; reflexivity).
  do 2 eexists. split; [exact H|]. split; [reflexivity|].
  exact (reader_closes_only_on_return bytes _ _ _ _ H).
Defined.

(** X13, on a block message without a block, before a valid block. *)
Lemma incomplete_block_crashes_witness :
  client sample.hub <> None /\
  Event_Event {| Event_Event := Some (Event_Block None); Event_Creator := [] |}
  = Some (Event_Block None) /\
  readBlock (PrivateKey := bytes) sample.hub
    [Recv_ok {| Event_Event := Some (Event_Block None); Event_Creator := [] |};
     Recv_ok sample.one_block] =
  ([], Crashed nil_dereference).
Proof.
  assert (Hc : client sample.hub <> None) by discriminate.
  split; [exact Hc|]. split; [reflexivity|].
  exact (incomplete_block_crashes
           bytes sample.hub
           {| Event_Event := Some (Event_Block None); Event_Creator := [] |}
           None [Recv_ok sample.one_block] Hc eq_refl (or_introl eq_refl)).
Defined.

(** X14, on a peer that answers. *)
Lemma connect_result_witness :
  exists (t : list (effect bytes)) e' p',
    connect sample.reachable eventHub_zero sample.peer0 = (t, Return (e', p', None)) /\
    p' = {| Uri := Uri sample.peer0;
            Opts := Opts sample.peer0 ++ connect_options |} /\
    disconnect (PrivateKey := bytes) (R := unit) e' =
      ([CloseSend; ConnectionClose], Next tt).
Proof.
  eassert (H : connect (PrivateKey := bytes) sample.reachable eventHub_zero
                       sample.peer0 = (_, Return (_, _, None)))
    by (vm_compute; reflexivity).
  do 3 eexists. split; [exact H|].
  exact (connect_result bytes _ _ _ _ _ _ _ H).
Defined.

(** X15, on a peer that is connected to twice. *)
Lemma connect_accumulates_options_witness :
  exists (t1 t2 : list (effect bytes)) e1 e2 p1 p2 err1 err2,
    connect sample.reachable eventHub_zero sample.peer0 = (t1, Return (e1, p1, err1)) /\
    connect sample.reachable e1 p1 = (t2, Return (e2, p2, err2)) /\
    Opts p2 = Opts sample.peer0 ++ connect_options ++ connect_options /\
    In (Dial (Uri sample.peer0)
             (Opts sample.peer0 ++ connect_options ++ connect_options)) t2 /\
    List.length (Opts p2) = (List.length (Opts sample.peer0) + 6)%nat.
Proof.
  eassert (H1 : connect (PrivateKey := bytes) sample.reachable eventHub_zero
                        sample.peer0 = (_, Return (_, _, _)))
    by (vm_compute; reflexivity).
  match type of H1 with
  | _ = (_, Return (?e1, ?p1, _)) =>
    eassert (H2 : connect (PrivateKey := bytes) sample.reachable e1 p1
                  = (_, Return (_, _, _)))
      by (vm_compute; reflexivity)
  end.
  do 8 eexists. split; [exact H1|]. split; [exact H2|].
  exact (connect_accumulates_options bytes _ _ _ _ _ _ _ _ _ _ _ H1 H2).
Defined.

(** X16, on the registration of the sample identity. *)
Lemma register_never_sends_unsigned_witness :
  exists t o,
    register pem.EncodeToMemory sample.hub "Org1MSP" sample.identity = (t, o) /\
    ((forall ev, ~ In (ClientSend ev) t) \/
     exists evtBytes sb,
       Sign evtBytes (Identity_PrivateKey sample.identity) = (sb, None) /\
       t = [SignCall evtBytes (Identity_PrivateKey sample.identity);
            ClientSend {| SignedEvent_Signature := sb;
                          SignedEvent_EventBytes := evtBytes |}]).
Proof.
  eassert (H : register pem.EncodeToMemory sample.hub "Org1MSP" sample.identity = (_, _))
    by (vm_compute; reflexivity).
  do 2 eexists. split; [exact H|].
  exact (register_never_sends_unsigned bytes pem.EncodeToMemory _ _ _ _ _ H).
Defined.

(** X17, on a peer that refuses the registration. *)
Lemma newEventListener_never_closes_witness :
  exists t o,
    newEventListener pem.EncodeToMemory sample.refusing
                     sample.peer0 sample.identity "Org1MSP" = (t, o) /\
    o = Return (Some (errors_New "transport is closing")) /\
    In (Chat {| grpc.ClientConn_target := "peer0:7053" |}) t /\
    ~ In CloseSend t /\ ~ In ConnectionClose t.
Proof.
  eassert (H : newEventListener pem.EncodeToMemory sample.refusing
                                sample.peer0 sample.identity "Org1MSP" = (_, _))
    by (vm_compute; reflexivity).
  do 2 eexists. split; [exact H|]. split; [reflexivity|].
  split; [right; left; reflexivity|].
  exact (newEventListener_never_closes bytes pem.EncodeToMemory _ _ _ _ _ _ H).
Defined.

(** X18, on a peer that answers and sends two blocks. *)
Lemma subscription_delivers_witness :
  exists t,
    newEventListener pem.EncodeToMemory sample.reachable
                     sample.peer0 sample.identity "Org1MSP" = (t, Return None) /\
    Forall walkable [sample.one_block; sample.mixed_block] /\
    Forall decodes (stream_entries [sample.one_block; sample.mixed_block]) /\
    Forall carries_input (stream_entries [sample.one_block; sample.mixed_block]) /\
    exists tr,
      goroutines t (map Recv_ok [sample.one_block; sample.mixed_block] ++
                    [Recv_err io_EOF]) =
        tr ++ [CloseSend; ConnectionClose] /\
      only_sends tr /\
      Forall2 decoded_entry (sent tr)
              (stream_entries [sample.one_block; sample.mixed_block]).
Proof.
  eassert (H : newEventListener pem.EncodeToMemory sample.reachable
                                sample.peer0 sample.identity "Org1MSP"
               = (_, Return None))
    by (vm_compute; reflexivity).
  assert (Hw : Forall walkable [sample.one_block; sample.mixed_block]).
  { repeat constructor; (eexists; split; [reflexivity|]; split; discriminate). }
  assert (Hd : Forall decodes (stream_entries [sample.one_block; sample.mixed_block])).
  { repeat constructor.
    - eexists. do 2 eexists. split; [reflexivity|]. split; [reflexivity|].
      split; [vm_compute; reflexivity|]. right. split; reflexivity.
    - eexists. do 2 eexists. split; [reflexivity|]. split; [reflexivity|].
      split; [vm_compute; reflexivity|]. right. split; reflexivity.
    - eexists. do 2 eexists. split; [reflexivity|]. split; [reflexivity|].
      split; [vm_compute; reflexivity|]. left. eexists.
      split; vm_compute; reflexivity. }
  assert (Hv : carries_input (sample.block 7 [] [], 0, sample.endorser_envelope)).
  { eassert (Hh' : header_stages sample.endorser_envelope = Done (_, _, _))
      by (vm_compute; reflexivity).
    match type of Hh' with
    | _ = Done (?p, _, _) =>
      eassert (Hi' : input_stages p = Done (_, _)) by (vm_compute; reflexivity)
    end.
    match type of Hi' with
    | _ = Done (_, ?c) =>
      assert (Hg : GetInput (GetChaincodeSpec c) <> None) by discriminate
    end.
    intros payload header ex cap cis Hh _ Hi.
    rewrite Hh' in Hh. injection Hh as <- _ _.
    rewrite Hi' in Hi. injection Hi as _ <-. exact Hg. }
  assert (Hx : carries_input (sample.block 7 [] [], 1, sample.corrupt_envelope)).
  { intros payload header ex cap cis Hh _ _.
    assert (Hh' : header_stages sample.corrupt_envelope = Failed io_ErrUnexpectedEOF)
      by (vm_compute; reflexivity).
    rewrite Hh' in Hh. discriminate. }
  assert (Hi : Forall carries_input
                      (stream_entries [sample.one_block; sample.mixed_block])).
  { repeat constructor; [exact Hv | exact Hv | exact Hx]. }
  eexists. split; [exact H|]. split; [exact Hw|]. split; [exact Hd|].
  split; [exact Hi|].
  exact (subscription_delivers bytes pem.EncodeToMemory _ _ _ _ _ _ H Hw Hd Hi).
Defined.

(** X19, on four bytes from a source that fills the buffer. *)
Lemma GetRandomBytes_fills_or_fails_witness :
  exists delivered rerr buf err,
    gm.rand_Read (RandomSource := fixture.counting) (Z.to_nat 4) = (delivered, rerr) /\
    gm.GetRandomBytes (source := fixture.counting) 4 = (buf, err) /\
    buf = [x00; x01; x02; x03] /\
    (err = None <->
     0 <= 4 /\ rerr = None /\ (Z.to_nat 4 <= List.length delivered)%nat) /\
    (err = None ->
     buf = firstn (Z.to_nat 4) delivered /\ Z.of_nat (List.length buf) = 4) /\
    (err <> None -> buf = []).
Proof.
  eassert (Hr : gm.rand_Read (RandomSource := fixture.counting) (Z.to_nat 4) = (_, _))
    by (vm_compute; reflexivity).
  eassert (H : gm.GetRandomBytes (source := fixture.counting) 4 = (_, _))
    by (vm_compute; reflexivity).
  do 4 eexists. split; [exact Hr|]. split; [exact H|]. split; [reflexivity|].
  exact (GetRandomBytes_fills_or_fails (source := fixture.counting) _ _ _ _ _ Hr H).
Defined.

(** X20, on a negative length. *)
Lemma GetRandomBytes_error_is_length_or_source_witness :
  (forall n d, gm.rand_Read (RandomSource := fixture.counting) n = (d, None) ->
               (n <= List.length d)%nat) /\
  exists delivered rerr,
    gm.rand_Read (RandomSource := fixture.counting) (Z.to_nat (-1)) = (delivered, rerr) /\
    gm.GetRandomBytes (source := fixture.counting) (-1) =
      ([], Some (errors_New "Len must be larger than 0")) /\
    ((-1 < 0 /\
      errors_New "Len must be larger than 0" = errors_New "Len must be larger than 0") \/
     (0 <= -1 /\ rerr = Some (errors_New "Len must be larger than 0"))).
Proof.
  assert (Hfull : forall n d,
             gm.rand_Read (RandomSource := fixture.counting) n = (d, None) ->
             (n <= List.length d)%nat).
  { intros n d H. inversion H. rewrite length_map, length_seq. lia. }
  eassert (Hr : gm.rand_Read (RandomSource := fixture.counting) (Z.to_nat (-1)) = (_, _))
    by reflexivity.
  assert (H : gm.GetRandomBytes (source := fixture.counting) (-1) =
              ([], Some (errors_New "Len must be larger than 0"))) by reflexivity.
  split; [exact Hfull|].
  do 2 eexists. split; [exact Hr|]. split; [exact H|].
  exact (GetRandomBytes_error_is_length_or_source
           (source := fixture.counting) _ _ _ _ _ Hfull Hr H).
Defined.

(** X21, on a query with a configuration file that cannot be read. *)
Lemma main_calls_at_most_one_handler_witness :
  exists t o,
    cli.main fixture.unconfigured ["query"; "mycc"; "a"]%string = (t, o) /\
    filter cli.is_call t = [] /\
    (List.length (filter cli.is_call t) <= 1)%nat /\
    (forall err, cli.InitSDK fixture.unconfigured "./client.yaml" = Some err ->
                 t = [cli.Call_InitSDK "./client.yaml"; cli.Println_error err] /\
                 o = Return tt).
Proof.
  eassert (H : cli.main fixture.unconfigured ["query"; "mycc"; "a"]%string = (_, _))
    by (vm_compute; reflexivity).
  do 2 eexists. split; [exact H|]. split; [reflexivity|].
  exact (main_calls_at_most_one_handler _ _ fixture.unconfigured _ _ _ H).
Defined.

(** X22, on the sample SDK. *)
Lemma main_without_arguments_faults_witness :
  cli.InitSDK fixture.sdk "./client.yaml" = None /\
  cli.main fixture.sdk [] =
    ([cli.Call_InitSDK "./client.yaml"], Panic (index_out_of_range 0 0)).
Proof.
  split; [reflexivity|].
  exact (main_without_arguments_faults _ _ fixture.sdk eq_refl).
Defined.

(** X23, on a misspelt command. *)
Lemma main_default_is_QueryByQscc_witness :
  exists t o,
    cli.InitSDK fixture.sdk "./client.yaml" = None /\
    "qeury"%string <> "invoke"%string /\ "qeury"%string <> "query"%string /\
    "qeury"%string <> "listen"%string /\
    cli.main fixture.sdk ["qeury"; "mycc"; "a"]%string = (t, o) /\
    filter cli.is_call t =
      [cli.Call_QueryByQscc ["qeury"; "mycc"; "a"]%string ["peer0"%string]].
Proof.
  assert (H1 : "qeury"%string <> "invoke"%string) by discriminate.
  assert (H2 : "qeury"%string <> "query"%string) by discriminate.
  assert (H3 : "qeury"%string <> "listen"%string) by discriminate.
  eassert (H : cli.main fixture.sdk ["qeury"; "mycc"; "a"]%string = (_, _))
    by (vm_compute; reflexivity).
  do 2 eexists. split; [reflexivity|]. split; [exact H1|]. split; [exact H2|].
  split; [exact H3|]. split; [exact H|].
  exact (main_default_is_QueryByQscc _ _ fixture.sdk _ _ _ _ eq_refl H1 H2 H3 H).
Defined.

(** X24, on a system chaincode query that fails. *)
Lemma main_empty_result_faults_witness :
  cli.InitSDK fixture.sdk "./client.yaml" = None /\
  "getchaininfo"%string <> "invoke"%string /\
  "getchaininfo"%string <> "listen"%string /\
  cli.QueryByQscc fixture.sdk ["getchaininfo"; "mychannel"]%string ["peer0"%string] =
    ([], Some (errors_New "no such channel")) /\
  cli.main fixture.sdk ["getchaininfo"; "mychannel"]%string =
    ([cli.Call_InitSDK "./client.yaml";
      cli.Call_QueryByQscc ["getchaininfo"; "mychannel"]%string ["peer0"%string];
      cli.Println_error (errors_New "no such channel")],
     Panic (index_out_of_range 0 0)).
Proof.
  assert (H1 : "getchaininfo"%string <> "invoke"%string) by discriminate.
  assert (H3 : "getchaininfo"%string <> "listen"%string) by discriminate.
  split; [reflexivity|]. split; [exact H1|]. split; [exact H3|].
  split; [reflexivity|].
  exact (main_empty_result_faults _ _ fixture.sdk "getchaininfo" ["mychannel"%string]
           (Some (errors_New "no such channel")) eq_refl H1 H3 eq_refl).
Defined.

(** X25, on the transaction with an empty invocation spec. *)
Lemma missing_input_nil_dereference_witness :
  exists payload header ex cap cis flag,
    header_stages sample.no_input_envelope = Done (payload, header, ex) /\
    ChannelHeader_Type header = HeaderType_ENDORSER_TRANSACTION /\
    validation_flag sample.metadata 0 = Some flag /\
    input_stages payload = Done (cap, cis) /\
    GetInput (GetChaincodeSpec cis) = None /\
    DecodeEventBlock sample.no_input_envelope 7 0 sample.metadata =
      Panic nil_dereference.
Proof.
  eassert (Hh : header_stages sample.no_input_envelope = Done (_, _, _))
    by (vm_compute; reflexivity).
  match type of Hh with
  | _ = Done (?p, _, _) =>
    eassert (Hi : input_stages p = Done (_, _)) by (vm_compute; reflexivity)
  end.
  eassert (Hv : validation_flag sample.metadata 0 = Some _) by reflexivity.
  do 6 eexists. split; [exact Hh|]. split; [reflexivity|]. split; [exact Hv|].
  split; [exact Hi|]. split; [reflexivity|].
  exact (missing_input_nil_dereference _ 7 0 _ _ _ _ _ _ _ Hh eq_refl Hv Hi eq_refl).
Defined.
